(** * Quake .map to VMF converter: parser and generator core

    A shallow embedding of [parse_quake_map] and [generate_vmf_content]
    from [General Tools/QuakeExtractorAndConverter/vmapconverter.py],
    of the two functions run one after the other over a store of their
    variables, and of [run_resource_compiler] and [convert_folder] over
    an oracle for the operating system.

    Text is modelled as [string]: a character of the model is a Unicode
    code point below 256, and the character predicates and the case
    maps below are Python's on that range.  Text that holds a code
    point from 256 on is outside the model.  Numbers are IEEE-754
    binary64 values, modelled by
    the standard library's [spec_float] at precision 53 and maximal
    exponent 1024; integers are unbounded, as in Python. *)

From Stdlib Require Import List String Ascii Bool Arith NArith ZArith Lia.
From Stdlib Require Import DecimalString DecimalPos DecimalN.
From Stdlib.Floats Require Import SpecFloat.
Import ListNotations.

Local Open Scope list_scope.
Local Open Scope string_scope.

(* ================================================================== *)
(** ** Characters and strings *)

Module Text.

(** [str.isspace] on one character; [str.strip] and the pattern escape
    [\s] use the same table.  Below 256 it holds of 9-13, 28-32, 133
    (next line) and 160 (no-break space). *)
Definition is_space (c : ascii) : bool :=
  let n := nat_of_ascii c in
  ((9 <=? n) && (n <=? 13) || (28 <=? n) && (n <=? 32)
   || (n =? 133) || (n =? 160))%nat.

(** The pattern escape [\d]: below 256 the decimal digits are 0-9. *)
Definition is_digit (c : ascii) : bool :=
  let n := nat_of_ascii c in ((48 <=? n) && (n <=? 57))%nat.

(** [str.lower] on one character: below 256 the letters A-Z and the
    capitals 192-214 and 216-222 move up by 32, every other character
    stays. *)
Definition lower_char (c : ascii) : ascii :=
  let n := nat_of_ascii c in
  if ((65 <=? n) && (n <=? 90) || (192 <=? n) && (n <=? 214)
      || (216 <=? n) && (n <=? 222))%nat
  then ascii_of_nat (n + 32) else c.

(** The two characters below 256 whose upper case is a code point from
    256 on: the micro sign (181) and the y with diaeresis (255). *)
Definition upper_leaves (c : ascii) : bool :=
  let n := nat_of_ascii c in ((n =? 181) || (n =? 255))%nat.

Definition upper_stays (c : ascii) : bool := negb (upper_leaves c).

(** [str.upper] on one character: the letters a-z and the small letters
    224-246 and 248-254 move down by 32, the sharp s (223) becomes two
    letters, every other character stays.  The two characters of
    [upper_leaves] have no upper case in the model and are left as they
    are: what is said of [upper] is said of text without them. *)
Definition upper_char (c : ascii) : string :=
  let n := nat_of_ascii c in
  if ((97 <=? n) && (n <=? 122) || (224 <=? n) && (n <=? 246)
      || (248 <=? n) && (n <=? 254))%nat
  then String (ascii_of_nat (n - 32)) EmptyString
  else if (n =? 223)%nat then "SS"
  else String c EmptyString.

Fixpoint map_chars (f : ascii -> ascii) (s : string) : string :=
  match s with
  | EmptyString => EmptyString
  | String c s' => String (f c) (map_chars f s')
  end.

(** [str.lower]. *)
Definition lower : string -> string := map_chars lower_char.

(** [str.upper]. *)
Fixpoint upper (s : string) : string :=
  match s with
  | EmptyString => EmptyString
  | String c s' => upper_char c ++ upper s'
  end.

Fixpoint all_chars (p : ascii -> bool) (s : string) : bool :=
  match s with
  | EmptyString => true
  | String c s' => p c && all_chars p s'
  end.

Fixpoint lstrip (s : string) : string :=
  match s with
  | String c s' => if is_space c then lstrip s' else s
  | EmptyString => EmptyString
  end.

Fixpoint rstrip (s : string) : string :=
  match s with
  | EmptyString => EmptyString
  | String c s' =>
      match rstrip s' with
      | EmptyString => if is_space c then EmptyString else String c EmptyString
      | r => String c r
      end
  end.

(** [str.strip] without argument. *)
Definition strip (s : string) : string := rstrip (lstrip s).

(** [str.startswith]. *)
Fixpoint startswith (pre s : string) : bool :=
  match pre with
  | EmptyString => true
  | String a pre' =>
      match s with
      | String b s' => Ascii.eqb a b && startswith pre' s'
      | EmptyString => false
      end
  end.

(** The double quote character, which the generated document uses
    around every key and value. *)
Definition dq : string := String (ascii_of_nat 34) EmptyString.

Definition quoted (s : string) : string := dq ++ s ++ dq.

(** A line of the document that carries a key and its value. *)
Definition key_value (k v : string) : string := quoted k ++ " " ++ quoted v.

Definition newline : string := String (ascii_of_nat 10) EmptyString.

(** Decimal rendering of a non-negative integer, as [str(n)] or an
    f-string field does it. *)
Definition dec (n : N) : string := NilZero.string_of_uint (N.to_uint n).

(** Text-mode line iteration with universal newlines: a line ends at
    LF, CR LF or CR; the terminator is delivered as LF. *)
Fixpoint read_lines_aux (cur : string) (s : string) : list string :=
  match s with
  | EmptyString =>
      match cur with EmptyString => [] | _ => [cur] end
  | String c s' =>
      if Ascii.eqb c (ascii_of_nat 10) then
        (cur ++ String (ascii_of_nat 10) EmptyString) :: read_lines_aux EmptyString s'
      else if Ascii.eqb c (ascii_of_nat 13) then
        (cur ++ String (ascii_of_nat 10) EmptyString) ::
        match s' with
        | String c' s'' =>
            if Ascii.eqb c' (ascii_of_nat 10)
            then read_lines_aux EmptyString s''
            else read_lines_aux EmptyString s'
        | EmptyString => []
        end
      else read_lines_aux (cur ++ String c EmptyString) s'
  end.

Definition read_lines (text : string) : list string :=
  read_lines_aux EmptyString text.

End Text.

(* ================================================================== *)
(** ** Regular expressions of the shape the parser uses

    The plane pattern is a concatenation of single-character classes,
    each taken once, or repeated greedily with [*] or [+], some of them
    inside a capture group.  [match_here] is the backtracking matcher of
    [re.match] for that fragment: a repetition tries the longest run
    first and gives characters back one at a time when the rest of the
    pattern fails. *)

Module Re.

Inductive quantifier := Once | Star | Plus.

Record item := Item {
  cls : ascii -> bool;
  quant : quantifier;
  captured : bool
}.

Fixpoint greedy {R : Type} (p : ascii -> bool)
    (k : string -> string -> option R) (s : string) : option R :=
  match s with
  | String c s' =>
      if p c then
        match greedy p (fun taken rest => k (String c taken) rest) s' with
        | Some r => Some r
        | None => k EmptyString s
        end
      else k EmptyString s
  | EmptyString => k EmptyString s
  end.

Fixpoint match_here (items : list item) (s : string) : option (list string) :=
  match items with
  | [] => Some []
  | it :: rest =>
      let finish (taken s' : string) :=
        match match_here rest s' with
        | Some gs => Some (if captured it then taken :: gs else gs)
        | None => None
        end in
      match quant it with
      | Once =>
          match s with
          | String c s' =>
              if cls it c then finish (String c EmptyString) s' else None
          | EmptyString => None
          end
      | Star => greedy (cls it) finish s
      | Plus =>
          match s with
          | String c s' =>
              if cls it c
              then greedy (cls it) (fun taken => finish (String c taken)) s'
              else None
          | EmptyString => None
          end
      end
  end.

(** [s] does not begin with a character of the class [p]. *)
Definition starts_clear (p : ascii -> bool) (s : string) : bool :=
  match s with
  | String c _ => negb (p c)
  | EmptyString => true
  end.

(** No match of [rest] begins with a character of the class [p]. *)
Definition refuses (p : ascii -> bool) (rest : list item) : Prop :=
  forall c s, p c = true -> match_here rest (String c s) = None.

(** [m.group(k)] for [k >= 1] on the list of captured groups. *)
Definition group (m : list string) (k : nat) : string :=
  nth (k - 1) m EmptyString.

End Re.

(* ================================================================== *)
(** ** Binary64 numbers: conversion from text, product, fixed format *)

Module Float64.
Import Text.

Definition float := spec_float.
Definition prec : Z := 53.
Definition emax : Z := 1024.

(** The [*] and unary [-] of Python floats. *)
Definition mul : float -> float -> float := SFmul prec emax.
Definition neg : float -> float := SFopp.

(** The binary64 value nearest to [n / 10^k] (ties to even), with the
    given sign; this is what a correctly rounded decimal-to-binary
    conversion returns for the digits [n] with [k] of them after the
    point. *)
Definition of_decimal (negative : bool) (n k : N) : float :=
  match n with
  | N0 => S754_zero negative
  | Npos m =>
      SFdiv prec emax (S754_finite negative m 0)
                      (S754_finite false (Z.to_pos (10 ^ Z.of_N k)) 0)
  end.

Definition digit_value (c : ascii) : N := N.of_nat (nat_of_ascii c - 48).

(** Reads the longest run of digits at the head of [s]: the number read
    so far, how many digits were read, and what is left. *)
Fixpoint read_digits (s : string) (acc count : N) : N * N * string :=
  match s with
  | String c s' =>
      if is_digit c
      then read_digits s' (10 * acc + digit_value c)%N (count + 1)%N
      else (acc, count, s)
  | EmptyString => (acc, count, s)
  end.

(** [float(t)] for a token [t] over the characters the plane pattern
    can capture (digits, the point and the minus sign): an optional
    leading minus, digits with at most one point among them, at least
    one digit.  [None] stands for the [ValueError] that [float] raises
    on any other such token. *)
Definition of_string (t : string) : option float :=
  let '(negative, body) :=
    match t with
    | String c r => if Ascii.eqb c "-" then (true, r) else (false, t)
    | EmptyString => (false, t)
    end in
  let '(i, ni, r1) := read_digits body 0 0 in
  match r1 with
  | EmptyString => if (ni =? 0)%N then None else Some (of_decimal negative i 0)
  | String c r2 =>
      if Ascii.eqb c "." then
        let '(n, nf, r3) := read_digits r2 i 0 in
        match r3 with
        | EmptyString =>
            if (ni + nf =? 0)%N then None else Some (of_decimal negative n nf)
        | String _ _ => None
        end
      else None
  end.

Definition round_half_even (n d : Z) : Z :=
  let q := (n / d)%Z in
  match (2 * (n mod d) ?= d)%Z with
  | Lt => q
  | Gt => (q + 1)%Z
  | Eq => if Z.even q then q else (q + 1)%Z
  end.

(** [m * 2^e * 10^6] rounded to an integer, ties to even. *)
Definition micro_units (m : positive) (e : Z) : N :=
  Z.to_N (if (0 <=? e)%Z
          then (Zpos m * 2 ^ e * 10 ^ 6)%Z
          else round_half_even (Zpos m * 10 ^ 6) (2 ^ (- e))).

Definition digit_char (d : N) : ascii := ascii_of_N (48 + d).

(** The last [width] decimal digits of [r], zero-padded on the left. *)
Fixpoint fixed_digits (width : nat) (r : N) : string :=
  match width with
  | O => EmptyString
  | S w => fixed_digits w (r / 10) ++ String (digit_char (r mod 10)) EmptyString
  end.

Definition sign_text (negative : bool) : string :=
  if negative then "-" else "".

(** The format specification [.6f]. *)
Definition format_6f (x : float) : string :=
  match x with
  | S754_nan => "nan"
  | S754_infinity s => sign_text s ++ "inf"
  | S754_zero s => sign_text s ++ "0.000000"
  | S754_finite s m e =>
      let n := micro_units m e in
      sign_text s ++ dec (n / 1000000) ++ "." ++ fixed_digits 6 (n mod 1000000)
  end.

Definition is_finite (x : float) : bool :=
  match x with
  | S754_zero _ | S754_finite _ _ _ => true
  | S754_infinity _ | S754_nan => false
  end.

End Float64.

(* ================================================================== *)
(** ** Data model *)

Definition point3 : Type := Float64.float * Float64.float * Float64.float.

(** One entry of [current_brush_planes]: the dictionary with the keys
    [plane] and [texture]. *)
Record plane_data := PlaneData {
  plane : point3 * point3 * point3;
  texture : string
}.

Definition brush : Type := list plane_data.

(* ================================================================== *)
(** ** parse_quake_map *)

Module Parser.
Import Text Re.

Inductive exn :=
| FileNotFoundError
| Exception (msg : string).

Inductive result (A : Type) :=
| Ok (a : A)
| Raise (e : exn).
Arguments Ok {A} a.
Arguments Raise {A} e.

Definition bind {A B : Type} (c : result A) (k : A -> result B) : result B :=
  match c with
  | Ok a => k a
  | Raise e => Raise e
  end.

Notation "x <- c ;; k" := (bind c (fun x => k))
  (at level 61, c at next level, right associativity).

(** The character class [[\d\.\-]]. *)
Definition is_num (c : ascii) : bool :=
  is_digit c || Ascii.eqb c "." || Ascii.eqb c "-".

Definition is_char (x c : ascii) : bool := Ascii.eqb c x.
Definition non_space (c : ascii) : bool := negb (is_space c).
(** The dot of a pattern compiled without flags: anything but LF. *)
Definition any_char (c : ascii) : bool := negb (Ascii.eqb c (ascii_of_nat 10)).

(** [\(\s*([\d\.\-]+)\s+([\d\.\-]+)\s+([\d\.\-]+)\s*\)\s*] *)
Definition triple_re : list item :=
  [ Item (is_char "(") Once false;
    Item is_space Star false;
    Item is_num Plus true;
    Item is_space Plus false;
    Item is_num Plus true;
    Item is_space Plus false;
    Item is_num Plus true;
    Item is_space Star false;
    Item (is_char ")") Once false;
    Item is_space Star false ].

(** The whole pattern: three triples, then [([^\s]+).*] *)
Definition plane_re : list item :=
  (triple_re ++ triple_re ++ triple_re ++
   [ Item non_space Plus true; Item any_char Star false ])%list.

Definition plane_match (stripped_line : string) : option (list string) :=
  match_here plane_re stripped_line.

(** [float(...)] with its [ValueError]. *)
Definition to_float (t : string) : result Float64.float :=
  match Float64.of_string t with
  | Some v => Ok v
  | None => Raise (Exception ("could not convert string to float: '" ++ t ++ "'"))
  end.

(** The three local variables of the scanning loop. *)
Record parser_state := ParserState {
  brushes : list brush;
  current_brush_planes : list plane_data;
  in_entity_block : bool
}.

Definition init_state : parser_state := ParserState [] [] false.

(** One iteration of the loop over the lines of the file. *)
Definition process_line (st : parser_state) (line : string) : result parser_state :=
  let stripped_line := strip line in
  if (stripped_line =? "") || startswith "//" stripped_line then Ok st
  else if stripped_line =? "{" then
    if negb (in_entity_block st)
    then Ok (ParserState (brushes st) [] true)
    else Ok (ParserState (brushes st) [] (in_entity_block st))
  else if stripped_line =? "}" then
    match current_brush_planes st with
    | _ :: _ =>
        Ok (ParserState (brushes st ++ [current_brush_planes st]) []
                        (in_entity_block st))
    | [] =>
        if in_entity_block st
        then Ok (ParserState (brushes st) (current_brush_planes st) false)
        else Ok st
    end
  else if in_entity_block st then
    match plane_match stripped_line with
    | Some m =>
        x1 <- to_float (group m 1) ;;
        y1 <- to_float (group m 2) ;;
        z1 <- to_float (group m 3) ;;
        x2 <- to_float (group m 4) ;;
        y2 <- to_float (group m 5) ;;
        z2 <- to_float (group m 6) ;;
        x3 <- to_float (group m 7) ;;
        y3 <- to_float (group m 8) ;;
        z3 <- to_float (group m 9) ;;
        let texture_name := lower (group m 10) in
        Ok (ParserState (brushes st)
              (current_brush_planes st ++
               [PlaneData ((x1, y1, z1), (x2, y2, z2), (x3, y3, z3)) texture_name])
              (in_entity_block st))
    | None => Ok st
    end
  else Ok st.

Fixpoint scan_lines (lines : list string) (st : parser_state) : result parser_state :=
  match lines with
  | [] => Ok st
  | line :: rest => st' <- process_line st line ;; scan_lines rest st'
  end.

(** What the operating system answers when the file is opened and read:
    [open] raises, or the iteration delivers [lines] and then either
    ends or raises with the message [failure]. *)
Inductive file :=
| Missing
| Unopenable (msg : string)
| Readable (lines : list string) (failure : option string).

(** The statement after the loop: a non-empty accumulator is appended. *)
Definition flush (st : parser_state) : list brush :=
  match current_brush_planes st with
  | _ :: _ => (brushes st ++ [current_brush_planes st])%list
  | [] => brushes st
  end.

(** The body of the [try]: what it prints, and how it ends. *)
Definition try_body (map_filepath : string) (f : file)
  : list string * result (list brush) :=
  match f with
  | Missing => ([], Raise FileNotFoundError)
  | Unopenable msg => ([], Raise (Exception msg))
  | Readable lines failure =>
      let attempting := "  Attempting to parse map file: " ++ map_filepath in
      match scan_lines lines init_state with
      | Raise e => ([attempting], Raise e)
      | Ok st =>
          match failure with
          | Some msg => ([attempting], Raise (Exception msg))
          | None =>
              let bs := flush st in
              ([attempting;
                "  Finished parsing " ++ map_filepath ++ ". Found "
                  ++ dec (N.of_nat (List.length bs)) ++ " brushes."],
               Ok bs)
          end
      end
  end.

Definition not_found_message (map_filepath : string) : string :=
  "[ERROR] Map file not found: " ++ map_filepath.

Definition error_message (map_filepath msg : string) : string :=
  "[ERROR] An error occurred while parsing " ++ map_filepath ++ ": " ++ msg.

(** Whether one of the printed lines announces an error. *)
Definition reports_error (printed : list string) : bool :=
  existsb (startswith "[ERROR]") printed.

(** [parse_quake_map]: the lines printed, and the value returned. *)
Definition parse_quake_map (map_filepath : string) (f : file)
  : list string * list brush :=
  let '(printed, r) := try_body map_filepath f in
  match r with
  | Ok bs => (printed, bs)
  | Raise FileNotFoundError =>
      ((printed ++ [not_found_message map_filepath])%list, [])
  | Raise (Exception msg) =>
      ((printed ++ [error_message map_filepath msg])%list, [])
  end.

End Parser.

(* ================================================================== *)
(** ** generate_vmf_content *)

Module Generator.
Import Text.

(** The literal [0.75]. *)
Definition SCALE_FACTOR : Float64.float := Float64.of_decimal false 75 2.

(** The two local variables that the function updates. *)
Record gen_state := GenState {
  vmf_lines : list string;
  current_id : N
}.

Definition append_lines (ls : list string) (st : gen_state) : gen_state :=
  GenState (vmf_lines st ++ ls) (current_id st).

(** [current_id += 1] *)
Definition next_id (st : gen_state) : gen_state :=
  GenState (vmf_lines st) (current_id st + 1).

Definition header_lines : list string :=
  [ "versioninfo";
    "{";
    "    " ++ key_value "mapversion" "1";
    "    " ++ key_value "editorversion" "400";
    "    " ++ key_value "editorbuild" "8000";
    "    " ++ key_value "formatversion" "1";
    "    " ++ key_value "prefab" "0";
    "}" ].

Definition world_open_lines : list string :=
  [ "world";
    "{";
    "    " ++ key_value "id" "1";
    "    " ++ key_value "mapversion" "1";
    "    " ++ key_value "classname" "worldspawn" ].

(** [px_s = (px[0] * SCALE_FACTOR, px[2] * SCALE_FACTOR, -px[1] * SCALE_FACTOR)] *)
Definition scale_point (p : point3) : point3 :=
  let '(p0, p1, p2) := p in
  (Float64.mul p0 SCALE_FACTOR,
   Float64.mul p2 SCALE_FACTOR,
   Float64.mul (Float64.neg p1) SCALE_FACTOR).

Definition point_text (p : point3) : string :=
  let '(a, b, c) := p in
  "(" ++ Float64.format_6f a ++ " " ++ Float64.format_6f b ++ " "
      ++ Float64.format_6f c ++ ")".

(** The lines that one iteration of the inner loop appends; the first
    argument is the value of [current_id] when the iteration starts. *)
Definition side_lines (id : N) (pd : plane_data) : list string :=
  let '(p1, p2, p3) := plane pd in
  let p1_s := scale_point p1 in
  let p2_s := scale_point p2 in
  let p3_s := scale_point p3 in
  [ "        side";
    "        {";
    "            " ++ key_value "id" (dec id);
    "            " ++ key_value "plane"
       (point_text p1_s ++ " " ++ point_text p2_s ++ " " ++ point_text p3_s);
    "            " ++ key_value "material" ("materials/" ++ upper (texture pd));
    "            " ++ key_value "uaxis" "[1 0 0 0] 0.0625";
    "            " ++ key_value "vaxis" "[0 1 0 0] 0.0625";
    "            " ++ key_value "rotation" "0";
    "            " ++ key_value "lightmapscale" "16";
    "            " ++ key_value "smoothing_groups" "0";
    "        }" ].

Definition emit_side (st : gen_state) (pd : plane_data) : gen_state :=
  next_id (append_lines (side_lines (current_id st) pd) st).

Definition solid_open_lines (id : N) : list string :=
  [ "    solid";
    "    {";
    "        " ++ key_value "id" (dec id) ].

Definition solid_close_lines : list string :=
  [ "        " ++ quoted "editor";
    "        {";
    "            " ++ key_value "color" "255 0 0";
    "            " ++ key_value "visgroupshown" "1";
    "            " ++ key_value "visgroupautoshown" "1";
    "            " ++ key_value "logicalpos" "[0 0]";
    "        }";
    "    }" ].

(** One iteration of the outer loop. *)
Definition emit_solid (st : gen_state) (brush_planes : brush) : gen_state :=
  let st1 := next_id (append_lines (solid_open_lines (current_id st)) st) in
  let st2 := fold_left emit_side brush_planes st1 in
  append_lines solid_close_lines st2.

Definition world_close_lines : list string :=
  [ "    " ++ quoted "editor";
    "    {";
    "        " ++ key_value "color" "255 0 0";
    "        " ++ key_value "visgroupshown" "1";
    "        " ++ key_value "visgroupautoshown" "1";
    "        " ++ key_value "logicalpos" "[0 0]";
    "    }";
    "}" ].

Definition entity_open_lines (id : N) : list string :=
  [ "entity";
    "{";
    "    " ++ key_value "id" (dec id) ].

Definition entity_close_lines : list string :=
  [ "    " ++ key_value "classname" "info_player_start";
    "    " ++ key_value "origin" "0 0 64";
    "    " ++ key_value "angles" "0 0 0";
    "    " ++ quoted "editor";
    "    {";
    "        " ++ key_value "color" "255 255 0";
    "        " ++ key_value "visgroupshown" "1";
    "        " ++ key_value "visgroupautoshown" "1";
    "        " ++ key_value "logicalpos" "[0 0]";
    "    }";
    "}" ].

Definition hidden_lines : list string := [ "hidden"; "{"; "}" ].

(** The state when the function reaches its [return]. *)
Definition run (map_data : list brush) : gen_state :=
  let st0 := GenState (header_lines ++ world_open_lines) 2 in
  let st1 := fold_left emit_solid map_data st0 in
  let st2 := append_lines world_close_lines st1 in
  let st3 := next_id (append_lines (entity_open_lines (current_id st2)) st2) in
  append_lines hidden_lines (append_lines entity_close_lines st3).

Definition document_lines (map_data : list brush) : list string :=
  vmf_lines (run map_data).

Definition generate_vmf_content (map_data : list brush) : string :=
  String.concat newline (document_lines map_data).

(** Whether a line of the document carries the key [k]. *)
Definition has_key (k : string) (line : string) : bool :=
  startswith (quoted k ++ " ") (lstrip line).

End Generator.

(* ================================================================== *)
(** ** The variables of the two functions

    In Python the variables of [parse_quake_map] and of
    [generate_vmf_content] are local to one call.  Here they are kept
    in a store that survives the calls, which is the pessimistic
    reading: a call finds in the store whatever the calls before it
    left there, and what it makes of it is decided by its own
    assignments. *)

Module Invocations.
Import Text Parser Generator.

Record store := Store {
  s_brushes : list brush;
  s_current_brush_planes : list plane_data;
  s_in_entity_block : bool;
  s_vmf_lines : list string;
  s_SCALE_FACTOR : Float64.float;
  s_current_id : N
}.

Definition set_brushes (s : store) (v : list brush) : store :=
  Store v (s_current_brush_planes s) (s_in_entity_block s)
        (s_vmf_lines s) (s_SCALE_FACTOR s) (s_current_id s).

Definition set_current_brush_planes (s : store) (v : list plane_data) : store :=
  Store (s_brushes s) v (s_in_entity_block s)
        (s_vmf_lines s) (s_SCALE_FACTOR s) (s_current_id s).

Definition set_in_entity_block (s : store) (v : bool) : store :=
  Store (s_brushes s) (s_current_brush_planes s) v
        (s_vmf_lines s) (s_SCALE_FACTOR s) (s_current_id s).

Definition set_vmf_lines (s : store) (v : list string) : store :=
  Store (s_brushes s) (s_current_brush_planes s) (s_in_entity_block s)
        v (s_SCALE_FACTOR s) (s_current_id s).

Definition set_SCALE_FACTOR (s : store) (v : Float64.float) : store :=
  Store (s_brushes s) (s_current_brush_planes s) (s_in_entity_block s)
        (s_vmf_lines s) v (s_current_id s).

Definition set_current_id (s : store) (v : N) : store :=
  Store (s_brushes s) (s_current_brush_planes s) (s_in_entity_block s)
        (s_vmf_lines s) (s_SCALE_FACTOR s) v.

(** The three variables of the scanning loop, as the store holds them. *)
Definition parser_vars (s : store) : parser_state :=
  ParserState (s_brushes s) (s_current_brush_planes s) (s_in_entity_block s).

Definition with_parser_vars (s : store) (st : parser_state) : store :=
  Store (brushes st) (current_brush_planes st) (in_entity_block st)
        (s_vmf_lines s) (s_SCALE_FACTOR s) (s_current_id s).

(** The two variables that the generator updates, as the store holds
    them. *)
Definition gen_vars (s : store) : gen_state :=
  GenState (s_vmf_lines s) (s_current_id s).

Definition with_gen_vars (s : store) (g : gen_state) : store :=
  Store (s_brushes s) (s_current_brush_planes s) (s_in_entity_block s)
        (vmf_lines g) (s_SCALE_FACTOR s) (current_id g).

(** The loops of the generator, with the scale factor they read from
    the store. *)
Definition scale_point_by (k : Float64.float) (p : point3) : point3 :=
  let '(p0, p1, p2) := p in
  (Float64.mul p0 k, Float64.mul p2 k, Float64.mul (Float64.neg p1) k).

Definition side_lines_by (k : Float64.float) (id : N) (pd : plane_data)
  : list string :=
  let '(p1, p2, p3) := plane pd in
  let p1_s := scale_point_by k p1 in
  let p2_s := scale_point_by k p2 in
  let p3_s := scale_point_by k p3 in
  [ "        side";
    "        {";
    "            " ++ key_value "id" (dec id);
    "            " ++ key_value "plane"
       (point_text p1_s ++ " " ++ point_text p2_s ++ " " ++ point_text p3_s);
    "            " ++ key_value "material" ("materials/" ++ upper (texture pd));
    "            " ++ key_value "uaxis" "[1 0 0 0] 0.0625";
    "            " ++ key_value "vaxis" "[0 1 0 0] 0.0625";
    "            " ++ key_value "rotation" "0";
    "            " ++ key_value "lightmapscale" "16";
    "            " ++ key_value "smoothing_groups" "0";
    "        }" ].

Definition emit_side_by (k : Float64.float) (st : gen_state) (pd : plane_data)
  : gen_state :=
  next_id (append_lines (side_lines_by k (current_id st) pd) st).

Definition emit_solid_by (k : Float64.float) (st : gen_state)
    (brush_planes : brush) : gen_state :=
  let st1 := next_id (append_lines (solid_open_lines (current_id st)) st) in
  let st2 := fold_left (emit_side_by k) brush_planes st1 in
  append_lines solid_close_lines st2.

(** The loop over the lines, with the state it stops in: the state
    after the last line, or the state before the line on which an
    iteration raised, and the exception. *)
Fixpoint scan_from (lines : list string) (st : parser_state)
  : parser_state * option exn :=
  match lines with
  | [] => (st, None)
  | line :: rest =>
      match process_line st line with
      | Ok st' => scan_from rest st'
      | Raise e => (st, Some e)
      end
  end.

(** [parse_quake_map], started in the store [s]: the store it leaves,
    the lines it prints and the value it returns. *)
Definition parse_quake_map (s : store) (map_filepath : string) (f : file)
  : store * (list string * list brush) :=
  let s := set_brushes s [] in
  let s := set_current_brush_planes s [] in
  let s := set_in_entity_block s false in
  match f with
  | Missing => (s, ([not_found_message map_filepath], []))
  | Unopenable msg => (s, ([error_message map_filepath msg], []))
  | Readable lines failure =>
      let attempting := "  Attempting to parse map file: " ++ map_filepath in
      let '(st, raised) := scan_from lines (parser_vars s) in
      let s := with_parser_vars s st in
      match raised with
      | Some FileNotFoundError =>
          (s, ([attempting; not_found_message map_filepath], []))
      | Some (Exception msg) =>
          (s, ([attempting; error_message map_filepath msg], []))
      | None =>
          match failure with
          | Some msg => (s, ([attempting; error_message map_filepath msg], []))
          | None =>
              let s := set_brushes s (flush (parser_vars s)) in
              (s, ([attempting;
                    "  Finished parsing " ++ map_filepath ++ ". Found "
                      ++ dec (N.of_nat (List.length (s_brushes s)))
                      ++ " brushes."],
                   s_brushes s))
          end
      end
  end.

(** [generate_vmf_content], started in the store [s]. *)
Definition generate_vmf_content (s : store) (map_data : list brush)
  : store * string :=
  let s := set_vmf_lines s [] in
  let s := with_gen_vars s (append_lines header_lines (gen_vars s)) in
  let s := with_gen_vars s (append_lines world_open_lines (gen_vars s)) in
  let s := set_SCALE_FACTOR s (Float64.of_decimal false 75 2) in
  let s := set_current_id s 2 in
  let s := with_gen_vars s
             (fold_left (emit_solid_by (s_SCALE_FACTOR s)) map_data
                        (gen_vars s)) in
  let s := with_gen_vars s (append_lines world_close_lines (gen_vars s)) in
  let s := with_gen_vars s
             (next_id (append_lines (entity_open_lines (s_current_id s))
                                    (gen_vars s))) in
  let s := with_gen_vars s (append_lines entity_close_lines (gen_vars s)) in
  let s := with_gen_vars s (append_lines hidden_lines (gen_vars s)) in
  (s, String.concat newline (s_vmf_lines s)).

(** One unit of work: a file is parsed and, when it holds a brush, its
    document is generated.  The output is what is printed and the
    document, if any. *)
Definition convert (s : store) (job : string * file)
  : store * (list string * option string) :=
  let '(map_filepath, f) := job in
  let '(s, (out, brushes)) := parse_quake_map s map_filepath f in
  match brushes with
  | _ :: _ =>
      let '(s, vmf_content) := generate_vmf_content s brushes in
      (s, (out, Some vmf_content))
  | [] => (s, (out, None))
  end.

(** Several units of work, one after the other, each started in the
    store that the one before it left. *)
Fixpoint convert_all (s : store) (jobs : list (string * file))
  : store * list (list string * option string) :=
  match jobs with
  | [] => (s, [])
  | job :: rest =>
      let '(s, r) := convert s job in
      let '(s, rs) := convert_all s rest in
      (s, r :: rs)
  end.

(** The store of a run that nothing preceded. *)
Definition fresh : store := Store [] [] false [] S754_nan 0.

(** What a unit of work yields when it is run alone. *)
Definition alone (job : string * file) : list string * option string :=
  snd (convert fresh job).

End Invocations.

(* ================================================================== *)
(** ** Vocabulary of the properties

    The shapes of input lines that the statements below speak of, and
    closed forms of what the generator appends. *)

Module Syntax.
Import Text Parser.

(** The text of one bracketed triple and of the blanks around its
    three tokens; [gap] is what follows the closing bracket. *)
Record triple_text := TripleText {
  lead : string;
  n1 : string;
  sep1 : string;
  n2 : string;
  sep2 : string;
  n3 : string;
  trail : string;
  gap : string
}.

(** The text of one plane line: leading blanks, three triples, the
    texture token, and whatever follows it on the line. *)
Record plane_text := PlaneText {
  indent : string;
  t1 : triple_text;
  t2 : triple_text;
  t3 : triple_text;
  tex : string;
  rest : string
}.

Definition render_triple (t : triple_text) (k : string) : string :=
  String "(" (lead t ++ n1 t ++ sep1 t ++ n2 t ++ sep2 t ++ n3 t ++ trail t
                ++ String ")" (gap t ++ k)).

Definition render_core (p : plane_text) (r : string) : string :=
  render_triple (t1 p) (render_triple (t2 p) (render_triple (t3 p) (tex p ++ r))).

Definition render (p : plane_text) : string :=
  indent p ++ render_core p (rest p).

Definition blank (s : string) : bool := all_chars is_space s.
Definition nonempty (s : string) : bool := negb (s =? "").

(** A token that [float] accepts. *)
Definition is_number (t : string) : bool :=
  match Float64.of_string t with Some _ => true | None => false end.

Definition wf_triple (t : triple_text) : bool :=
  blank (lead t) && is_number (n1 t)
  && blank (sep1 t) && nonempty (sep1 t) && is_number (n2 t)
  && blank (sep2 t) && nonempty (sep2 t) && is_number (n3 t)
  && blank (trail t) && blank (gap t).

Definition starts_blank (s : string) : bool :=
  match s with
  | EmptyString => true
  | String c _ => is_space c
  end.

(** A syntactically well-formed plane line. *)
Definition wf_plane (p : plane_text) : bool :=
  blank (indent p)
  && wf_triple (t1 p) && wf_triple (t2 p) && wf_triple (t3 p)
  && all_chars non_space (tex p) && nonempty (tex p)
  && starts_blank (rest p).

Definition value (t : string) : Float64.float :=
  match Float64.of_string t with Some v => v | None => S754_nan end.

Definition point_of (t : triple_text) : point3 :=
  (value (n1 t), value (n2 t), value (n3 t)).

(** The record a well-formed plane line stands for: the three triples
    in the order written, the texture token in lower case. *)
Definition plane_of (p : plane_text) : plane_data :=
  PlaneData (point_of (t1 p), point_of (t2 p), point_of (t3 p)) (lower (tex p)).

(** A line the plane pattern does not match. *)
Definition no_plane (line : string) : bool :=
  match plane_match (strip line) with None => true | Some _ => false end.

Definition is_brace (line : string) : bool :=
  (strip line =? "{") || (strip line =? "}").

(** A line that is neither a brace nor matched by the plane pattern:
    blank lines, comments, key-value pairs, malformed plane lines. *)
Definition inert (line : string) : bool :=
  negb (is_brace line) && no_plane line.

(** The lines between the braces of a brush block. *)
Inductive body_line :=
| PlaneLine (p : plane_text)
| OtherLine (l : string).

Definition line_of (b : body_line) : string :=
  match b with PlaneLine p => render p | OtherLine l => l end.

Definition wf_body_line (b : body_line) : bool :=
  match b with PlaneLine p => wf_plane p | OtherLine l => inert l end.

Fixpoint plane_texts (body : list body_line) : list plane_text :=
  match body with
  | [] => []
  | PlaneLine p :: r => p :: plane_texts r
  | OtherLine _ :: r => plane_texts r
  end.

(** A line the pattern matches although one of its nine coordinate
    tokens is not a number. *)
Definition bad_number_line (line : string) : bool :=
  negb (strip line =? "") && negb (startswith "//" (strip line))
  && negb (is_brace line)
  && match plane_match (strip line) with
     | Some m => negb (forallb (fun k => is_number (Re.group m k))
                         [1; 2; 3; 4; 5; 6; 7; 8; 9]%nat)
     | None => false
     end.

End Syntax.

Module Layout.
Import Text Generator.

(** The kinds of block that draw an identifier from the counter. *)
Inductive block := Solid | Side | Entity.

(** The order in which [generate_vmf_content] is to draw identifiers:
    per brush one for the solid and then one per plane, and a last one
    for the entity. *)
Definition allocations (map_data : list brush) : list block :=
  (flat_map (fun b : brush => Solid :: map (fun _ => Side) b) map_data
     ++ [Entity])%list.

(** Consecutive numbers from [start] on. *)
Fixpoint numbered (start : N) (bs : list block) : list (block * N) :=
  match bs with
  | [] => []
  | b :: r => (b, start) :: numbered (start + 1) r
  end.

Definition id_line (a : block * N) : string :=
  match fst a with
  | Solid => "        " ++ key_value "id" (dec (snd a))
  | Side => "            " ++ key_value "id" (dec (snd a))
  | Entity => "    " ++ key_value "id" (dec (snd a))
  end.

(** The text of a point after the change of axes and of scale:
    [(x, y, z)] becomes [(x * S, z * S, -y * S)], each coordinate in
    the format [.6f]. *)
Definition emitted_point (p : point3) : string :=
  let '(x, y, z) := p in
  "(" ++ Float64.format_6f (Float64.mul x SCALE_FACTOR)
      ++ " " ++ Float64.format_6f (Float64.mul z SCALE_FACTOR)
      ++ " " ++ Float64.format_6f (Float64.mul (Float64.neg y) SCALE_FACTOR)
      ++ ")".

Definition plane_line (pd : plane_data) : string :=
  let '(p1, p2, p3) := plane pd in
  "            " ++ key_value "plane"
    (emitted_point p1 ++ " " ++ emitted_point p2 ++ " " ++ emitted_point p3).

Definition material_line (pd : plane_data) : string :=
  "            " ++ key_value "material" ("materials/" ++ upper (texture pd)).

(** What the inner loop appends, started with the counter at [id]. *)
Fixpoint sides_from (id : N) (planes : brush) : list string :=
  match planes with
  | [] => []
  | pd :: r => (side_lines id pd ++ sides_from (id + 1) r)%list
  end.

(** What the outer loop appends, started with the counter at [id]. *)
Fixpoint solids_from (id : N) (map_data : list brush) : list string :=
  match map_data with
  | [] => []
  | b :: r =>
      (solid_open_lines id ++ sides_from (id + 1) b ++ solid_close_lines
         ++ solids_from (id + 1 + N.of_nat (List.length b)) r)%list
  end.

(** How many identifiers the outer loop draws. *)
Fixpoint drawn (map_data : list brush) : N :=
  match map_data with
  | [] => 0
  | b :: r => (1 + N.of_nat (List.length b) + drawn r)%N
  end.

End Layout.

(* ================================================================== *)
(** ** Sample inputs *)

Module Samples.
Import Text Parser Syntax.

Definition wall_line : string :=
  "( 0 0 0 ) ( 1 0 0 ) ( 0 1 0 ) wall".

Definition floor_line : string :=
  "( 0 0 8 ) ( 0 1 8 ) ( 1 0 8 ) floor".

(** The first coordinate is not a number, yet the pattern matches. *)
Definition dotted_line : string :=
  "( 1.2.3 0 0 ) ( 1 0 0 ) ( 0 1 0 ) wall".

Definition dash_line : string :=
  "( 0 0 0 ) ( 1 - 0 ) ( 0 1 0 ) wall".

(** Two triples only. *)
Definition short_line : string :=
  "( 0 0 0 ) ( 1 0 0 ) wall".

(** No texture token. *)
Definition bare_line : string :=
  "( 0 0 0 ) ( 1 0 0 ) ( 0 1 0 )".

(** The first plane line of the sample map that the application
    writes into an empty input folder. *)
Definition sample_plane : plane_text :=
  PlaneText "        "
    (TripleText " " "-128" " " "-128" " " "0" " " " ")
    (TripleText " " "128" " " "-128" " " "0" " " " ")
    (TripleText " " "-128" " " "128" " " "0" " " " ")
    "WALL_TEX" " [ 1 0 0 0 ] [ 0 1 0 0 ] 0 1 1".

Definition sample_plane_2 : plane_text :=
  PlaneText "        "
    (TripleText " " "-128" " " "128" " " "0" " " " ")
    (TripleText " " "128" " " "128" " " "0" " " " ")
    (TripleText " " "-128" " " "128" " " "128" " " " ")
    "{CLIP" " [ 1 0 0 0 ] [ 0 1 0 0 ] 0 1 1".

Definition classname_line : string :=
  "    " ++ key_value "classname" "worldspawn".

(** The text of the sample map that the application writes into an
    empty input folder. *)
Definition sample_text : string :=
  String.concat newline
    [ "";
      "// My Sample Quake Map";
      "{";
      "    " ++ key_value "classname" "worldspawn";
      "    {";
      "        ( -128 -128 0 ) ( 128 -128 0 ) ( -128 128 0 ) WALL_TEX [ 1 0 0 0 ] [ 0 1 0 0 ] 0 1 1";
      "        ( -128 -128 128 ) ( -128 128 128 ) ( 128 -128 128 ) CEILING_TEX [ 1 0 0 0 ] [ 0 1 0 0 ] 0 1 1";
      "        ( -128 -128 0 ) ( -128 -128 128 ) ( -128 128 0 ) FLOOR_TEX [ 1 0 0 0 ] [ 0 1 0 0 ] 0 1 1";
      "        ( 128 -128 0 ) ( 128 128 0 ) ( 128 -128 128 ) BRICK_TEX [ 1 0 0 0 ] [ 0 1 0 0 ] 0 1 1";
      "        ( -128 128 0 ) ( 128 128 0 ) ( -128 128 128 ) {CLIP [ 1 0 0 0 ] [ 0 1 0 0 ] 0 1 1";
      "        ( -128 -128 0 ) ( -128 128 0 ) ( 128 -128 0 ) WATER_TEX [ 1 0 0 0 ] [ 0 1 0 0 ] 0 1 1";
      "    }";
      "    {";
      "        " ++ key_value "classname" "light";
      "        " ++ key_value "origin" "0 0 64";
      "        " ++ key_value "light" "300";
      "    }";
      "}";
      "" ].

(** A one followed by 309 zeros: larger than every finite binary64. *)
Definition huge_token : string :=
  "1" ++ Float64.fixed_digits 309 0.

Definition huge_line : string :=
  "( " ++ huge_token ++ " 0 0 ) ( 1 0 0 ) ( 0 1 0 ) wall".

End Samples.

(* ================================================================== *)
(** ** Further vocabulary for the parser *)

Module Reading.
Import Text Re Parser Syntax.

(** What the loop body makes of a match: the nine conversions in the
    order of the source, then the record. *)
Definition plane_from_match (m : list string) : result plane_data :=
  x1 <- to_float (group m 1) ;;
  y1 <- to_float (group m 2) ;;
  z1 <- to_float (group m 3) ;;
  x2 <- to_float (group m 4) ;;
  y2 <- to_float (group m 5) ;;
  z2 <- to_float (group m 6) ;;
  x3 <- to_float (group m 7) ;;
  y3 <- to_float (group m 8) ;;
  z3 <- to_float (group m 9) ;;
  Ok (PlaneData ((x1, y1, z1), (x2, y2, z2), (x3, y3, z3)) (lower (group m 10))).

(** The plane a line of the file stands for, if the pattern matches it
    and its nine tokens are numbers. *)
Definition plane_of_line (line : string) : option plane_data :=
  match plane_match (strip line) with
  | Some m =>
      match plane_from_match m with
      | Ok pd => Some pd
      | Raise _ => None
      end
  | None => None
  end.

(** What a captured group looks like: a run of the class of its item,
    not empty unless the item is starred. *)
Definition group_ok (it : item) (g : string) : Prop :=
  all_chars (cls it) g = true /\ (quant it <> Star -> g <> "").

(** [l1] is [l2] with some elements left out, the order kept. *)
Inductive subseq {A : Type} : list A -> list A -> Prop :=
| subseq_nil : subseq [] []
| subseq_skip (x : A) (l1 l2 : list A) : subseq l1 l2 -> subseq l1 (x :: l2)
| subseq_take (x : A) (l1 l2 : list A) : subseq l1 l2 -> subseq (x :: l1) (x :: l2).

(** The text of a brush block: its braces, the lines between them, and
    the lines that follow it up to the next block. *)
Record block_text := BlockText {
  b_open : string;
  b_body : list body_line;
  b_close : string;
  b_after : list string
}.

Definition block_lines (b : block_text) : list string :=
  b_open b :: map line_of (b_body b) ++ b_close b :: b_after b.

Definition wf_block (b : block_text) : bool :=
  (strip (b_open b) =? "{")
  && forallb wf_body_line (b_body b)
  && (strip (b_close b) =? "}")
  && forallb no_plane (b_after b).

(** The brush a block yields: none when it holds no plane line. *)
Definition block_brush (b : block_text) : list brush :=
  match plane_texts (b_body b) with
  | [] => []
  | _ :: _ => [map plane_of (plane_texts (b_body b))]
  end.

End Reading.

(* ================================================================== *)
(** ** Further vocabulary for numbers *)

Module Numbers.

(** The sign bit of a number; a NaN is given none. *)
Definition sign_bit (x : Float64.float) : bool :=
  match x with
  | S754_zero s | S754_infinity s | S754_finite s _ _ => s
  | S754_nan => false
  end.

Definition is_nan (x : Float64.float) : bool :=
  match x with
  | S754_nan => true
  | _ => false
  end.

(** A finite number in millionths, rounded to an integer, ties to
    even: the digits that the format [.6f] writes. *)
Definition millionths (x : Float64.float) : N :=
  match x with
  | S754_finite _ m e => Float64.micro_units m e
  | _ => 0%N
  end.

(** The nine coordinates of a plane, in the order of the source line. *)
Definition coordinates (pd : plane_data) : list Float64.float :=
  let '((x1, y1, z1), (x2, y2, z2), (x3, y3, z3)) := plane pd in
  [x1; y1; z1; x2; y2; z2; x3; y3; z3].

End Numbers.

(* ================================================================== *)
(** ** Further vocabulary for the document *)

Module Structure.
Import Text Generator.

(** The depth of nesting after [lines], started at [depth]: a line that
    is an opening brace goes one level down, a closing brace one level
    up; [None] when a brace closes what was never opened. *)
Fixpoint nesting (depth : nat) (lines : list string) : option nat :=
  match lines with
  | [] => Some depth
  | l :: rest =>
      if strip l =? "{" then nesting (S depth) rest
      else if strip l =? "}" then
        match depth with
        | O => None
        | S d => nesting d rest
        end
      else nesting depth rest
  end.

(** Neither a line feed nor a carriage return. *)
Definition no_break (c : ascii) : bool :=
  negb (Ascii.eqb c (ascii_of_nat 10)) && negb (Ascii.eqb c (ascii_of_nat 13)).

(** The lines of a text as the iteration over a file delivers them:
    every line but the last with its line feed. *)
Fixpoint terminated (lines : list string) : list string :=
  match lines with
  | [] => []
  | [l] => [l]
  | l :: rest => (l ++ newline) :: terminated rest
  end.

(** How many planes a sequence of brushes holds. *)
Definition plane_count (map_data : list brush) : nat :=
  List.length (List.concat map_data).

End Structure.

(* ================================================================== *)
(** ** run_resource_compiler and convert_folder

    The two functions talk to the operating system and to the console
    widget.  The operating system is an oracle: what it answers to a
    call may depend on every call made before, so a run is described
    by the sequence of its calls.  The path functions of [os.path] are
    pure and are taken as they come.  The console is the sequence of
    the texts passed to [console_widget.insert]; inserting is taken
    never to fail.  The external process may never be done with: then
    the function that waits for it does not return, and neither does
    its caller. *)

Module Pipeline.
Import Text Parser Generator.

(** How [with open(vmf_filepath, 'w') as f: f.write(vmf_content)] ends. *)
Inductive write_result :=
| Written
| WriteIOError (e : string)
| WriteException (e : string).

(** How starting and draining the external process ends.  It runs,
    delivers the lines of its two pipes and its return code; or the
    draining never ends, the lines given being those delivered up to
    there; or one of the three handlers of [run_resource_compiler] is
    entered.  The function reads the first pipe to its end before it
    reads the second: the draining does not end when the process waits
    for the second pipe to be read, when it never closes a pipe, or
    when it never exits. *)
Inductive process_result :=
| Exited (stdout stderr : list string) (returncode : Z)
| Blocked (stdout stderr : list string)
| PopenFileNotFound
| PopenCalledProcessError (e out err : string)
| PopenException (e : string).

(** The calls made to the operating system. *)
Inductive call :=
| PathExists (path : string)
| MakeDirs (path : string)
| Walk (top : string)
| OpenRead (path : string)
| OpenWrite (path content : string)
| Popen (command : list string) (vproject cwd : string).

Definition history : Type := list call.

(** How a function ends: it returns, it raises, or it never does
    either. *)
Inductive ending :=
| Returns
| Raises (e : exn)
| Hangs.

(** The operating system: each answer is a function of the calls made
    so far and of the arguments of the call. *)
Record os := OS {
  path_exists : history -> string -> bool;
  makedirs : history -> string -> option string;
  walk : history -> string -> list (string * list string);
  open_read : history -> string -> file;
  open_write : history -> string -> string -> write_result;
  popen : history -> list string -> string -> string -> process_result;
  join : string -> string -> string;
  dirname : string -> string;
  basename : string -> string;
  splitext : string -> string * string
}.

(** What a run has done so far: the calls made, the texts inserted
    into the console widget, and the lines printed. *)
Record run_state := RunState {
  calls : history;
  console : list string;
  printed : list string
}.

Definition record (st : run_state) (c : call) : run_state :=
  RunState (calls st ++ [c])%list (console st) (printed st).

(** [console_widget.insert(tk.END, s)] *)
Definition insert (st : run_state) (s : string) : run_state :=
  RunState (calls st) (console st ++ [s])%list (printed st).

Definition print_to_console (st : run_state) (s : string) : run_state :=
  insert st (s ++ newline).

Definition print_lines (st : run_state) (out : list string) : run_state :=
  RunState (calls st) (console st) (printed st ++ out)%list.

(** [str] of an integer. *)
Definition int_text (z : Z) : string :=
  if (z <? 0)%Z then "-" ++ dec (Z.to_N (- z)) else dec (Z.to_N z).

(** [str.endswith]. *)
Fixpoint endswith (suffix s : string) : bool :=
  if s =? suffix then true
  else match s with
       | EmptyString => false
       | String _ s' => endswith suffix s'
       end.

(** [run_resource_compiler]: what it has done, and the value it
    returns, if it returns. *)
Definition run_resource_compiler (o : os)
    (compiler_path input_vmf_path : string) (st : run_state)
  : run_state * option bool :=
  let command := [compiler_path; "-f"; input_vmf_path] in
  let compiler_bin_dir := dirname o compiler_path in
  let alyx_base_dir := dirname o (dirname o (dirname o compiler_bin_dir)) in
  let alyx_content_root := join o alyx_base_dir "content" in
  let subprocess_cwd := compiler_bin_dir in
  let st := insert st
              (newline ++ "  Attempting to run resourcecompiler with VPROJECT='"
                 ++ alyx_content_root ++ "' and CWD='" ++ subprocess_cwd ++ "'"
                 ++ newline) in
  let st := insert st ("  Command: " ++ String.concat " " command ++ newline) in
  let process := popen o (calls st) command alyx_content_root subprocess_cwd in
  let st := record st (Popen command alyx_content_root subprocess_cwd) in
  match process with
  | Exited stdout stderr returncode =>
      let st := fold_left insert stdout st in
      let st := fold_left (fun st line => insert st ("[RC_ERROR] " ++ line))
                          stderr st in
      if negb (returncode =? 0)%Z then
        (insert st ("[ERROR] resourcecompiler exited with code "
                      ++ int_text returncode ++ newline), Some false)
      else
        (insert st ("resourcecompiler finished successfully." ++ newline),
         Some true)
  | Blocked stdout stderr =>
      let st := fold_left insert stdout st in
      let st := fold_left (fun st line => insert st ("[RC_ERROR] " ++ line))
                          stderr st in
      (st, None)
  | PopenFileNotFound =>
      (insert st ("[ERROR] resourcecompiler.exe not found at '" ++ compiler_path
                    ++ "'. Please check the path." ++ newline), Some false)
  | PopenCalledProcessError e out err =>
      let st := insert st ("[ERROR] resourcecompiler command failed: " ++ e
                             ++ newline) in
      (insert st ("Stdout: " ++ out ++ newline ++ "Stderr: " ++ err ++ newline),
       Some false)
  | PopenException e =>
      (insert st ("[ERROR] An unexpected error occurred while running resourcecompiler: "
                    ++ e ++ newline), Some false)
  end.

(** The test of the scan: [file.lower().endswith(".map")]. *)
Definition is_map_file (file : string) : bool := endswith ".map" (lower file).

(** The list that the two nested loops over [os.walk] build. *)
Definition map_files_to_process (o : os) (walked : list (string * list string))
  : list string :=
  flat_map (fun '(root, files) => map (join o root) (filter is_map_file files))
           walked.

(** One iteration of the loop over [map_files_to_process]: the state
    and the flag [map_files_found] it leaves, and whether it ends. *)
Definition process_map (o : os) (maps_output_dir resource_compiler_path : string)
    (acc : run_state * bool) (map_filepath : string)
  : (run_state * bool) * bool :=
  let st := fst acc in
  let st := print_to_console st ("- " ++ map_filepath) in
  let map_files_found := true in
  let map_name := fst (splitext o (basename o map_filepath)) in
  let vmf_filepath := join o maps_output_dir (map_name ++ ".vmf") in
  let st := print_to_console st
              (newline ++ "Processing Quake map: " ++ map_filepath ++ "...") in
  let '(out, brushes) :=
    parse_quake_map map_filepath (open_read o (calls st) map_filepath) in
  let st := print_lines (record st (OpenRead map_filepath)) out in
  match brushes with
  | _ :: _ =>
      let vmf_content := generate_vmf_content brushes in
      let outcome := open_write o (calls st) vmf_filepath vmf_content in
      let st := record st (OpenWrite vmf_filepath vmf_content) in
      match outcome with
      | Written =>
          let st := print_to_console st
                      ("Generated Source 1 .vmf file: " ++ vmf_filepath) in
          let st := print_to_console st
                      ("Attempting to compile " ++ map_name
                         ++ ".vmf using resourcecompiler...") in
          match run_resource_compiler o resource_compiler_path vmf_filepath st with
          | (st, Some compiled) =>
              if compiled then
                ((print_to_console st
                    ("Successfully compiled " ++ map_name ++ ".vmf to .vmap_c."),
                  map_files_found), true)
              else
                ((print_to_console st
                    ("[ERROR] Failed to compile " ++ map_name
                       ++ ".vmf. Please review resourcecompiler output above for details."),
                  map_files_found), true)
          | (st, None) => ((st, map_files_found), false)
          end
      | WriteIOError e =>
          ((print_to_console st
              ("[ERROR] Could not write .vmf file '" ++ vmf_filepath ++ "': " ++ e),
            map_files_found), true)
      | WriteException e =>
          ((print_to_console st
              ("[ERROR] An unexpected error occurred during VMF generation or compilation for "
                 ++ map_name ++ ".vmf: " ++ e),
            map_files_found), true)
      end
  | [] =>
      ((print_to_console st
          ("No brushes found in " ++ map_filepath
             ++ ". Skipping .vmf generation and compilation."),
        map_files_found), true)
  end.

(** The loop over [map_files_to_process]: it goes on to the next file
    when an iteration ends, and ends when all of them did. *)
Fixpoint process_maps (o : os) (maps_output_dir resource_compiler_path : string)
    (files : list string) (acc : run_state * bool)
  : (run_state * bool) * bool :=
  match files with
  | [] => (acc, true)
  | map_filepath :: rest =>
      match process_map o maps_output_dir resource_compiler_path acc map_filepath with
      | (acc', true) =>
          process_maps o maps_output_dir resource_compiler_path rest acc'
      | (acc', false) => (acc', false)
      end
  end.

(** [os.makedirs(path, exist_ok=True)]: the call is made, and its
    error, if any, ends the function. *)
Definition make (o : os) (st : run_state) (path : string)
  : run_state * option string :=
  (record st (MakeDirs path), makedirs o (calls st) path).

(** The closing lines of a run that found map files. *)
Definition closing_notes (o : os) (addon_content_dir : string) : list string :=
  [ newline ++ "--- Conversion process completed. ---";
    "Output files are located in: " ++ addon_content_dir;
    newline ++ "IMPORTANT NOTES FOR HALF-LIFE: ALYX:";
    "1. Copy the entire '" ++ basename o addon_content_dir
      ++ "' folder (located at '" ++ addon_content_dir ++ "')";
    "   into your Half-Life: Alyx addon's 'content' directory.";
    "   Example: `Half-Life Alyx/game/hlvr_addons/my_addon_name/content/`";
    "2. This script provides a simplified conversion of Quake map geometry. Complex geometry (e.g., curved surfaces, precise UVs, advanced entities) are not fully handled.";
    "3. Quake uses a Z-up coordinate system, while Source 2 typically uses Y-up. The script attempts to convert (X,Y,Z) to (X,Z,-Y). You might still need to adjust the map's orientation in Hammer after import.";
    "4. **Material Assignment:** The generated VMFs will now include the original Quake texture names (e.g., 'WALL_TEX'). You will need to manually create corresponding Source 2 materials (`.vmat` files) in Hammer and apply them to the brushes. The `materials/` folder in the output will be empty by this script.";
    "5. The resourcecompiler.exe has converted the generated .vmf files to .vmap_c.";
    "6. For best results, you may need to manually adjust materials, brush geometry, and add entities in Half-Life: Alyx's Hammer editor." ].

(** The part of [convert_folder] that follows the creation of the
    output directories. *)
Definition convert_maps (o : os)
    (input_folder addon_content_dir maps_output_dir resource_compiler_path : string)
    (st : run_state) : run_state * ending :=
  let map_files_found := false in
  let st := print_to_console st
              (newline ++ "--- Starting Map Conversion Process ---") in
  let st := print_to_console st
              ("Scanning input folder: '" ++ input_folder
                 ++ "' for .map files...") in
  let files := map_files_to_process o (walk o (calls st) input_folder) in
  let st := record st (Walk input_folder) in
  match files with
  | [] =>
      (print_to_console st
         ("No .map files found in '" ++ input_folder
            ++ "' or its subdirectories. Nothing to convert."),
       Returns)
  | _ :: _ =>
      let st := print_to_console st
                  ("Found " ++ dec (N.of_nat (List.length files))
                     ++ " .map files to convert:") in
      match process_maps o maps_output_dir resource_compiler_path
                         files (st, map_files_found) with
      | ((st, _), false) => (st, Hangs)
      | ((st, map_files_found), true) =>
          if negb map_files_found then
            (print_to_console st
               "No .map files were processed. Please ensure your input folder contains .map files.",
             Returns)
          else
            (fold_left print_to_console (closing_notes o addon_content_dir) st,
             Returns)
      end
  end.

(** [convert_folder]: what the run has done, and how it ends. *)
Definition convert_folder (o : os)
    (input_folder output_base_folder resource_compiler_path : string)
  : run_state * ending :=
  let st := RunState [] [] [] in
  let input_found := path_exists o (calls st) input_folder in
  let st := record st (PathExists input_folder) in
  if negb input_found then
    (print_to_console st
       ("Error: Quake Maps Input folder '" ++ input_folder
          ++ "' does not exist. Please check the path."),
     Returns)
  else
    let compiler_found := path_exists o (calls st) resource_compiler_path in
    let st := record st (PathExists resource_compiler_path) in
    if negb compiler_found then
      (print_to_console st
         ("Error: resourcecompiler.exe not found at '" ++ resource_compiler_path
            ++ "'. Please check the path."),
       Returns)
    else
      let addon_content_dir := join o output_base_folder "quakeautomatedscriptport" in
      let maps_output_dir := join o addon_content_dir "maps" in
      let materials_output_dir := join o addon_content_dir "materials" in
      match make o st addon_content_dir with
      | (st, Some e) => (st, Raises (Exception e))
      | (st, None) =>
          match make o st maps_output_dir with
          | (st, Some e) => (st, Raises (Exception e))
          | (st, None) =>
              match make o st materials_output_dir with
              | (st, Some e) => (st, Raises (Exception e))
              | (st, None) =>
                  convert_maps o input_folder addon_content_dir maps_output_dir
                    resource_compiler_path st
              end
          end
      end.

(** The paths opened for reading, in the order of the calls. *)
Fixpoint opened (h : history) : list string :=
  match h with
  | [] => []
  | OpenRead p :: rest => p :: opened rest
  | _ :: rest => opened rest
  end.

(** A call that leaves the file system and the processes as they are. *)
Definition quiet (c : call) : bool :=
  match c with
  | OpenWrite _ _ | Popen _ _ _ => false
  | _ => true
  end.

(** Where [convert_folder] writes the document of a map file. *)
Definition vmf_path (o : os) (output_base_folder map_filepath : string) : string :=
  join o (join o (join o output_base_folder "quakeautomatedscriptport") "maps")
       (fst (splitext o (basename o map_filepath)) ++ ".vmf").

(** The value that [run_resource_compiler] gives to [VPROJECT]. *)
Definition content_root (o : os) (compiler_path : string) : string :=
  join o (dirname o (dirname o (dirname o (dirname o compiler_path)))) "content".

(** The call that starts the compiler on a document. *)
Definition compile_call (o : os) (compiler_path vmf_filepath : string) : call :=
  Popen [compiler_path; "-f"; vmf_filepath]
        (content_root o compiler_path) (dirname o compiler_path).

(** What the loop of [convert_folder] adds to the calls [h] for one map
    file: the file is read; when it holds a brush its document is
    written; when that went well the compiler is started. *)
Definition segment (o : os) (output_base_folder compiler_path : string)
    (h : history) (map_filepath : string) (seg : history) : Prop :=
  let brushes := snd (parse_quake_map map_filepath (open_read o h map_filepath)) in
  let p := vmf_path o output_base_folder map_filepath in
  let c := generate_vmf_content brushes in
  (brushes = [] /\ seg = [OpenRead map_filepath])
  \/ (brushes <> []
      /\ open_write o (h ++ [OpenRead map_filepath])%list p c <> Written
      /\ seg = [OpenRead map_filepath; OpenWrite p c])
  \/ (brushes <> []
      /\ open_write o (h ++ [OpenRead map_filepath])%list p c = Written
      /\ seg = [OpenRead map_filepath; OpenWrite p c;
                compile_call o compiler_path p]).

(** The last call started a process that is never done with. *)
Definition stuck (o : os) (h : history) : Prop :=
  exists pre command vproject cwd stdout stderr,
    h = (pre ++ [Popen command vproject cwd])%list
    /\ popen o pre command vproject cwd = Blocked stdout stderr.

(** What the loop adds to the calls [h] for a list of map files: the
    segments of the files, one after the other. *)
Inductive trail (o : os) (output_base_folder compiler_path : string)
  : history -> list string -> history -> Prop :=
| trail_nil (h : history) :
    trail o output_base_folder compiler_path h [] []
| trail_cons (h : history) (f : string) (seg : history)
             (files : list string) (rest : history) :
    segment o output_base_folder compiler_path h f seg ->
    trail o output_base_folder compiler_path (h ++ seg)%list files rest ->
    trail o output_base_folder compiler_path h (f :: files) (seg ++ rest)%list.

End Pipeline.

(* ================================================================== *)
(** ** A small world for the examples

    Paths are split at the last slash and at the last dot.  The input
    folder holds four files; the third map file is empty; the process
    that is started after ten calls or more ends with code 1. *)

Module SampleWorld.
Import Text Parser Pipeline.

Fixpoint split_last (sep : ascii) (s : string) : option (string * string) :=
  match s with
  | EmptyString => None
  | String c r =>
      match split_last sep r with
      | Some (a, b) => Some (String c a, b)
      | None => if Ascii.eqb c sep then Some (EmptyString, r) else None
      end
  end.

Definition sample_dirname (p : string) : string :=
  match split_last "/" p with Some (a, _) => a | None => "" end.

Definition sample_basename (p : string) : string :=
  match split_last "/" p with Some (_, b) => b | None => p end.

Definition sample_splitext (p : string) : string * string :=
  match split_last "." p with Some (a, b) => (a, "." ++ b) | None => (p, "") end.

Definition sample_os : os :=
  OS (fun _ _ => true)
     (fun _ _ => None)
     (fun _ top => [(top, ["e1m1.map"; "notes.txt"; "E1M2.MAP"; "empty.map"])])
     (fun _ p => if p =? "in/empty.map" then Readable [] None
                 else Readable (read_lines Samples.sample_text) None)
     (fun _ _ _ => Written)
     (fun h _ _ _ =>
        if (10 <=? List.length h)%nat
        then Exited ["Compiling" ++ newline] ["bad material" ++ newline] 1
        else Exited ["Compiling" ++ newline] [] 0)
     (fun a b => a ++ "/" ++ b)
     sample_dirname sample_basename sample_splitext.

Definition sample_compiler : string := "hla/game/bin/win64/resourcecompiler.exe".

(** The same world, but for the compiler: the process started after
    ten calls or more fills its second pipe and waits. *)
Definition stuck_os : os :=
  OS (path_exists sample_os) (makedirs sample_os) (walk sample_os)
     (open_read sample_os) (open_write sample_os)
     (fun h _ _ _ =>
        if (10 <=? List.length h)%nat
        then Blocked ["Compiling" ++ newline] []
        else Exited ["Compiling" ++ newline] [] 0)
     (join sample_os) (dirname sample_os) (basename sample_os)
     (splitext sample_os).

Definition sample_run : run_state :=
  fst (convert_folder sample_os "in" "out" sample_compiler).

(** The document of the sample map. *)
Definition sample_document : string :=
  Generator.generate_vmf_content
    (snd (parse_quake_map "in/e1m1.map"
            (Readable (read_lines Samples.sample_text) None))).

End SampleWorld.

(* ================================================================== *)
(** ** Facts about strings *)

Section TextFacts.
Import Text.

Lemma append_nil_r (s : string) : s ++ "" = s.
Proof. induction s as [|c s IH]; simpl; congruence. Qed.

Lemma append_assoc (a b c : string) : (a ++ b) ++ c = a ++ (b ++ c).
Proof. induction a as [|x a IH]; simpl; congruence. Qed.

Lemma all_chars_app (p : ascii -> bool) (a b : string) :
  all_chars p (a ++ b) = all_chars p a && all_chars p b.
Proof.
  induction a as [|c a IH]; simpl; [reflexivity|].
  rewrite IH. now rewrite andb_assoc.
Qed.

Lemma lstrip_blank_app (w s : string) :
  all_chars is_space w = true -> lstrip (w ++ s) = lstrip s.
Proof.
  induction w as [|c w IH]; simpl; [reflexivity|].
  intros H. apply andb_prop in H as [Hc Hw]. rewrite Hc. auto.
Qed.

Lemma lstrip_head (c : ascii) (s : string) :
  is_space c = false -> lstrip (String c s) = String c s.
Proof. intros H. simpl. now rewrite H. Qed.

Lemma rstrip_app (a b : string) :
  rstrip (a ++ b) =
  match rstrip b with
  | EmptyString => rstrip a
  | String _ _ as r => a ++ r
  end.
Proof.
  induction a as [|c a IH]; simpl.
  - destruct (rstrip b); reflexivity.
  - rewrite IH. destruct (rstrip b) as [|x r]; [reflexivity|].
    destruct a; reflexivity.
Qed.

Lemma rstrip_no_space (s : string) :
  all_chars (fun c => negb (is_space c)) s = true -> rstrip s = s.
Proof.
  induction s as [|c s IH]; simpl; [reflexivity|].
  intros H. apply andb_prop in H as [Hc Hs]. rewrite (IH Hs).
  destruct s; [|reflexivity].
  apply negb_true_iff in Hc. now rewrite Hc.
Qed.

(** Stripping on the right keeps the first character, if any is kept. *)
Lemma rstrip_head (s : string) :
  match rstrip s with
  | EmptyString => True
  | String c _ => exists s', s = String c s'
  end.
Proof.
  destruct s as [|c s]; simpl; [exact I|].
  destruct (rstrip s); [destruct (is_space c)|]; simpl; eauto.
Qed.

Lemma space_not_num (c : ascii) :
  is_space c = true -> Parser.is_num c = false.
Proof. destruct c as [[] [] [] [] [] [] [] []]; simpl; intros H; try reflexivity; discriminate H. Qed.

Lemma num_not_space (c : ascii) :
  Parser.is_num c = true -> is_space c = false.
Proof. destruct c as [[] [] [] [] [] [] [] []]; simpl; intros H; try reflexivity; discriminate H. Qed.

Lemma digit_is_num (c : ascii) :
  is_digit c = true -> Parser.is_num c = true.
Proof. unfold Parser.is_num. intros ->. reflexivity. Qed.

End TextFacts.

(* ================================================================== *)
(** ** Facts about the matcher *)

Section ReFacts.
Import Text Re.

Lemma starts_clear_app (p q : ascii -> bool) (w s : string) :
  (forall c, q c = true -> p c = false) ->
  all_chars q w = true -> starts_clear p s = true ->
  starts_clear p (w ++ s) = true.
Proof.
  intros Hpq Hw Hs. destruct w as [|c w]; simpl in *; [exact Hs|].
  apply andb_prop in Hw as [Hc _]. now rewrite (Hpq _ Hc).
Qed.

Lemma starts_clear_app_nonempty (p q : ascii -> bool) (w s : string) :
  (forall c, q c = true -> p c = false) ->
  all_chars q w = true -> w <> "" ->
  starts_clear p (w ++ s) = true.
Proof.
  intros Hpq Hw Hne. destruct w as [|c w]; simpl in *; [congruence|].
  apply andb_prop in Hw as [Hc _]. now rewrite (Hpq _ Hc).
Qed.

(** When the rest of the pattern accepts what follows the longest run,
    that is the answer: nothing is given back. *)
Lemma greedy_longest {R : Type} (p : ascii -> bool) (w s : string) :
  all_chars p w = true -> starts_clear p s = true ->
  forall (k : string -> string -> option R) (r : R),
    k w s = Some r -> greedy p k (w ++ s) = Some r.
Proof.
  intros Hw Hs. induction w as [|c w IH]; intros k r Hk; simpl.
  - destruct s as [|c s]; simpl in *; [exact Hk|].
    apply negb_true_iff in Hs. now rewrite Hs.
  - simpl in Hw. apply andb_prop in Hw as [Hc Hw]. rewrite Hc.
    now rewrite (IH Hw (fun taken rest => k (String c taken) rest) r Hk).
Qed.

Lemma greedy_constant {R : Type} (p : ascii -> bool) (x : R) (s : string) :
  forall k : string -> string -> option R,
    (forall t s', k t s' = Some x) -> greedy p k s = Some x.
Proof.
  induction s as [|c s IH]; intros k Hk; simpl; [apply Hk|].
  destruct (p c); [|apply Hk].
  now rewrite (IH (fun taken rest => k (String c taken) rest)).
Qed.

Lemma match_plus (p : ascii -> bool) (cap : bool) (rest : list item)
    (w s : string) (gs : list string) :
  all_chars p w = true -> w <> "" -> starts_clear p s = true ->
  match_here rest s = Some gs ->
  match_here (Item p Plus cap :: rest) (w ++ s)
  = Some (if cap then w :: gs else gs).
Proof.
  intros Hw Hne Hs Hr. destruct w as [|c w]; [congruence|].
  simpl in Hw. apply andb_prop in Hw as [Hc Hw].
  simpl. rewrite Hc. apply greedy_longest; auto. now rewrite Hr.
Qed.

(** When the rest of the pattern cannot begin with a character of the
    class, giving characters back never helps: the repetition takes the
    longest run, and the outcome is that of the rest after it. *)
Lemma greedy_exact {R : Type} (p : ascii -> bool) (w s : string) :
  all_chars p w = true -> starts_clear p s = true ->
  forall k : string -> string -> option R,
    (forall t c r, p c = true -> k t (String c r) = None) ->
    greedy p k (w ++ s) = k w s.
Proof.
  intros Hw Hs. induction w as [|c w IH]; intros k Hk; simpl.
  - destruct s as [|c s]; simpl in *; [reflexivity|].
    apply negb_true_iff in Hs. now rewrite Hs.
  - simpl in Hw. apply andb_prop in Hw as [Hc Hw]. rewrite Hc.
    rewrite (IH Hw (fun taken rest => k (String c taken) rest))
      by (intros; now apply Hk).
    destruct (k (String c w) s) eqn:E; [reflexivity|]. now apply Hk.
Qed.

Lemma refuses_once (p q : ascii -> bool) (cap : bool) (rest : list item) :
  (forall c, p c = true -> q c = false) ->
  refuses p (Item q Once cap :: rest).
Proof. intros H c s Hc. simpl. now rewrite (H c Hc). Qed.

Lemma refuses_plus (p q : ascii -> bool) (cap : bool) (rest : list item) :
  (forall c, p c = true -> q c = false) ->
  refuses p (Item q Plus cap :: rest).
Proof. intros H c s Hc. simpl. now rewrite (H c Hc). Qed.

Lemma match_star_exact (p : ascii -> bool) (rest : list item) (w s : string) :
  all_chars p w = true -> starts_clear p s = true -> refuses p rest ->
  match_here (Item p Star false :: rest) (w ++ s) = match_here rest s.
Proof.
  intros Hw Hs Hr. simpl.
  rewrite greedy_exact;
    [ destruct (match_here rest s); reflexivity
    | assumption | assumption
    | intros t c r Hc; now rewrite (Hr c r Hc) ].
Qed.

Lemma match_plus_exact (p : ascii -> bool) (cap : bool) (rest : list item)
    (w s : string) :
  all_chars p w = true -> w <> "" -> starts_clear p s = true ->
  refuses p rest ->
  match_here (Item p Plus cap :: rest) (w ++ s)
  = option_map (fun gs => if cap then w :: gs else gs) (match_here rest s).
Proof.
  intros Hw Hne Hs Hr. destruct w as [|c w]; [congruence|].
  simpl in Hw. apply andb_prop in Hw as [Hc Hw].
  simpl. rewrite Hc.
  rewrite greedy_exact;
    [ destruct (match_here rest s); reflexivity
    | assumption | assumption
    | intros t c' r Hc'; now rewrite (Hr c' r Hc') ].
Qed.

Lemma match_once_exact (p : ascii -> bool) (rest : list item)
    (c : ascii) (s : string) :
  match_here (Item p Once false :: rest) (String c s)
  = if p c then match_here rest s else None.
Proof. simpl. destruct (p c); [|reflexivity]. destruct (match_here rest s); reflexivity. Qed.

Lemma match_once_nothing (p : ascii -> bool) (cap : bool) (rest : list item)
    (s : string) :
  starts_clear p s = true ->
  match_here (Item p Once cap :: rest) s = None.
Proof.
  intros Hs. destruct s as [|c s]; simpl in *; [reflexivity|].
  apply negb_true_iff in Hs. now rewrite Hs.
Qed.

Lemma match_any_tail (p : ascii -> bool) (s : string) :
  match_here [Item p Star false] s = Some [].
Proof. simpl. now apply greedy_constant. Qed.

End ReFacts.

(* ================================================================== *)
(** ** Facts about number tokens *)

Section NumberFacts.
Import Text Float64.

Lemma read_digits_split (s : string) :
  forall acc count n c r,
    read_digits s acc count = (n, c, r) ->
    exists d, s = d ++ r /\ all_chars is_digit d = true
              /\ c = (count + N.of_nat (String.length d))%N.
Proof.
  induction s as [|x s IH]; intros acc count n c r H; simpl in H.
  - inversion H; subst. exists "". simpl. repeat split. lia.
  - destruct (is_digit x) eqn:Hx.
    + apply IH in H as (d & -> & Hd & ->).
      exists (String x d). simpl. rewrite Hx, Hd. repeat split. lia.
    + inversion H; subst. exists "". simpl. repeat split. lia.
Qed.

Lemma digits_are_num (d : string) :
  all_chars is_digit d = true -> all_chars Parser.is_num d = true.
Proof.
  induction d as [|c d IH]; simpl; [reflexivity|].
  intros H. apply andb_prop in H as [Hc Hd].
  now rewrite (digit_is_num _ Hc), IH.
Qed.

(** A token that [float] accepts is a non-empty run of the characters
    the pattern captures. *)
Lemma number_token_class (t : string) (v : float) :
  of_string t = Some v -> all_chars Parser.is_num t = true /\ t <> "".
Proof.
  assert (body_case : forall body negative,
    (let '(i, ni, r1) := read_digits body 0 0 in
     match r1 with
     | EmptyString =>
         if (ni =? 0)%N then None else Some (of_decimal negative i 0)
     | String c r2 =>
         if Ascii.eqb c "." then
           let '(n, nf, r3) := read_digits r2 i 0 in
           match r3 with
           | EmptyString =>
               if (ni + nf =? 0)%N then None
               else Some (of_decimal negative n nf)
           | String _ _ => None
           end
         else None
     end) = Some v ->
    all_chars Parser.is_num body = true /\ body <> "").
  { intros body negative.
    destruct (read_digits body 0 0) as [[i ni] r1] eqn:E1.
    apply read_digits_split in E1 as (d & -> & Hd & ->).
    destruct r1 as [|c r2].
    - rewrite append_nil_r.
      destruct d as [|x d]; simpl; [discriminate|].
      intros _. split; [|discriminate].
      simpl in Hd. apply andb_prop in Hd as [Hx Hd].
      now rewrite (digit_is_num _ Hx), (digits_are_num _ Hd).
    - destruct (Ascii.eqb c ".") eqn:Hc; [|discriminate].
      apply Ascii.eqb_eq in Hc. subst c.
      destruct (read_digits r2 i 0) as [[n nf] r3] eqn:E2.
      apply read_digits_split in E2 as (d2 & -> & Hd2 & ->).
      destruct r3; [|discriminate]. intros _.
      rewrite append_nil_r, all_chars_app. simpl.
      rewrite (digits_are_num _ Hd), (digits_are_num _ Hd2).
      split; [reflexivity|]. destruct d; discriminate. }
  unfold of_string. destruct t as [|c r]; [discriminate|].
  destruct (Ascii.eqb c "-") eqn:Hc.
  - apply Ascii.eqb_eq in Hc. subst c. intros H.
    apply body_case in H as [H _]. simpl. rewrite H. split; [reflexivity|discriminate].
  - intros H. apply body_case in H as [H _]. split; [exact H|discriminate].
Qed.

End NumberFacts.

(* ================================================================== *)
(** ** Facts about the parser *)

Section ParserFacts.
Import Text Re Parser Syntax.

Ltac split_andb :=
  repeat match goal with
         | H : _ && _ = true |- _ => apply andb_prop in H; destruct H
         end.

Lemma nonempty_neq (s : string) : nonempty s = true -> s <> "".
Proof.
  unfold nonempty. intros H ->. discriminate H.
Qed.

Lemma is_number_value (t : string) :
  is_number t = true -> Float64.of_string t = Some (value t).
Proof.
  unfold is_number, value. destruct (Float64.of_string t); [reflexivity|discriminate].
Qed.

Lemma is_number_class (t : string) :
  is_number t = true -> all_chars is_num t = true /\ t <> "".
Proof.
  intros H. apply is_number_value in H. eapply number_token_class; eauto.
Qed.

Lemma space_not_paren_open (c : ascii) : is_space c = true -> is_char "(" c = false.
Proof. destruct c as [[] [] [] [] [] [] [] []]; simpl; intros H; try reflexivity; discriminate H. Qed.

Lemma non_space_not_space (c : ascii) : non_space c = true -> is_space c = false.
Proof. unfold non_space. now intros H%negb_true_iff. Qed.

Lemma space_not_non_space (c : ascii) : is_space c = true -> non_space c = false.
Proof. unfold non_space. now intros ->. Qed.

Lemma num_not_paren_close (c : ascii) : is_num c = true -> is_char ")" c = false.
Proof. destruct c as [[] [] [] [] [] [] [] []]; simpl; intros H; try reflexivity; discriminate H. Qed.

Lemma space_not_paren_close (c : ascii) : is_space c = true -> is_char ")" c = false.
Proof. destruct c as [[] [] [] [] [] [] [] []]; simpl; intros H; try reflexivity; discriminate H. Qed.

(** On a rendered triple the pattern of a triple has one way only:
    the outcome is that of the rest of the pattern on what follows. *)
Lemma match_triple_exact (t : triple_text) (rest : list item) (k : string) :
  wf_triple t = true ->
  starts_clear is_space k = true ->
  refuses is_space rest ->
  match_here (triple_re ++ rest) (render_triple t k)
  = option_map (fun gs => n1 t :: n2 t :: n3 t :: gs) (match_here rest k).
Proof.
  intros Hwf Hk Hrest. unfold wf_triple in Hwf. split_andb.
  repeat match goal with
         | H : is_number _ = true |- _ => apply is_number_class in H; destruct H
         | H : nonempty _ = true |- _ => apply nonempty_neq in H
         end.
  unfold blank in *. unfold render_triple, triple_re. cbn [app].
  rewrite match_once_exact. cbn [is_char Ascii.eqb Bool.eqb].
  rewrite match_star_exact;
    [| assumption
     | eapply starts_clear_app_nonempty; eauto using num_not_space
     | apply refuses_plus, space_not_num ].
  rewrite (match_plus_exact is_num true);
    [| assumption | assumption
     | eapply starts_clear_app_nonempty; eauto using space_not_num
     | apply refuses_plus, num_not_space ].
  rewrite (match_plus_exact is_space false);
    [| assumption | assumption
     | eapply starts_clear_app_nonempty; eauto using num_not_space
     | apply refuses_plus, space_not_num ].
  rewrite (match_plus_exact is_num true);
    [| assumption | assumption
     | eapply starts_clear_app_nonempty; eauto using space_not_num
     | apply refuses_plus, num_not_space ].
  rewrite (match_plus_exact is_space false);
    [| assumption | assumption
     | eapply starts_clear_app_nonempty; eauto using num_not_space
     | apply refuses_plus, space_not_num ].
  rewrite (match_plus_exact is_num true);
    [| assumption | assumption
     | eapply starts_clear_app; eauto using space_not_num
     | ].
  2:{ intros c s Hc. simpl.
      destruct (is_space c) eqn:Hs.
      - pose proof (num_not_space c Hc). congruence.
      - now rewrite (num_not_paren_close c Hc). }
  rewrite match_star_exact;
    [| assumption | reflexivity | apply refuses_once, space_not_paren_close ].
  rewrite match_once_exact. cbn [is_char Ascii.eqb Bool.eqb].
  rewrite match_star_exact; [| assumption | assumption | assumption ].
  destruct (match_here rest k); reflexivity.
Qed.

Lemma refuses_space_triple (rest : list item) :
  refuses is_space (triple_re ++ rest).
Proof. apply refuses_once, space_not_paren_open. Qed.

Lemma refuses_space_texture :
  refuses is_space [Item non_space Plus true; Item any_char Star false].
Proof. apply refuses_plus, space_not_non_space. Qed.

(** The pattern does not match three well-formed triples with no
    texture token after them. *)
Lemma pattern_needs_texture (a b c : triple_text) :
  wf_triple a = true -> wf_triple b = true -> wf_triple c = true ->
  plane_match (render_triple a (render_triple b (render_triple c ""))) = None.
Proof.
  intros Ha Hb Hc. unfold plane_match, plane_re.
  rewrite match_triple_exact;
    [| assumption | reflexivity | apply refuses_space_triple ].
  rewrite match_triple_exact;
    [| assumption | reflexivity | apply refuses_space_triple ].
  rewrite match_triple_exact;
    [| assumption | reflexivity | apply refuses_space_texture ].
  reflexivity.
Qed.

(** The pattern does not match fewer than three well-formed triples
    followed by anything else than a further opening bracket. *)
Lemma pattern_needs_three_triples (a b : triple_text) (k : string) :
  wf_triple a = true -> wf_triple b = true ->
  starts_clear is_space k = true -> starts_clear (is_char "(") k = true ->
  plane_match k = None
  /\ plane_match (render_triple a k) = None
  /\ plane_match (render_triple a (render_triple b k)) = None.
Proof.
  intros Ha Hb Hs Hp.
  assert (Hk : forall rest, match_here (triple_re ++ rest) k = None).
  { intros rest. unfold triple_re. cbn [app]. now apply match_once_nothing. }
  unfold plane_match, plane_re. repeat split.
  - apply Hk.
  - rewrite match_triple_exact;
      [| assumption | assumption | apply refuses_space_triple ].
    now rewrite Hk.
  - rewrite match_triple_exact;
      [| assumption | reflexivity | apply refuses_space_triple ].
    rewrite match_triple_exact;
      [| assumption | assumption | apply refuses_space_triple ].
    now rewrite Hk.
Qed.

Lemma starts_clear_triple (t : triple_text) (k : string) :
  starts_clear is_space (render_triple t k) = true.
Proof. reflexivity. Qed.

(** On a well-formed plane line the pattern captures the nine tokens
    and the texture token, in the order written. *)
Lemma plane_match_render (p : plane_text) (r : string) :
  wf_plane p = true -> starts_blank r = true ->
  plane_match (render_core p r)
  = Some [n1 (t1 p); n2 (t1 p); n3 (t1 p);
          n1 (t2 p); n2 (t2 p); n3 (t2 p);
          n1 (t3 p); n2 (t3 p); n3 (t3 p); tex p].
Proof.
  intros Hwf Hr. unfold wf_plane in Hwf. split_andb.
  unfold plane_match, plane_re, render_core.
  rewrite match_triple_exact;
    [| assumption | apply starts_clear_triple | apply refuses_space_triple ].
  rewrite match_triple_exact;
    [| assumption | apply starts_clear_triple | apply refuses_space_triple ].
  rewrite match_triple_exact;
    [| assumption
     | eapply starts_clear_app_nonempty;
         eauto using non_space_not_space, nonempty_neq
     | apply refuses_space_texture ].
  rewrite (match_plus non_space true _ (tex p) r [] );
    auto using nonempty_neq, match_any_tail.
  destruct r as [|c r]; [reflexivity|]. simpl in Hr.
  unfold starts_clear, non_space. now rewrite Hr.
Qed.

Lemma render_triple_app (t : triple_text) (k1 k2 : string) :
  render_triple t (k1 ++ k2) = render_triple t k1 ++ k2.
Proof.
  unfold render_triple. cbn [append]. rewrite !append_assoc.
  cbn [append]. now rewrite !append_assoc.
Qed.

Lemma rstrip_app_keep (a b : string) :
  rstrip b <> "" -> rstrip (a ++ b) = a ++ rstrip b.
Proof.
  intros Hb. rewrite rstrip_app. destruct (rstrip b); congruence.
Qed.

Lemma rstrip_triple (t : triple_text) (k : string) :
  rstrip k <> "" -> rstrip (render_triple t k) = render_triple t (rstrip k).
Proof.
  intros Hk.
  change k with ("" ++ k) at 1. rewrite render_triple_app.
  rewrite rstrip_app_keep by exact Hk.
  now rewrite <- render_triple_app.
Qed.

Lemma rstrip_fixed_app (a b : string) :
  rstrip b = b /\ b <> "" -> rstrip (a ++ b) = a ++ b /\ a ++ b <> "".
Proof.
  intros [Hb Hne]. split.
  - rewrite rstrip_app_keep; rewrite Hb; auto.
  - destruct a; simpl; [exact Hne|discriminate].
Qed.

(** A rendered triple with nothing after its closing bracket ends in
    that bracket, and stripping leaves it alone. *)
Lemma rstrip_triple_end (t : triple_text) :
  gap t = "" -> rstrip (render_triple t "") = render_triple t "".
Proof.
  intros Hg. unfold render_triple. rewrite Hg. cbn [append].
  change (String "(" (lead t ++ n1 t ++ sep1 t ++ n2 t ++ sep2 t ++ n3 t
                        ++ trail t ++ ")"))
    with (String "(" (lead t) ++ n1 t ++ sep1 t ++ n2 t ++ sep2 t ++ n3 t
            ++ trail t ++ ")").
  refine (proj1 (_ : _ /\ _ <> "")).
  repeat apply rstrip_fixed_app. split; [reflexivity|discriminate].
Qed.

Lemma strip_render (p : plane_text) :
  wf_plane p = true ->
  strip (render p) = render_core p (rstrip (rest p))
  /\ starts_blank (rstrip (rest p)) = true.
Proof.
  intros Hwf. unfold wf_plane in Hwf. split_andb. split.
  - unfold strip, render. rewrite lstrip_blank_app by assumption.
    unfold render_core at 1. unfold render_triple at 1.
    rewrite lstrip_head by reflexivity.
    fold (render_triple (t1 p)
            (render_triple (t2 p) (render_triple (t3 p) (tex p ++ rest p)))).
    assert (Htex : rstrip (tex p ++ rest p) = tex p ++ rstrip (rest p)).
    { rewrite rstrip_app. destruct (rstrip (rest p)); [|reflexivity].
      rewrite append_nil_r. now apply rstrip_no_space. }
    assert (Hne : tex p ++ rstrip (rest p) <> "").
    { match goal with H : nonempty (tex p) = true |- _ =>
        apply nonempty_neq in H; destruct (tex p); [congruence|discriminate] end. }
    unfold render_core.
    assert (H3' : rstrip (render_triple (t3 p) (tex p ++ rest p))
                  = render_triple (t3 p) (tex p ++ rstrip (rest p))).
    { rewrite rstrip_triple; rewrite Htex; [reflexivity|exact Hne]. }
    assert (H2' : rstrip (render_triple (t2 p) (render_triple (t3 p) (tex p ++ rest p)))
                  = render_triple (t2 p)
                      (render_triple (t3 p) (tex p ++ rstrip (rest p)))).
    { rewrite rstrip_triple; rewrite H3'; [reflexivity|discriminate]. }
    rewrite rstrip_triple; rewrite H2'; [reflexivity|discriminate].
  - pose proof (rstrip_head (rest p)) as Hh.
    destruct (rstrip (rest p)) as [|c r]; [reflexivity|].
    destruct Hh as [s' Hs]. rewrite Hs in *. assumption.
Qed.

Lemma process_line_matched (st : parser_state) (line x : string)
    (m : list string) :
  in_entity_block st = true ->
  strip line = String "(" x ->
  plane_match (strip line) = Some m ->
  process_line st line =
    (x1 <- to_float (group m 1) ;;
     y1 <- to_float (group m 2) ;;
     z1 <- to_float (group m 3) ;;
     x2 <- to_float (group m 4) ;;
     y2 <- to_float (group m 5) ;;
     z2 <- to_float (group m 6) ;;
     x3 <- to_float (group m 7) ;;
     y3 <- to_float (group m 8) ;;
     z3 <- to_float (group m 9) ;;
     Ok (ParserState (brushes st)
           (current_brush_planes st ++
            [PlaneData ((x1, y1, z1), (x2, y2, z2), (x3, y3, z3))
                       (lower (group m 10))])
           (in_entity_block st)))%list.
Proof.
  intros Hin Hx Hm. unfold process_line. rewrite Hm, Hx. simpl.
  now rewrite Hin.
Qed.

Lemma to_float_number (t : string) :
  is_number t = true -> to_float t = Ok (value t).
Proof. intros H. unfold to_float. now rewrite (is_number_value _ H). Qed.

(** A well-formed plane line met inside an entity block adds exactly
    the record it stands for at the end of the accumulator. *)
Lemma process_line_plane (st : parser_state) (p : plane_text) :
  wf_plane p = true -> in_entity_block st = true ->
  process_line st (render p)
  = Ok (ParserState (brushes st) (current_brush_planes st ++ [plane_of p]) true).
Proof.
  intros Hwf Hin.
  destruct (strip_render p Hwf) as [Hs Hr].
  pose proof (plane_match_render p _ Hwf Hr) as Hm. rewrite <- Hs in Hm.
  rewrite (process_line_matched st _ _ _ Hin (eq_trans Hs eq_refl) Hm).
  unfold wf_plane, wf_triple in Hwf. split_andb.
  cbn [group nth Nat.sub].
  rewrite !to_float_number by assumption. cbn [bind].
  now rewrite Hin.
Qed.

Lemma process_line_inert (st : parser_state) (l : string) :
  inert l = true -> process_line st l = Ok st.
Proof.
  unfold inert, is_brace, no_plane, process_line. intros H.
  apply andb_prop in H as [Hb Hn]. apply negb_true_iff in Hb.
  apply orb_false_iff in Hb as [Ho Hc]. rewrite Ho, Hc.
  destruct (plane_match (strip l)); [discriminate|].
  destruct ((strip l =? "") || startswith "//" (strip l)); [reflexivity|].
  destruct (in_entity_block st); reflexivity.
Qed.

Lemma process_line_open (st : parser_state) (l : string) :
  strip l = "{" ->
  process_line st l = Ok (ParserState (brushes st) [] true).
Proof.
  intros H. unfold process_line. rewrite H. simpl.
  destruct (in_entity_block st) eqn:E; simpl; reflexivity.
Qed.

Lemma process_line_close (st : parser_state) (l : string) :
  strip l = "}" -> current_brush_planes st <> [] ->
  process_line st l
  = Ok (ParserState (brushes st ++ [current_brush_planes st]) []
                    (in_entity_block st)).
Proof.
  intros H Hne. unfold process_line. rewrite H. simpl.
  destruct (current_brush_planes st); [congruence|reflexivity].
Qed.

(** A line the pattern does not match, met with an empty accumulator,
    leaves the brushes alone and the accumulator empty. *)
Lemma process_line_no_plane (st : parser_state) (l : string) :
  no_plane l = true -> current_brush_planes st = [] ->
  exists st', process_line st l = Ok st'
              /\ brushes st' = brushes st /\ current_brush_planes st' = [].
Proof.
  unfold no_plane, process_line. intros Hn Hcur.
  destruct (plane_match (strip l)); [discriminate|].
  destruct ((strip l =? "") || startswith "//" (strip l)); [eauto|].
  destruct (strip l =? "{").
  { destruct (in_entity_block st); simpl; eauto. }
  destruct (strip l =? "}").
  { rewrite Hcur. destruct (in_entity_block st); simpl; eauto. }
  destruct (in_entity_block st); eauto.
Qed.

Lemma scan_lines_app (a b : list string) (st : parser_state) :
  scan_lines (a ++ b) st = (st' <- scan_lines a st ;; scan_lines b st').
Proof.
  revert st. induction a as [|l a IH]; intros st; simpl; [reflexivity|].
  destruct (process_line st l); simpl; auto.
Qed.

Lemma scan_no_plane (ls : list string) :
  forall st, forallb no_plane ls = true -> current_brush_planes st = [] ->
    exists st', scan_lines ls st = Ok st'
                /\ brushes st' = brushes st /\ current_brush_planes st' = [].
Proof.
  induction ls as [|l ls IH]; intros st Hall Hcur; simpl in *.
  - eauto.
  - apply andb_prop in Hall as [Hl Hls].
    destruct (process_line_no_plane st l Hl Hcur) as (st1 & -> & Hb & Hc).
    simpl. destruct (IH st1 Hls Hc) as (st2 & -> & Hb2 & Hc2).
    exists st2. repeat split; congruence.
Qed.

Lemma scan_body (body : list body_line) :
  forall st, forallb wf_body_line body = true -> in_entity_block st = true ->
    scan_lines (map line_of body) st
    = Ok (ParserState (brushes st)
            (current_brush_planes st ++ map plane_of (plane_texts body)) true).
Proof.
  induction body as [|b body IH]; intros st Hall Hin; simpl in *.
  - rewrite app_nil_r. destruct st; simpl in *. now subst.
  - apply andb_prop in Hall as [Hb Hbody]. destruct b as [p|l]; simpl in *.
    + rewrite (process_line_plane st p Hb Hin). simpl.
      rewrite IH by auto. simpl. now rewrite <- app_assoc.
    + rewrite (process_line_inert st l Hb). simpl. now apply IH.
Qed.

(** Stripping a line made of blanks and of a text that begins and ends
    with characters that are kept. *)
Lemma strip_indented (ind s : string) :
  blank ind = true -> starts_clear is_space s = true -> rstrip s = s ->
  strip (ind ++ s) = s.
Proof.
  intros Hind Hs Hr. unfold strip. rewrite lstrip_blank_app by exact Hind.
  destruct s as [|c s]; [reflexivity|].
  simpl in Hs. apply negb_true_iff in Hs.
  now rewrite lstrip_head.
Qed.

Lemma inert_of_stripped (l s : string) (x : string) :
  strip l = s -> s = String "(" x -> plane_match s = None -> inert l = true.
Proof.
  intros Hs Hx Hm. unfold inert, is_brace, no_plane.
  rewrite Hs, Hm. rewrite Hx. reflexivity.
Qed.

(** A line of three well-formed triples and nothing else is inert. *)
Lemma inert_without_texture (ind : string) (a b c : triple_text) :
  blank ind = true ->
  wf_triple a = true -> wf_triple b = true -> wf_triple c = true ->
  gap c = "" ->
  inert (ind ++ render_triple a (render_triple b (render_triple c ""))) = true.
Proof.
  intros Hind Ha Hb Hc Hg.
  assert (Hr : rstrip (render_triple a (render_triple b (render_triple c "")))
               = render_triple a (render_triple b (render_triple c ""))).
  { assert (Hb' : rstrip (render_triple b (render_triple c ""))
                  = render_triple b (render_triple c "")).
    { rewrite rstrip_triple; rewrite (rstrip_triple_end c Hg);
        [reflexivity|discriminate]. }
    rewrite rstrip_triple, Hb'; [reflexivity|]. rewrite Hb'. discriminate. }
  eapply (inert_of_stripped _
            (render_triple a (render_triple b (render_triple c "")))).
  - apply strip_indented; [exact Hind|reflexivity|exact Hr].
  - reflexivity.
  - now apply pattern_needs_texture.
Qed.

(** A line of one or two well-formed triples followed by something
    else than a further opening bracket is inert. *)
Lemma inert_with_fewer_triples (ind : string) (a b : triple_text) (k : string) :
  blank ind = true ->
  wf_triple a = true -> wf_triple b = true ->
  k <> "" -> rstrip k = k ->
  starts_clear is_space k = true -> starts_clear (is_char "(") k = true ->
  inert (ind ++ render_triple a k) = true
  /\ inert (ind ++ render_triple a (render_triple b k)) = true.
Proof.
  intros Hind Ha Hb Hne Hr Hs Hp.
  destruct (pattern_needs_three_triples a b k Ha Hb Hs Hp) as (_ & H1 & H2).
  assert (Hk : rstrip k <> "") by now rewrite Hr.
  split.
  - eapply (inert_of_stripped _ (render_triple a k)); [|reflexivity|exact H1].
    apply strip_indented; [exact Hind|reflexivity|].
    now rewrite rstrip_triple, Hr.
  - eapply (inert_of_stripped _ (render_triple a (render_triple b k)));
      [|reflexivity|exact H2].
    apply strip_indented; [exact Hind|reflexivity|].
    assert (Hb' : rstrip (render_triple b k) = render_triple b k)
      by (rewrite rstrip_triple, Hr; [reflexivity|exact Hk]).
    rewrite rstrip_triple, Hb'; [reflexivity|]. rewrite Hb'. discriminate.
Qed.

(** A line that does not begin with an opening bracket, and is not a
    brace, is inert. *)
Lemma inert_without_bracket (l : string) :
  is_brace l = false -> starts_clear (is_char "(") (strip l) = true ->
  inert l = true.
Proof.
  intros Hb Hp. unfold inert, no_plane. rewrite Hb.
  unfold plane_match, plane_re, triple_re. cbn [app].
  now rewrite match_once_nothing.
Qed.

End ParserFacts.

(* ================================================================== *)
(** ** Facts about the generator *)

Section GeneratorFacts.
Import Text Generator Layout.

Lemma fold_emit_side (planes : brush) :
  forall st,
    fold_left emit_side planes st
    = GenState (vmf_lines st ++ sides_from (current_id st) planes)
               (current_id st + N.of_nat (List.length planes)).
Proof.
  induction planes as [|pd planes IH]; intros st.
  - simpl. rewrite app_nil_r, N.add_0_r. now destruct st.
  - cbn [fold_left sides_from List.length]. rewrite IH.
    unfold emit_side, next_id, append_lines. cbn [vmf_lines current_id].
    rewrite <- app_assoc. f_equal. lia.
Qed.

Lemma fold_emit_solid (map_data : list brush) :
  forall st,
    fold_left emit_solid map_data st
    = GenState (vmf_lines st ++ solids_from (current_id st) map_data)
               (current_id st + drawn map_data).
Proof.
  induction map_data as [|b map_data IH]; intros st.
  - simpl. rewrite app_nil_r, N.add_0_r. now destruct st.
  - cbn [fold_left solids_from drawn]. rewrite IH.
    unfold emit_solid. rewrite fold_emit_side.
    unfold next_id, append_lines. cbn [vmf_lines current_id].
    rewrite <- !app_assoc. f_equal. now rewrite <- !N.add_assoc.
Qed.

(** The document in closed form. *)
Lemma document_lines_closed (map_data : list brush) :
  document_lines map_data
  = (header_lines ++ world_open_lines ++ solids_from 2 map_data
       ++ world_close_lines ++ entity_open_lines (2 + drawn map_data)
       ++ entity_close_lines ++ hidden_lines)%list.
Proof.
  unfold document_lines, run. rewrite fold_emit_solid.
  unfold next_id, append_lines. cbn [vmf_lines current_id].
  now rewrite <- !app_assoc.
Qed.

Lemma final_counter (map_data : list brush) :
  current_id (run map_data) = (2 + drawn map_data + 1)%N.
Proof.
  unfold run. rewrite fold_emit_solid. reflexivity.
Qed.

Lemma drawn_allocations (map_data : list brush) :
  N.of_nat (List.length (allocations map_data)) = (drawn map_data + 1)%N.
Proof.
  unfold allocations. rewrite length_app. cbn [List.length].
  assert (H : N.of_nat (List.length
                (flat_map (fun b : brush => Solid :: map (fun _ => Side) b) map_data))
              = drawn map_data).
  { induction map_data as [|b r IH]; [reflexivity|].
    cbn [flat_map drawn]. rewrite length_app. cbn [List.length].
    rewrite length_map. lia. }
  lia.
Qed.

Lemma numbered_app (a b : list block) :
  forall start,
    numbered start (a ++ b)
    = (numbered start a ++ numbered (start + N.of_nat (List.length a)) b)%list.
Proof.
  induction a as [|x a IH]; intros start; simpl.
  - now rewrite N.add_0_r.
  - rewrite IH. do 3 f_equal. lia.
Qed.

Lemma id_lines_of_sides (planes : brush) :
  forall id,
    filter (has_key "id") (sides_from id planes)
    = map id_line (numbered id (map (fun _ => Side) planes)).
Proof.
  induction planes as [|pd planes IH]; intros id; [reflexivity|].
  cbn [sides_from map numbered]. rewrite filter_app, IH.
  destruct pd as [[[p1 p2] p3] tx]. reflexivity.
Qed.

Lemma id_lines_of_solids (map_data : list brush) :
  forall id,
    filter (has_key "id") (solids_from id map_data)
    = map id_line
        (numbered id
           (flat_map (fun b : brush => Solid :: map (fun _ => Side) b) map_data)).
Proof.
  induction map_data as [|b r IH]; intros id; [reflexivity|].
  cbn [solids_from flat_map]. rewrite !filter_app, IH, id_lines_of_sides.
  change (Solid :: map (fun _ => Side) b ++ _)%list
    with ((Solid :: map (fun _ : plane_data => Side) b) ++
          flat_map (fun b : brush => Solid :: map (fun _ => Side) b) r)%list.
  rewrite numbered_app, map_app. cbn [numbered map List.length].
  rewrite length_map.
  replace (id + N.of_nat (S (List.length b)))%N
    with (id + 1 + N.of_nat (List.length b))%N by lia.
  reflexivity.
Qed.

Lemma numbered_snd_lt (bs : list block) :
  forall start n, In n (map snd (numbered start bs)) -> (start <= n)%N.
Proof.
  induction bs as [|b bs IH]; intros start n; simpl; [tauto|].
  intros [<-|H]; [lia|]. apply IH in H. lia.
Qed.

Lemma numbered_nodup (bs : list block) :
  forall start, NoDup (map snd (numbered start bs)).
Proof.
  induction bs as [|b bs IH]; intros start; simpl; constructor; auto.
  intros H. apply numbered_snd_lt in H. lia.
Qed.

(** The lines with a key that only the inner loop writes. *)
Lemma side_key_lines (k : string) (f : plane_data -> string) :
  (forall id pd, filter (has_key k) (side_lines id pd) = [f pd]) ->
  (forall id, filter (has_key k) (solid_open_lines id) = []) ->
  (forall id, filter (has_key k) (entity_open_lines id) = []) ->
  filter (has_key k)
    (header_lines ++ world_open_lines ++ solid_close_lines
       ++ world_close_lines ++ entity_close_lines ++ hidden_lines) = [] ->
  forall map_data,
    filter (has_key k) (document_lines map_data) = map f (List.concat map_data).
Proof.
  intros Hside Hopen Hentity Hfixed map_data.
  rewrite !filter_app in Hfixed.
  repeat match type of Hfixed with
         | (_ ++ _)%list = [] => apply app_eq_nil in Hfixed; destruct Hfixed as [? Hfixed]
         end.
  assert (Hsides : forall planes id,
             filter (has_key k) (sides_from id planes) = map f planes).
  { induction planes as [|pd planes IH]; intros id; [reflexivity|].
    cbn [sides_from map]. now rewrite filter_app, Hside, IH. }
  assert (Hsolids : forall md id,
             filter (has_key k) (solids_from id md) = map f (List.concat md)).
  { induction md as [|b md IH]; intros id; [reflexivity|].
    cbn [solids_from List.concat]. rewrite !filter_app, Hopen, Hsides, IH, map_app.
    match goal with H : filter _ solid_close_lines = [] |- _ => rewrite H end.
    reflexivity. }
  rewrite document_lines_closed, !filter_app, Hsolids, Hentity.
  repeat match goal with H : filter _ _ = [] |- _ => rewrite H; clear H end.
  cbn [app]. now rewrite app_nil_r.
Qed.

Lemma plane_lines_of_document (map_data : list brush) :
  filter (has_key "plane") (document_lines map_data)
  = map plane_line (List.concat map_data).
Proof.
  apply side_key_lines; try reflexivity.
  intros id [[[[[x1 y1] z1] [[x2 y2] z2]] [[x3 y3] z3]] tx]. reflexivity.
Qed.

Lemma material_lines_of_document (map_data : list brush) :
  filter (has_key "material") (document_lines map_data)
  = map material_line (List.concat map_data).
Proof.
  apply side_key_lines; try reflexivity.
  intros id [[[p1 p2] p3] tx]. reflexivity.
Qed.

Lemma dec_inj (n m : N) : dec n = dec m -> n = m.
Proof.
  unfold dec. intros H.
  apply DecimalN.Unsigned.to_uint_inj.
  assert (Hn : forall k, N.to_uint k <> Decimal.Nil).
  { intros [|p]; [discriminate|]. simpl.
    apply DecimalPos.Unsigned.to_uint_nonnil. }
  pose proof (NilZero.usu (N.to_uint n) (Hn n)) as E1.
  pose proof (NilZero.usu (N.to_uint m) (Hn m)) as E2.
  rewrite H in E1. congruence.
Qed.

Lemma nodup_dec (ns : list N) : NoDup ns -> NoDup (map dec ns).
Proof.
  induction 1 as [|n ns Hn Hns IH]; simpl; constructor; [|exact IH].
  intros H. apply in_map_iff in H as (m & Hm & Hin).
  apply dec_inj in Hm. now subst.
Qed.

Lemma dec_digits (n : N) :
  all_chars is_digit (dec n) = true /\ dec n <> "".
Proof.
  unfold dec, NilZero.string_of_uint.
  assert (H : forall d, all_chars is_digit (NilEmpty.string_of_uint d) = true)
    by (induction d; simpl; auto).
  destruct (N.to_uint n) eqn:E;
    (split; [first [reflexivity | apply H] | simpl; discriminate]).
Qed.

(** Six digits, and digits only. *)
Lemma fixed_digits_shape (width : nat) :
  forall r, String.length (Float64.fixed_digits width r) = width
            /\ all_chars is_digit (Float64.fixed_digits width r) = true.
Proof.
  assert (Hlen : forall a b : string,
             String.length (a ++ b) = (String.length a + String.length b)%nat).
  { induction a as [|c a IH]; intros b; simpl; [reflexivity|]. now rewrite IH. }
  assert (Hdigit : forall d, (d < 10)%N -> is_digit (Float64.digit_char d) = true).
  { intros d Hd.
    destruct d as [|p]; [reflexivity|].
    do 4 (destruct p as [p|p|]; try reflexivity; try (exfalso; lia)). }
  induction width as [|w IH]; intros r; [split; reflexivity|].
  cbn [Float64.fixed_digits]. destruct (IH (r / 10)%N) as [Hl Hd]. split.
  - rewrite Hlen, Hl. simpl. lia.
  - rewrite all_chars_app, Hd. cbn [all_chars andb].
    rewrite Hdigit; [reflexivity|]. apply N.mod_lt. discriminate.
Qed.

End GeneratorFacts.

(* ================================================================== *)
(** ** The parser on one brush block *)

Section BrushBlock.
Import Text Parser Syntax Samples.

(** For [pre ++ o :: body ++ c :: post], where [o] and [c] are the
    braces of a brush block, [body] holds well-formed plane lines and
    lines that are neither planes nor braces, and no line outside the
    block is matched by the pattern: the returned value. *)
Lemma parse_brush_block (map_filepath : string)
    (pre post : list string) (o c : string) (body : list body_line) :
  forallb no_plane pre = true ->
  strip o = "{" ->
  forallb wf_body_line body = true ->
  strip c = "}" ->
  forallb no_plane post = true ->
  snd (parse_quake_map map_filepath
         (Readable (pre ++ o :: map line_of body ++ c :: post) None))
  = match plane_texts body with
    | [] => []
    | _ :: _ => [map plane_of (plane_texts body)]
    end.
Proof.
  intros Hpre Ho Hbody Hc Hpost.
  unfold parse_quake_map, try_body.
  destruct (scan_no_plane pre init_state Hpre eq_refl) as (s1 & E1 & B1 & C1).
  rewrite scan_lines_app, E1. cbn [bind scan_lines].
  rewrite (process_line_open s1 o Ho). cbn [bind].
  rewrite scan_lines_app, scan_body by auto. cbn [bind scan_lines brushes
    current_brush_planes in_entity_block app].
  rewrite B1. cbn [brushes init_state app].
  destruct (plane_texts body) as [|p ps] eqn:Hp.
  - cbn [map]. unfold process_line at 1. rewrite Hc. cbn.
    match goal with
    | |- context [scan_lines post ?st] =>
        destruct (scan_no_plane post st Hpost eq_refl) as (s2 & E2 & B2 & C2)
    end.
    rewrite E2. cbn. unfold flush. rewrite C2, B2. reflexivity.
  - rewrite process_line_close by (auto; discriminate).
    cbn [bind brushes current_brush_planes in_entity_block app].
    match goal with
    | |- context [scan_lines post ?st] =>
        destruct (scan_no_plane post st Hpost eq_refl) as (s2 & E2 & B2 & C2)
    end.
    rewrite E2. cbn. unfold flush. rewrite C2, B2. reflexivity.
Qed.

(** C1 (as amended): for every input in which N syntactically
    well-formed plane lines, N being at least one, are grouped inside
    one brush block, and which holds no other line that the plane
    pattern matches, parse_quake_map returns exactly one brush; it
    holds exactly N planes, in file order, and each plane holds its
    three triples in the order written, the coordinates being the
    numbers the tokens denote.  The block may hold lines that are
    neither planes nor braces, and any such lines and braces may stand
    before and after it. *)
Theorem single_brush_block (map_filepath : string)
    (pre post : list string) (o c : string) (body : list body_line) :
  forallb no_plane pre = true ->
  strip o = "{" ->
  forallb wf_body_line body = true ->
  plane_texts body <> [] ->
  strip c = "}" ->
  forallb no_plane post = true ->
  snd (parse_quake_map map_filepath
         (Readable (pre ++ o :: map line_of body ++ c :: post) None))
  = [map plane_of (plane_texts body)]
  /\ List.length (map plane_of (plane_texts body))
     = List.length (plane_texts body).
Proof.
  intros Hpre Ho Hbody Hne Hc Hpost. split; [|apply length_map].
  rewrite parse_brush_block by assumption.
  destruct (plane_texts body); [congruence|reflexivity].
Qed.

Lemma single_brush_block_witness :
  snd (parse_quake_map "sample_map.map"
         (Readable (["// My Sample Quake Map"; "{"; classname_line]
                    ++ "    {"
                    :: map line_of [PlaneLine sample_plane;
                                    OtherLine "";
                                    PlaneLine sample_plane_2]
                    ++ "    }" :: ["}"]) None))
  = [map plane_of [sample_plane; sample_plane_2]]
  /\ List.length (map plane_of [sample_plane; sample_plane_2]) = 2%nat.
Proof.
  apply (single_brush_block "sample_map.map"
           ["// My Sample Quake Map"; "{"; classname_line] ["}"]
           "    {" "    }"
           [PlaneLine sample_plane; OtherLine ""; PlaneLine sample_plane_2]).
  - vm_compute; reflexivity.
  - vm_compute; reflexivity.
  - vm_compute; reflexivity.
  - discriminate.
  - vm_compute; reflexivity.
  - vm_compute; reflexivity.
Defined.

(** C1 as stated fails for a block that holds, beside one well-formed
    plane line, a line that is no well-formed plane line and that the
    pattern matches all the same, one of its tokens being no number:
    no brush is returned, not one brush with one plane. *)
Lemma malformed_line_in_block_loses_brush :
  wf_plane sample_plane = true
  /\ (forall p, wf_plane p = true -> render p <> dotted_line)
  /\ snd (parse_quake_map "m.map"
           (Readable ["{"; "{"; render sample_plane; dotted_line; "}"; "}"] None))
     = []
  /\ snd (parse_quake_map "m.map"
           (Readable ["{"; "{"; render sample_plane; dotted_line; "}"; "}"] None))
     <> [map plane_of [sample_plane]].
Proof.
  split; [vm_compute; reflexivity|]. split.
  - intros p Hp Heq.
    destruct (strip_render p Hp) as [Hs Hb].
    pose proof (plane_match_render p (rstrip (rest p)) Hp Hb) as Hm.
    rewrite <- Hs, Heq in Hm.
    assert (E : plane_match (strip dotted_line)
                = Some ["1.2.3"; "0"; "0"; "1"; "0"; "0"; "0"; "1"; "0"; "wall"])
      by (vm_compute; reflexivity).
    rewrite E in Hm. injection Hm as Hn _.
    unfold wf_plane, wf_triple in Hp.
    repeat match goal with
           | H : _ && _ = true |- _ => apply andb_prop in H; destruct H
           end.
    match goal with
    | H : is_number (n1 (t1 p)) = true |- _ => rewrite <- Hn in H; vm_compute in H;
                                               discriminate H
    end.
  - split; vm_compute; [reflexivity|discriminate].
Qed.

(** A brush block without plane lines yields no brush, in keeping with
    the invariant that no brush is empty. *)
Lemma empty_block_gives_no_brush :
  snd (parse_quake_map "empty.map"
         (Readable (["{"] ++ "{" :: map line_of [] ++ "}" :: ["}"]) None))
  = [].
Proof. vm_compute. reflexivity. Qed.

End BrushBlock.

(* ================================================================== *)
(** ** Skipped lines, exceptions, end of input *)

Section Leniency.
Import Text Re Parser Syntax Samples.

Lemma scan_skips_inert (pre post : list string) (l : string) (st : parser_state) :
  inert l = true ->
  scan_lines (pre ++ l :: post) st = scan_lines (pre ++ post) st.
Proof.
  intros Hl. rewrite !scan_lines_app.
  destruct (scan_lines pre st) as [s1|e]; cbn [bind scan_lines]; [|reflexivity].
  now rewrite (process_line_inert s1 l Hl).
Qed.

Lemma parse_depends_on_scan (map_filepath : string) (a b : list string)
    (failure : option string) :
  scan_lines a init_state = scan_lines b init_state ->
  parse_quake_map map_filepath (Readable a failure)
  = parse_quake_map map_filepath (Readable b failure).
Proof.
  intros H. unfold parse_quake_map, try_body. now rewrite H.
Qed.

Lemma to_float_error (t : string) :
  is_number t = false ->
  to_float t = Raise (Exception ("could not convert string to float: '" ++ t ++ "'")).
Proof.
  unfold is_number, to_float. destruct (Float64.of_string t); [discriminate|reflexivity].
Qed.

(** Inside an entity block, a line the pattern matches with a token
    that is not a number makes the iteration raise. *)
Lemma process_line_bad_number (st : parser_state) (l : string) :
  in_entity_block st = true -> bad_number_line l = true ->
  exists t, is_number t = false
            /\ process_line st l
               = Raise (Exception ("could not convert string to float: '" ++ t ++ "'")).
Proof.
  unfold bad_number_line, is_brace, process_line. intros Hin H.
  apply andb_prop in H as [H Hm]. apply andb_prop in H as [H Hb].
  apply andb_prop in H as [He Hc].
  apply negb_true_iff in He, Hc, Hb. apply orb_false_iff in Hb as [Ho Hcl].
  rewrite He, Hc, Ho, Hcl, Hin. cbn [orb].
  destruct (plane_match (strip l)) as [m|]; [|discriminate].
  apply negb_true_iff in Hm. cbn [forallb] in Hm.
  repeat match goal with
         | |- context [to_float ?t] =>
             destruct (is_number t) eqn:?;
             [ rewrite (to_float_number t) by assumption; cbn [bind]
             | exists t; split; [assumption|];
               rewrite (to_float_error t) by assumption; reflexivity ]
         end.
  repeat match goal with
         | E : is_number _ = true |- _ => rewrite E in Hm; clear E
         end.
  discriminate Hm.
Qed.

Lemma scan_raises (pre post : list string) (l : string)
    (st0 st : parser_state) (e : exn) :
  scan_lines pre st0 = Ok st -> process_line st l = Raise e ->
  scan_lines (pre ++ l :: post) st0 = Raise e.
Proof.
  intros Hpre Hl. rewrite scan_lines_app, Hpre. cbn [bind scan_lines].
  now rewrite Hl.
Qed.

Lemma to_float_raises (t : string) (e : exn) :
  to_float t = Raise e -> exists msg, e = Exception msg.
Proof.
  unfold to_float. destruct (Float64.of_string t); [discriminate|].
  intros H. inversion H. eauto.
Qed.

(** The only exception an iteration raises is the one of [float]. *)
Lemma process_line_raises (st : parser_state) (l : string) (e : exn) :
  process_line st l = Raise e -> exists msg, e = Exception msg.
Proof.
  unfold process_line.
  destruct ((strip l =? "") || startswith "//" (strip l)); [discriminate|].
  destruct (strip l =? "{").
  { destruct (negb (in_entity_block st)); discriminate. }
  destruct (strip l =? "}").
  { destruct (current_brush_planes st); [destruct (in_entity_block st)|]; discriminate. }
  destruct (in_entity_block st); [|discriminate].
  destruct (plane_match (strip l)) as [m|]; [|discriminate].
  repeat match goal with
         | |- context [to_float ?t] =>
             let E := fresh "E" in
             destruct (to_float t) eqn:E;
             [ cbn [bind]
             | cbn [bind]; intros H; inversion H; subst;
               eapply to_float_raises; eassumption ]
         end.
  discriminate.
Qed.

Lemma scan_lines_raises (lines : list string) :
  forall st e, scan_lines lines st = Raise e -> exists msg, e = Exception msg.
Proof.
  induction lines as [|l lines IH]; intros st e; simpl; [discriminate|].
  destruct (process_line st l) as [st'|e'] eqn:E; cbn [bind].
  - apply IH.
  - intros H. inversion H; subst. eapply process_line_raises; eassumption.
Qed.

Lemma process_line_outside (st : parser_state) (l : string) :
  in_entity_block st = false -> is_brace l = false ->
  process_line st l = Ok st.
Proof.
  unfold is_brace, process_line. intros Hin Hb.
  apply orb_false_iff in Hb as [Ho Hc]. rewrite Ho, Hc, Hin.
  destruct ((strip l =? "") || startswith "//" (strip l)); reflexivity.
Qed.

(** A line met inside an entity block that the pattern matches although
    one of its coordinate tokens is not a number ends the parse: the
    value returned is empty and an error is printed. *)
Lemma bad_number_ends_parse (map_filepath : string)
    (pre post : list string) (l : string) (failure : option string)
    (st : parser_state) :
  scan_lines pre init_state = Ok st ->
  in_entity_block st = true ->
  bad_number_line l = true ->
  snd (parse_quake_map map_filepath (Readable (pre ++ l :: post) failure)) = []
  /\ reports_error
       (fst (parse_quake_map map_filepath (Readable (pre ++ l :: post) failure)))
     = true.
Proof.
  intros Hpre Hin Hbad.
  destruct (process_line_bad_number st l Hin Hbad) as (t & _ & Hr).
  unfold parse_quake_map, try_body.
  rewrite (scan_raises pre post l init_state st _ Hpre Hr).
  split; reflexivity.
Qed.

(** C4 as stated fails for a line that cannot be parsed because one of
    its coordinate tokens is not a number: met inside an entity block it
    is not skipped, since with it the brush of the line before it is
    lost. *)
Lemma unparsable_number_not_skipped :
  snd (parse_quake_map "m.map"
         (Readable (["{"; "{"; wall_line] ++ dotted_line :: ["}"; "}"]) None))
  <> snd (parse_quake_map "m.map"
         (Readable (["{"; "{"; wall_line] ++ ["}"; "}"]) None)).
Proof. vm_compute. discriminate. Qed.

(** C4 (as amended): parse_quake_map returns a value for every file and
    every content.  A line that is neither a brace nor matched by the
    plane pattern is skipped: what is printed and returned is the same
    with and without it; so is every line other than a brace that is
    met while no entity block is open, whatever it holds.  A line met
    inside an entity block that the pattern matches although one of its
    coordinate tokens is not a number is not skipped: the value
    returned is the empty sequence and an error is printed.  When the
    file is missing or reading it fails, the value returned is the
    empty sequence and a line starting with [ERROR] is printed; such a
    line is printed exactly when the body of the function raised, so
    that the printed output tells an error from a file without brushes,
    while the value returned is the same for both. *)
Theorem parse_is_lenient (map_filepath : string) :
  (forall pre l post failure,
      inert l = true ->
      parse_quake_map map_filepath (Readable (pre ++ l :: post) failure)
      = parse_quake_map map_filepath (Readable (pre ++ post) failure))
  /\ (forall pre l post failure st,
        scan_lines pre init_state = Ok st ->
        in_entity_block st = false ->
        is_brace l = false ->
        parse_quake_map map_filepath (Readable (pre ++ l :: post) failure)
        = parse_quake_map map_filepath (Readable (pre ++ post) failure))
  /\ (forall pre l post failure st,
        scan_lines pre init_state = Ok st ->
        in_entity_block st = true ->
        bad_number_line l = true ->
        snd (parse_quake_map map_filepath (Readable (pre ++ l :: post) failure))
        = []
        /\ reports_error
             (fst (parse_quake_map map_filepath
                     (Readable (pre ++ l :: post) failure)))
           = true)
  /\ parse_quake_map map_filepath Missing
     = ([not_found_message map_filepath], [])
  /\ (forall msg,
        parse_quake_map map_filepath (Unopenable msg)
        = ([error_message map_filepath msg], []))
  /\ (forall lines msg,
        exists e,
          parse_quake_map map_filepath (Readable lines (Some msg))
          = (["  Attempting to parse map file: " ++ map_filepath;
              error_message map_filepath e], []))
  /\ (forall f,
        reports_error (fst (parse_quake_map map_filepath f))
        = match snd (try_body map_filepath f) with
          | Raise _ => true
          | Ok _ => false
          end)
  /\ snd (parse_quake_map map_filepath Missing)
     = snd (parse_quake_map map_filepath (Readable [] None)).
Proof.
  split; [|split; [|split; [|split; [|split; [|split; [|split]]]]]];
    try reflexivity.
  - intros pre l post failure Hl. apply parse_depends_on_scan.
    now apply scan_skips_inert.
  - intros pre l post failure st Hpre Hin Hl. apply parse_depends_on_scan.
    rewrite !scan_lines_app, Hpre. cbn [bind scan_lines].
    now rewrite (process_line_outside st l Hin Hl).
  - intros pre l post failure st. apply bad_number_ends_parse.
  - intros lines msg. unfold parse_quake_map, try_body.
    destruct (scan_lines lines init_state) as [st|e] eqn:E.
    + exists msg. reflexivity.
    + destruct (scan_lines_raises _ _ _ E) as [m ->]. exists m. reflexivity.
  - intros [|msg|lines failure]; try reflexivity.
    unfold parse_quake_map, try_body.
    destruct (scan_lines lines init_state) as [st|[|e]];
      [destruct failure| |]; reflexivity.
Qed.

Lemma parse_is_lenient_witness :
  parse_quake_map "m.map"
    (Readable (["{"; classname_line; "{"; wall_line]
               ++ short_line :: [floor_line; "}"; "}"]) None)
  = parse_quake_map "m.map"
      (Readable (["{"; classname_line; "{"; wall_line]
                 ++ [floor_line; "}"; "}"]) None).
Proof.
  apply (proj1 (parse_is_lenient "m.map")). vm_compute; reflexivity.
Defined.

(** C5 as stated fails for a line whose first bracketed triple is not
    valid because one token in it is not a number: with the line, the
    planes of the other lines of the brush are lost. *)
Lemma invalid_triple_loses_other_planes :
  Float64.of_string "1.2.3" = None
  /\ snd (parse_quake_map "m.map"
           (Readable ["{"; "{"; wall_line; dotted_line; floor_line; "}"; "}"] None))
     = []
  /\ snd (parse_quake_map "m.map"
           (Readable ["{"; "{"; wall_line; floor_line; "}"; "}"] None))
     = [[PlaneData ((value "0", value "0", value "0"),
                    (value "1", value "0", value "0"),
                    (value "0", value "1", value "0")) "wall";
         PlaneData ((value "0", value "0", value "8"),
                    (value "0", value "1", value "8"),
                    (value "1", value "0", value "8")) "floor"]]
  /\ snd (parse_quake_map "m.map"
           (Readable ["{"; "{"; wall_line; dotted_line; floor_line; "}"; "}"] None))
     <> snd (parse_quake_map "m.map"
               (Readable ["{"; "{"; wall_line; floor_line; "}"; "}"] None)).
Proof.
  split; [|split; [|split]]; vm_compute; try reflexivity. discriminate.
Qed.

(** C5 (as amended): a line in a brush block that the plane pattern
    does not match contributes no plane and leaves the accumulator as it
    was: a well-formed line after it is accumulated as without it, and
    the scan of a file is the same with and without the line.  Such are
    the lines with fewer than three bracketed triples (none, one or two
    well-formed triples followed by something else than an opening
    bracket) and the lines of three well-formed triples without a
    texture token.  A line that the pattern matches although a token in
    one of the triples is not a number is not covered: inside a block
    it ends the parse, and the value returned is empty. *)
Theorem unmatched_line_contributes_nothing :
  (forall st l,
      inert l = true ->
      process_line st l = Ok st
      /\ (forall p, wf_plane p = true -> in_entity_block st = true ->
            scan_lines [l; render p] st
            = Ok (ParserState (brushes st)
                              (current_brush_planes st ++ [plane_of p]) true))
      /\ (forall pre post st0,
            scan_lines (pre ++ l :: post) st0 = scan_lines (pre ++ post) st0))
  /\ (forall l,
        is_brace l = false -> starts_clear (is_char "(") (strip l) = true ->
        inert l = true)
  /\ (forall ind a b k,
        blank ind = true -> wf_triple a = true -> wf_triple b = true ->
        k <> "" -> rstrip k = k ->
        starts_clear is_space k = true -> starts_clear (is_char "(") k = true ->
        inert (ind ++ render_triple a k) = true
        /\ inert (ind ++ render_triple a (render_triple b k)) = true)
  /\ (forall ind a b c,
        blank ind = true ->
        wf_triple a = true -> wf_triple b = true -> wf_triple c = true ->
        gap c = "" ->
        inert (ind ++ render_triple a (render_triple b (render_triple c "")))
        = true)
  /\ inert short_line = true
  /\ inert bare_line = true
  /\ (forall map_filepath pre l post failure st,
        scan_lines pre init_state = Ok st ->
        in_entity_block st = true ->
        bad_number_line l = true ->
        snd (parse_quake_map map_filepath (Readable (pre ++ l :: post) failure))
        = []).
Proof.
  split; [|split; [|split; [|split; [|split; [|split]]]]].
  - intros st l Hl. split; [|split].
    + now apply process_line_inert.
    + intros p Hp Hin. cbn [scan_lines].
      rewrite (process_line_inert st l Hl). cbn [bind].
      rewrite (process_line_plane st p Hp Hin). reflexivity.
    + intros pre post st0. now apply scan_skips_inert.
  - exact inert_without_bracket.
  - exact inert_with_fewer_triples.
  - exact inert_without_texture.
  - vm_compute; reflexivity.
  - vm_compute; reflexivity.
  - intros map_filepath pre l post failure st Hpre Hin Hbad.
    exact (proj1 (bad_number_ends_parse map_filepath pre post l failure st
                    Hpre Hin Hbad)).
Qed.

Lemma unmatched_line_contributes_nothing_witness :
  process_line (ParserState [] [plane_of sample_plane] true) short_line
  = Ok (ParserState [] [plane_of sample_plane] true).
Proof.
  apply (proj1 unmatched_line_contributes_nothing
           (ParserState [] [plane_of sample_plane] true) short_line).
  vm_compute; reflexivity.
Defined.

(** C6: when an exception is raised while the file is scanned, as when
    a line matches the pattern although one of its coordinate tokens is
    not a number and float raises, parse_quake_map returns the empty
    sequence, whatever brushes and planes were accumulated before the
    failing line; the value returned is either empty or what a complete
    scan of the file yields. *)
Theorem exception_discards_everything (map_filepath : string) :
  (forall f out e,
      try_body map_filepath f = (out, Raise e) ->
      snd (parse_quake_map map_filepath f) = [])
  /\ (forall pre l post failure st,
        scan_lines pre init_state = Ok st ->
        in_entity_block st = true ->
        bad_number_line l = true ->
        exists t,
          is_number t = false
          /\ parse_quake_map map_filepath (Readable (pre ++ l :: post) failure)
             = (["  Attempting to parse map file: " ++ map_filepath;
                 error_message map_filepath
                   ("could not convert string to float: '" ++ t ++ "'")], []))
  /\ (forall f,
        snd (parse_quake_map map_filepath f) = []
        \/ exists lines st,
             f = Readable lines None
             /\ scan_lines lines init_state = Ok st
             /\ snd (parse_quake_map map_filepath f) = flush st).
Proof.
  split; [|split].
  - intros f out e H. unfold parse_quake_map. rewrite H.
    destruct e; reflexivity.
  - intros pre l post failure st Hpre Hin Hbad.
    destruct (process_line_bad_number st l Hin Hbad) as (t & Ht & Hr).
    exists t. split; [exact Ht|].
    unfold parse_quake_map, try_body.
    now rewrite (scan_raises pre post l init_state st _ Hpre Hr).
  - intros [|msg|lines [msg|]]; try (left; reflexivity).
    + left. unfold parse_quake_map, try_body.
      destruct (scan_lines lines init_state) as [st|[|e]]; reflexivity.
    + unfold parse_quake_map, try_body.
      destruct (scan_lines lines init_state) as [st|[|e]] eqn:E;
        try (left; reflexivity).
      right. exists lines, st. auto.
Qed.

Lemma exception_discards_everything_witness :
  brushes (ParserState [[plane_of sample_plane]] [plane_of sample_plane_2] true)
  <> []
  /\ exists t,
       is_number t = false
       /\ parse_quake_map "m.map"
            (Readable (["{"; "{"; render sample_plane; "}"; "{";
                        render sample_plane_2]
                       ++ dash_line :: ["}"; "}"]) None)
          = (["  Attempting to parse map file: " ++ "m.map";
              error_message "m.map"
                ("could not convert string to float: '" ++ t ++ "'")], []).
Proof.
  split; [discriminate|].
  apply (proj1 (proj2 (exception_discards_everything "m.map"))
           ["{"; "{"; render sample_plane; "}"; "{"; render sample_plane_2]
           dash_line ["}"; "}"] None
           (ParserState [[plane_of sample_plane]] [plane_of sample_plane_2] true)).
  - vm_compute; reflexivity.
  - reflexivity.
  - vm_compute; reflexivity.
Defined.

(** C7: when the input ends while the accumulator is not empty, the
    file being cut before the closing brace of its last brush block,
    parse_quake_map still appends the accumulated planes as one last
    brush, which holds exactly the planes collected up to there. *)
Theorem truncated_input_is_flushed (map_filepath : string)
    (lines : list string) (st : parser_state) :
  scan_lines lines init_state = Ok st ->
  current_brush_planes st <> [] ->
  snd (parse_quake_map map_filepath (Readable lines None))
  = (brushes st ++ [current_brush_planes st])%list.
Proof.
  intros Hscan Hne. unfold parse_quake_map, try_body. rewrite Hscan.
  cbn [snd]. unfold flush. destruct (current_brush_planes st); [congruence|reflexivity].
Qed.

Lemma truncated_input_is_flushed_witness :
  snd (parse_quake_map "cut.map"
         (Readable ["{"; "{"; render sample_plane; "}"; "{";
                    render sample_plane_2] None))
  = [[plane_of sample_plane]; [plane_of sample_plane_2]].
Proof.
  apply (truncated_input_is_flushed "cut.map"
           ["{"; "{"; render sample_plane; "}"; "{"; render sample_plane_2]
           (ParserState [[plane_of sample_plane]] [plane_of sample_plane_2] true)).
  - vm_compute; reflexivity.
  - discriminate.
Defined.

(** Every brush that an iteration leaves in the list has a plane. *)
Lemma process_line_keeps_nonempty (st st' : parser_state) (l : string) :
  Forall (fun b : brush => b <> []) (brushes st) ->
  process_line st l = Ok st' ->
  Forall (fun b : brush => b <> []) (brushes st').
Proof.
  intros Hinv. unfold process_line.
  destruct ((strip l =? "") || startswith "//" (strip l)); [congruence|].
  destruct (strip l =? "{").
  { destruct (negb (in_entity_block st)); intros H; inversion H; subst; exact Hinv. }
  destruct (strip l =? "}").
  { destruct (current_brush_planes st) as [|pd r] eqn:E.
    - destruct (in_entity_block st); intros H; inversion H; subst; exact Hinv.
    - intros H; inversion H; subst. cbn [brushes].
      apply Forall_app. split; [exact Hinv|]. constructor; [discriminate|constructor]. }
  destruct (in_entity_block st); [|congruence].
  destruct (plane_match (strip l)) as [m|]; [|congruence].
  repeat match goal with
         | |- context [to_float ?t] =>
             destruct (to_float t); cbn [bind]; [|discriminate]
         end.
  intros H; inversion H; subst. exact Hinv.
Qed.

Lemma scan_lines_keeps_nonempty (lines : list string) :
  forall st st',
    Forall (fun b : brush => b <> []) (brushes st) ->
    scan_lines lines st = Ok st' ->
    Forall (fun b : brush => b <> []) (brushes st').
Proof.
  induction lines as [|l lines IH]; intros st st' Hinv; simpl.
  - intros H; inversion H; subst; exact Hinv.
  - destruct (process_line st l) as [s1|e] eqn:E; cbn [bind]; [|discriminate].
    apply IH. eapply process_line_keeps_nonempty; eassumption.
Qed.

(** C8: every brush in the sequence that parse_quake_map returns holds
    at least one plane, for every file and every content. *)
Theorem no_empty_brush (map_filepath : string) (f : file) :
  Forall (fun b : brush => b <> []) (snd (parse_quake_map map_filepath f)).
Proof.
  unfold parse_quake_map, try_body.
  destruct f as [|msg|lines failure]; try constructor.
  destruct (scan_lines lines init_state) as [st|[|e]] eqn:E; try constructor.
  destruct failure; [constructor|]. cbn [snd]. unfold flush.
  pose proof (scan_lines_keeps_nonempty lines init_state st (Forall_nil _) E) as Hinv.
  destruct (current_brush_planes st) eqn:Hc; [exact Hinv|].
  apply Forall_app. split; [exact Hinv|]. constructor; [discriminate|constructor].
Qed.

End Leniency.

(* ================================================================== *)
(** ** The generated document *)

Section Document.
Import Text Parser Generator Layout Syntax Samples.

(** The sample map: one brush of six planes; the block of the light,
    which holds no plane line, yields nothing. *)
Example sample_map_textures :
  map (map texture)
    (snd (parse_quake_map "sample_map.map"
            (Readable (read_lines sample_text) None)))
  = [["wall_tex"; "ceiling_tex"; "floor_tex"; "brick_tex"; "{clip"; "water_tex"]].
Proof. vm_compute. reflexivity. Qed.

Example sample_map_identifiers :
  filter (has_key "id")
    (document_lines
       (snd (parse_quake_map "sample_map.map"
               (Readable (read_lines sample_text) None))))
  = [ "    " ++ key_value "id" "1";
      "        " ++ key_value "id" "2";
      "            " ++ key_value "id" "3";
      "            " ++ key_value "id" "4";
      "            " ++ key_value "id" "5";
      "            " ++ key_value "id" "6";
      "            " ++ key_value "id" "7";
      "            " ++ key_value "id" "8";
      "    " ++ key_value "id" "9" ].
Proof. vm_compute. reflexivity. Qed.

(** C2 as stated fails for a coordinate that is not finite: a token of
    310 digits is read as plus infinity, and infinity is written as
    [inf], without decimals. *)
Lemma infinite_coordinate_has_no_decimals :
  Float64.of_string huge_token = Some (S754_infinity false)
  /\ filter (has_key "plane")
       (document_lines
          (snd (parse_quake_map "big.map"
                  (Readable ["{"; "{"; huge_line; "}"; "}"] None))))
     = ["            " ++ key_value "plane"
          ("(inf 0.000000 -0.000000) (0.750000 0.000000 -0.000000)"
             ++ " (0.000000 0.000000 -0.750000)")]
  /\ ~ (exists s ip fp,
          Float64.format_6f (Float64.mul (value huge_token) SCALE_FACTOR)
          = Float64.sign_text s ++ ip ++ "." ++ fp
          /\ ip <> "" /\ all_chars is_digit ip = true
          /\ String.length fp = 6%nat /\ all_chars is_digit fp = true).
Proof.
  split; [vm_compute; reflexivity|]. split; [vm_compute; reflexivity|].
  intros (s & ip & fp & Heq & Hne & Hip & _).
  assert (Hinf : Float64.format_6f (Float64.mul (value huge_token) SCALE_FACTOR)
                 = "inf") by (vm_compute; reflexivity).
  rewrite Hinf in Heq.
  destruct s; [discriminate Heq|].
  destruct ip as [|c ip]; [congruence|].
  simpl in Heq, Hip. inversion Heq; subst c. discriminate Hip.
Qed.

(** C2 (as amended): for every point (x, y, z) of every plane of every
    brush given to generate_vmf_content, the point written into the
    side block of that plane is (x * S, z * S, -y * S), in this order,
    the products being those of binary64 numbers, with the one scale
    constant S = 0.75 = 3/4, each coordinate written in the format .6f;
    a finite value in that format has exactly six decimals, an infinite
    one is written as inf with its sign and a NaN as nan; and the point
    (-128, -128, 0) is written as (-96.000000 0.000000 96.000000). *)
Theorem points_are_scaled_and_swapped :
  (forall map_data,
      filter (has_key "plane") (document_lines map_data)
      = map plane_line (List.concat map_data))
  /\ Float64.of_string "0.75" = Some SCALE_FACTOR
  /\ SCALE_FACTOR = S754_finite false 6755399441055744 (-53)
  /\ (4 * 6755399441055744 = 3 * 2 ^ 53)%Z
  /\ (forall v,
        Float64.is_finite v = true ->
        exists s ip fp,
          Float64.format_6f v = Float64.sign_text s ++ ip ++ "." ++ fp
          /\ ip <> "" /\ all_chars is_digit ip = true
          /\ String.length fp = 6%nat /\ all_chars is_digit fp = true)
  /\ (forall s,
        Float64.format_6f (S754_infinity s) = Float64.sign_text s ++ "inf")
  /\ Float64.format_6f S754_nan = "nan"
  /\ emitted_point (value "-128", value "-128", value "0")
     = "(-96.000000 0.000000 96.000000)".
Proof.
  split; [exact plane_lines_of_document|].
  split; [vm_compute; reflexivity|].
  split; [vm_compute; reflexivity|].
  split; [reflexivity|].
  split; [|split; [reflexivity|split; [reflexivity|vm_compute; reflexivity]]].
  intros [s| | |s m e] Hv; try discriminate.
  - exists s, "0", "000000". repeat split. discriminate.
  - cbn [Float64.format_6f].
    exists s, (dec (Float64.micro_units m e / 1000000)),
           (Float64.fixed_digits 6 (Float64.micro_units m e mod 1000000)).
    destruct (fixed_digits_shape 6 (Float64.micro_units m e mod 1000000)).
    destruct (dec_digits (Float64.micro_units m e / 1000000)).
    repeat split; assumption.
Qed.

Lemma points_are_scaled_and_swapped_witness :
  exists s ip fp,
    Float64.format_6f (Float64.mul (value "0.1") SCALE_FACTOR)
    = Float64.sign_text s ++ ip ++ "." ++ fp
    /\ ip <> "" /\ all_chars is_digit ip = true
    /\ String.length fp = 6%nat /\ all_chars is_digit fp = true.
Proof.
  apply (proj1 (proj2 (proj2 (proj2 (proj2 points_are_scaled_and_swapped))))).
  vm_compute; reflexivity.
Defined.

(** C3: for every sequence of brushes given to generate_vmf_content,
    the identifier lines of the document are, in order, the line of
    the world block with 1 and then one line per drawn identifier, the
    identifiers being 2, 3, 4, ... without gap: per brush one for the
    solid block followed by one per plane for the side blocks, in file
    order, and after all brushes exactly one more for the entity block;
    the counter ends one past the last identifier drawn, and no
    identifier occurs twice in the document. *)
Theorem identifiers_are_consecutive (map_data : list brush) :
  filter (has_key "id") (document_lines map_data)
  = ("    " ++ key_value "id" "1")
      :: map id_line (numbered 2 (allocations map_data))
  /\ current_id (run map_data)
     = (2 + N.of_nat (List.length (allocations map_data)))%N
  /\ NoDup (1%N :: map snd (numbered 2 (allocations map_data)))
  /\ NoDup (dec 1 :: map (fun a => dec (snd a))
                       (numbered 2 (allocations map_data))).
Proof.
  assert (Hnodup : NoDup (1%N :: map snd (numbered 2 (allocations map_data)))).
  { constructor; [|apply numbered_nodup].
    intros H. apply numbered_snd_lt in H. lia. }
  split; [|split; [|split]].
  - rewrite document_lines_closed, !filter_app, id_lines_of_solids.
    unfold allocations. rewrite numbered_app, map_app.
    assert (Hlen : N.of_nat (List.length
              (flat_map (fun b : brush => Solid :: map (fun _ => Side) b) map_data))
            = drawn map_data).
    { pose proof (drawn_allocations map_data) as H. unfold allocations in H.
      rewrite length_app in H. cbn [List.length] in H. lia. }
    rewrite Hlen. reflexivity.
  - rewrite final_counter, drawn_allocations. lia.
  - exact Hnodup.
  - rewrite <- (map_map snd dec). exact (nodup_dec _ Hnodup).
Qed.

(** Whatever an iteration does to the accumulator, a plane it adds
    carries the tenth group of the match in lower case. *)
Lemma process_line_texture (st st' : parser_state) (l : string) :
  process_line st l = Ok st' ->
  current_brush_planes st' = current_brush_planes st
  \/ current_brush_planes st' = []
  \/ exists m pd,
       plane_match (strip l) = Some m
       /\ current_brush_planes st' = (current_brush_planes st ++ [pd])%list
       /\ texture pd = lower (Re.group m 10).
Proof.
  unfold process_line.
  destruct ((strip l =? "") || startswith "//" (strip l)).
  { intros H; inversion H; auto. }
  destruct (strip l =? "{").
  { destruct (negb (in_entity_block st)); intros H; inversion H; auto. }
  destruct (strip l =? "}").
  { destruct (current_brush_planes st) eqn:E;
      [destruct (in_entity_block st)|]; intros H; inversion H; subst; auto. }
  destruct (in_entity_block st); [|intros H; inversion H; auto].
  destruct (plane_match (strip l)) as [m|]; [|intros H; inversion H; auto].
  repeat match goal with
         | |- context [to_float ?t] =>
             destruct (to_float t); cbn [bind]; [|discriminate]
         end.
  intros H; inversion H; subst. right. right.
  eexists _, _. repeat split.
Qed.

Lemma lower_upper_stays (s : string) :
  all_chars upper_stays (lower s) = all_chars upper_stays s.
Proof.
  unfold lower. induction s as [|c s IH]; [reflexivity|].
  cbn [map_chars all_chars]. rewrite IH. f_equal.
  destruct c as [[] [] [] [] [] [] [] []]; reflexivity.
Qed.

(** C9: the texture token of every plane line parsed is stored in
    lower case; the material of every plane given to
    generate_vmf_content is the stored name in upper case behind the
    prefix materials/; so the material made from a token is the token
    in lower case put in upper case, and the letter case of the token
    itself is lost, as for Wall_Tex.  What is said of the upper case is
    said of names without the two characters whose upper case is a code
    point from 256 on; putting a token in lower case brings in neither
    of them. *)
Theorem texture_case_is_normalised_twice :
  (forall st l st',
      process_line st l = Ok st' ->
      current_brush_planes st' = current_brush_planes st
      \/ current_brush_planes st' = []
      \/ exists m pd,
           plane_match (strip l) = Some m
           /\ current_brush_planes st' = (current_brush_planes st ++ [pd])%list
           /\ texture pd = lower (Re.group m 10))
  /\ (forall map_data,
        Forall (fun pd => all_chars upper_stays (texture pd) = true)
               (List.concat map_data) ->
        filter (has_key "material") (document_lines map_data)
        = map (fun pd => "            "
                           ++ key_value "material"
                                ("materials/" ++ upper (texture pd)))
              (List.concat map_data))
  /\ (forall p,
        wf_plane p = true ->
        all_chars upper_stays (tex p) = true ->
        all_chars upper_stays (texture (plane_of p)) = true
        /\ filter (has_key "material")
             (document_lines
                (snd (parse_quake_map "m.map"
                        (Readable ["{"; "{"; render p; "}"; "}"] None))))
           = ["            "
                ++ key_value "material" ("materials/" ++ upper (lower (tex p)))])
  /\ lower "Wall_Tex" = "wall_tex"
  /\ upper (lower "Wall_Tex") = "WALL_TEX"
  /\ upper (lower "Wall_Tex") <> "Wall_Tex".
Proof.
  split; [intros st l st'; apply process_line_texture|].
  split; [intros map_data _; apply material_lines_of_document|].
  split; [|repeat split; discriminate].
  intros p Hp Hstays.
  split; [unfold plane_of; cbn [texture]; now rewrite lower_upper_stays|].
  pose proof (parse_brush_block "m.map" ["{"] ["}"] "{" "}" [PlaneLine p]) as H.
  cbn [map line_of plane_texts app] in H.
  rewrite H; [| reflexivity | reflexivity | cbn; now rewrite Hp
              | reflexivity | reflexivity ].
  rewrite material_lines_of_document. cbn [List.concat map app].
  unfold material_line, plane_of. cbn [texture]. reflexivity.
Qed.

Lemma texture_case_is_normalised_twice_witness :
  filter (has_key "material")
    (document_lines
       (snd (parse_quake_map "m.map"
               (Readable ["{"; "{"; render sample_plane_2; "}"; "}"] None))))
  = ["            "
       ++ key_value "material" ("materials/" ++ upper (lower "{CLIP"))].
Proof.
  apply (proj1 (proj2 (proj2 texture_case_is_normalised_twice)) sample_plane_2).
  - vm_compute; reflexivity.
  - vm_compute; reflexivity.
Defined.

End Document.

(* ================================================================== *)
(** ** Several runs, one after the other *)

Section Invocation.
Import Text Parser Generator Invocations Samples.

Lemma scan_from_lines (lines : list string) :
  forall st,
    scan_lines lines st
    = match scan_from lines st with
      | (st', None) => Ok st'
      | (_, Some e) => Raise e
      end.
Proof.
  induction lines as [|l lines IH]; intros st; [reflexivity|].
  cbn [scan_lines scan_from].
  destruct (process_line st l) as [st'|e]; cbn [bind]; [apply IH|reflexivity].
Qed.

(** What a call of the parser prints and returns does not depend on
    the store it starts in: it is what the function of the map file
    alone gives. *)
Lemma parse_ignores_store (s : store) (map_filepath : string) (f : file) :
  snd (Invocations.parse_quake_map s map_filepath f)
  = Parser.parse_quake_map map_filepath f.
Proof.
  unfold Invocations.parse_quake_map, Parser.parse_quake_map, try_body.
  destruct f as [|msg|lines failure]; try reflexivity.
  cbv zeta.
  change (parser_vars
            (set_in_entity_block
               (set_current_brush_planes (set_brushes s []) []) false))
    with init_state.
  rewrite scan_from_lines.
  destruct (scan_from lines init_state) as [st [[|msg]|]]; try reflexivity.
  destruct failure; [reflexivity|].
  destruct st; reflexivity.
Qed.

Lemma emit_solid_by_scale (st : gen_state) (b : brush) :
  emit_solid_by SCALE_FACTOR st b = emit_solid st b.
Proof.
  reflexivity.
Qed.

Lemma fold_emit_solid_by_scale (map_data : list brush) :
  forall st,
    fold_left (emit_solid_by SCALE_FACTOR) map_data st
    = fold_left emit_solid map_data st.
Proof.
  induction map_data as [|b map_data IH]; intros st; [reflexivity|].
  cbn [fold_left]. now rewrite emit_solid_by_scale, IH.
Qed.

Lemma generate_ignores_store (s : store) (map_data : list brush) :
  snd (Invocations.generate_vmf_content s map_data)
  = Generator.generate_vmf_content map_data.
Proof.
  destruct s. unfold Invocations.generate_vmf_content. cbv zeta.
  cbn [snd set_vmf_lines set_SCALE_FACTOR set_current_id with_gen_vars gen_vars
       s_vmf_lines s_SCALE_FACTOR s_current_id s_brushes
       s_current_brush_planes s_in_entity_block].
  fold SCALE_FACTOR. rewrite fold_emit_solid_by_scale. reflexivity.
Qed.

Lemma convert_ignores_store (s s' : store) (job : string * file) :
  snd (convert s job) = snd (convert s' job).
Proof.
  destruct job as [path f]. unfold convert.
  pose proof (parse_ignores_store s path f) as H.
  pose proof (parse_ignores_store s' path f) as H'.
  destruct (Invocations.parse_quake_map s path f) as [s1 [out bs]].
  destruct (Invocations.parse_quake_map s' path f) as [s1' [out' bs']].
  cbn [snd] in H, H'. rewrite <- H' in H. injection H as -> ->.
  destruct bs' as [|b bs']; [reflexivity|].
  pose proof (generate_ignores_store s1 (b :: bs')) as G.
  pose proof (generate_ignores_store s1' (b :: bs')) as G'.
  destruct (Invocations.generate_vmf_content s1 (b :: bs')) as [s2 doc].
  destruct (Invocations.generate_vmf_content s1' (b :: bs')) as [s2' doc'].
  cbn [snd] in G, G' |- *. now rewrite G, G'.
Qed.

Lemma convert_all_alone (jobs : list (string * file)) :
  forall s, snd (convert_all s jobs) = map alone jobs.
Proof.
  induction jobs as [|job jobs IH]; intros s; [reflexivity|].
  cbn [convert_all map].
  pose proof (convert_ignores_store s fresh job) as H.
  destruct (convert s job) as [s1 r]. cbn [snd] in H.
  specialize (IH s1). destruct (convert_all s1 jobs) as [s2 rs].
  cbn [snd] in IH |- *. unfold alone. now rewrite H, IH.
Qed.

(** C10: the functions assign their variables before they use them
    (the lists of brushes and of planes, the flag, the list of lines
    and the counter), so that what a run prints, returns and writes
    does not depend on the store it starts in, whatever an earlier run
    left there.  For every two inputs A and B, run in either order or
    the same one twice, from any store, each yields exactly what it
    yields alone; a run does leave its values in the store, and they
    reach no later run. *)
Theorem runs_do_not_interfere :
  (forall s map_filepath f,
      snd (Invocations.parse_quake_map s map_filepath f)
      = Parser.parse_quake_map map_filepath f)
  /\ (forall s map_data,
        snd (Invocations.generate_vmf_content s map_data)
        = Generator.generate_vmf_content map_data)
  /\ (forall s jobs, snd (convert_all s jobs) = map alone jobs)
  /\ (forall s A B,
        snd (convert_all s [A; B]) = [alone A; alone B]
        /\ snd (convert_all s [B; A]) = [alone B; alone A]
        /\ snd (convert_all s [A; A]) = [alone A; alone A])
  /\ (forall path f,
        alone (path, f)
        = (fst (Parser.parse_quake_map path f),
           match snd (Parser.parse_quake_map path f) with
           | [] => None
           | (_ :: _) as brushes => Some (Generator.generate_vmf_content brushes)
           end))
  /\ s_current_id
       (fst (convert fresh ("a.map", Readable ["{"; wall_line; "}"] None)))
     = 5%N.
Proof.
  split; [exact parse_ignores_store|].
  split; [exact generate_ignores_store|].
  split; [intros s jobs; apply convert_all_alone|].
  split; [intros s A B; rewrite !convert_all_alone; repeat split|].
  split; [|vm_compute; reflexivity].
  intros path f. unfold alone, convert.
  pose proof (parse_ignores_store fresh path f) as H.
  destruct (Invocations.parse_quake_map fresh path f) as [s1 [out bs]].
  cbn [snd] in H. rewrite <- H. cbn [fst snd].
  destruct bs as [|b bs]; [reflexivity|].
  pose proof (generate_ignores_store s1 (b :: bs)) as G.
  destruct (Invocations.generate_vmf_content s1 (b :: bs)) as [s2 doc].
  cbn [snd] in G |- *. now rewrite G.
Qed.

End Invocation.

(* ================================================================== *)
(** ** What the pattern captures *)

Section Captures.
Import Text Re Parser Syntax Reading.

(** A successful repetition took a run of the class and handed the rest
    to what follows. *)
Lemma greedy_inv {R : Type} (p : ascii -> bool) (s : string) :
  forall (k : string -> string -> option R) (r : R),
    greedy p k s = Some r ->
    exists w s', s = w ++ s' /\ all_chars p w = true /\ k w s' = Some r.
Proof.
  induction s as [|c s IH]; intros k r H; simpl in H.
  - exists "", "". auto.
  - destruct (p c) eqn:Hc.
    + destruct (greedy p (fun taken rest => k (String c taken) rest) s) as [r'|] eqn:E.
      * inversion H; subst r'. apply IH in E as (w & s' & -> & Hw & Hk).
        exists (String c w), s'. simpl. rewrite Hc, Hw. auto.
      * exists "", (String c s). auto.
    + exists "", (String c s). auto.
Qed.

Lemma match_here_groups (items : list item) :
  forall s gs,
    match_here items s = Some gs ->
    Forall2 group_ok (filter captured items) gs.
Proof.
  induction items as [|it items IH]; intros s gs H.
  - simpl in H. inversion H. constructor.
  - assert (Hfin : forall taken s' r,
               all_chars (cls it) taken = true ->
               (quant it <> Star -> taken <> "") ->
               match match_here items s' with
               | Some gs0 => Some (if captured it then taken :: gs0 else gs0)
               | None => None
               end = Some r ->
               Forall2 group_ok (filter captured (it :: items)) r).
    { intros taken s' r Ht Hne Hr.
      destruct (match_here items s') as [gs0|] eqn:E; [|discriminate].
      inversion Hr; subst r. apply IH in E. cbn [filter].
      destruct (captured it); [constructor; [split; assumption|exact E]|exact E]. }
    cbn [match_here] in H. destruct (quant it) eqn:Hq.
    + destruct s as [|c s]; [discriminate|].
      destruct (cls it c) eqn:Hc; [|discriminate].
      eapply Hfin; [| |exact H]; simpl; [now rewrite Hc|discriminate].
    + apply greedy_inv in H as (w & s' & _ & Hw & Hk).
      eapply Hfin; [exact Hw| |exact Hk]. congruence.
    + destruct s as [|c s]; [discriminate|].
      destruct (cls it c) eqn:Hc; [|discriminate].
      apply greedy_inv in H as (w & s' & _ & Hw & Hk).
      eapply Hfin; [| |exact Hk]; simpl; [now rewrite Hc, Hw|discriminate].
Qed.

(** Whatever line the pattern matches, it captures ten groups: nine
    non-empty runs of digits, points and minus signs, and a non-empty
    run without blanks. *)
Lemma plane_match_groups (s : string) (m : list string) :
  plane_match s = Some m ->
  List.length m = 10%nat
  /\ (forall k, (1 <= k <= 9)%nat ->
        all_chars is_num (group m k) = true /\ group m k <> "")
  /\ all_chars non_space (group m 10) = true /\ group m 10 <> "".
Proof.
  intros H. apply match_here_groups in H. cbn in H.
  repeat match goal with
         | H : Forall2 _ (_ :: _) _ |- _ => inversion H; subst; clear H
         | H : Forall2 _ [] _ |- _ => inversion H; subst; clear H
         end.
  repeat match goal with
         | H : group_ok _ _ |- _ => destruct H as [? ?]
         end.
  cbn [cls quant] in *.
  repeat match goal with
         | H : Plus <> Star -> _ |- _ =>
             specialize (H ltac:(discriminate))
         end.
  split; [reflexivity|]. split.
  - intros k Hk.
    assert (Hcases : k = 1 \/ k = 2 \/ k = 3 \/ k = 4 \/ k = 5 \/ k = 6
                     \/ k = 7 \/ k = 8 \/ k = 9) by lia.
    destruct Hcases as [->|[->|[->|[->|[->|[->|[->|[->| ->]]]]]]]];
      cbn; split; assumption.
  - cbn. split; assumption.
Qed.

(** A line that the plane pattern matches yields exactly ten captured
    texts: each of the nine coordinate texts is non-empty and made of
    digits, points and minus signs only, and the texture text is
    non-empty and holds no blank. *)
Theorem plane_captures_fit_the_pattern (s : string) (m : list string) :
  plane_match s = Some m ->
  List.length m = 10%nat
  /\ (forall k, (1 <= k <= 9)%nat ->
        all_chars is_num (group m k) = true /\ group m k <> "")
  /\ all_chars non_space (group m 10) = true /\ group m 10 <> "".
Proof. apply plane_match_groups. Qed.

Lemma plane_captures_fit_the_pattern_witness :
  List.length ["0"; "0"; "0"; "1"; "0"; "0"; "0"; "1"; "0"; "wall"] = 10%nat
  /\ (forall k, (1 <= k <= 9)%nat ->
        all_chars is_num
          (group ["0"; "0"; "0"; "1"; "0"; "0"; "0"; "1"; "0"; "wall"] k) = true
        /\ group ["0"; "0"; "0"; "1"; "0"; "0"; "0"; "1"; "0"; "wall"] k <> "")
  /\ all_chars non_space
       (group ["0"; "0"; "0"; "1"; "0"; "0"; "0"; "1"; "0"; "wall"] 10) = true
  /\ group ["0"; "0"; "0"; "1"; "0"; "0"; "0"; "1"; "0"; "wall"] 10 <> "".
Proof.
  apply (plane_captures_fit_the_pattern Samples.wall_line).
  vm_compute. reflexivity.
Defined.

End Captures.

(* ================================================================== *)
(** ** Where the planes of the result come from *)

Section Provenance.
Import Text Re Parser Syntax Reading.

Lemma subseq_nil_l {A : Type} (l : list A) : subseq [] l.
Proof. induction l; constructor; assumption. Qed.

Lemma subseq_refl {A : Type} (l : list A) : subseq l l.
Proof. induction l; constructor; assumption. Qed.

Lemma subseq_length {A : Type} (l1 l2 : list A) :
  subseq l1 l2 -> (List.length l1 <= List.length l2)%nat.
Proof. induction 1; simpl; lia. Qed.

(** The effect of one iteration that does not raise: nothing, or the
    accumulator emptied, or the accumulator moved to the brushes, or the
    plane of the line added to the accumulator. *)
Lemma process_line_cases (st s1 : parser_state) (l : string) :
  process_line st l = Ok s1 ->
  (brushes s1 = brushes st
   /\ current_brush_planes s1 = current_brush_planes st)
  \/ (brushes s1 = brushes st /\ current_brush_planes s1 = [])
  \/ (current_brush_planes st <> []
      /\ brushes s1 = (brushes st ++ [current_brush_planes st])%list
      /\ current_brush_planes s1 = [])
  \/ (exists pd,
        plane_of_line l = Some pd
        /\ in_entity_block st = true
        /\ brushes s1 = brushes st
        /\ current_brush_planes s1 = (current_brush_planes st ++ [pd])%list).
Proof.
  unfold process_line, plane_of_line.
  destruct ((strip l =? "") || startswith "//" (strip l)).
  { intros H; inversion H; auto. }
  destruct (strip l =? "{").
  { destruct (negb (in_entity_block st)); intros H; inversion H; auto. }
  destruct (strip l =? "}").
  { destruct (current_brush_planes st) eqn:E.
    - destruct (in_entity_block st); intros H; inversion H; subst; cbn; auto.
    - intros H; inversion H; subst; cbn. right. right. left.
      repeat split. discriminate. }
  destruct (in_entity_block st); [|intros H; inversion H; auto].
  destruct (plane_match (strip l)) as [m|]; [|intros H; inversion H; auto].
  unfold plane_from_match.
  repeat match goal with
         | |- context [to_float ?t] =>
             destruct (to_float t); cbn [bind]; [|discriminate]
         end.
  intros H; inversion H; subst; cbn. right. right. right.
  eexists. repeat split.
Qed.

Lemma scan_provenance (lines : list string) :
  forall st st',
    scan_lines lines st = Ok st' ->
    exists sub new kept,
      subseq sub lines
      /\ Forall2 (fun l pd => plane_of_line l = Some pd) sub new
      /\ (kept = current_brush_planes st \/ kept = [])
      /\ (List.concat (brushes st') ++ current_brush_planes st'
          = List.concat (brushes st) ++ kept ++ new)%list.
Proof.
  induction lines as [|l lines IH]; intros st st' H; simpl in H.
  - inversion H; subst. exists [], [], (current_brush_planes st').
    repeat split; [constructor|constructor|auto|now rewrite app_nil_r].
  - destruct (process_line st l) as [s1|e] eqn:E; cbn [bind] in H; [|discriminate].
    apply IH in H as (sub & new & kept & Hsub & Hnew & Hkept & Heq).
    apply process_line_cases in E
      as [[Eb Ec]|[[Eb Ec]|[(Hne & Eb & Ec)|(pd & Hpd & _ & Eb & Ec)]]].
    + exists sub, new, kept. rewrite Eb, Ec in *.
      split; [now constructor|]. split; [exact Hnew|]. split; [exact Hkept|exact Heq].
    + exists sub, new, []. rewrite Eb, Ec in *.
      split; [now constructor|]. split; [exact Hnew|]. split; [now right|].
      destruct Hkept as [-> | ->]; exact Heq.
    + exists sub, new, (current_brush_planes st). rewrite Eb, Ec in *.
      split; [now constructor|]. split; [exact Hnew|]. split; [now left|].
      rewrite concat_app in Heq. cbn [List.concat] in Heq.
      rewrite app_nil_r in Heq.
      destruct Hkept as [-> | ->]; cbn [app] in Heq;
        now rewrite Heq, <- app_assoc.
    + rewrite Eb, Ec in *. destruct Hkept as [-> | ->].
      * exists (l :: sub), (pd :: new), (current_brush_planes st).
        split; [now constructor|]. split; [now constructor|]. split; [now left|].
        rewrite Heq, <- !app_assoc. reflexivity.
      * exists sub, new, [].
        split; [now constructor|]. split; [exact Hnew|]. split; [now right|exact Heq].
Qed.

Lemma concat_flush (st : parser_state) :
  List.concat (flush st)
  = (List.concat (brushes st) ++ current_brush_planes st)%list.
Proof.
  unfold flush. destruct (current_brush_planes st) eqn:E.
  - now rewrite app_nil_r.
  - rewrite concat_app. cbn [List.concat]. now rewrite app_nil_r.
Qed.

Lemma result_provenance (map_filepath : string)
    (lines : list string) (failure : option string) :
  exists sub,
    subseq sub lines
    /\ Forall2 (fun l pd => plane_of_line l = Some pd) sub
         (List.concat (snd (parse_quake_map map_filepath (Readable lines failure)))).
Proof.
  unfold parse_quake_map, try_body.
  destruct (scan_lines lines init_state) as [st|[|e]] eqn:E;
    try (exists []; split; [apply subseq_nil_l|constructor]).
  destruct failure; [exists []; split; [apply subseq_nil_l|constructor]|].
  cbn [snd]. rewrite concat_flush.
  apply scan_provenance in E as (sub & new & kept & Hsub & Hnew & Hkept & Heq).
  exists sub. split; [exact Hsub|].
  rewrite Heq. cbn. destruct Hkept as [-> | ->]; exact Hnew.
Qed.

(** The planes of the result, read brush after brush, are the planes of
    some of the lines of the file, in file order, each line used at most
    once: no plane is made up, repeated or moved. *)
Theorem planes_come_from_lines_in_order (map_filepath : string)
    (lines : list string) (failure : option string) :
  exists sub,
    subseq sub lines
    /\ Forall2 (fun l pd => plane_of_line l = Some pd) sub
         (List.concat (snd (parse_quake_map map_filepath (Readable lines failure)))).
Proof. apply result_provenance. Qed.

End Provenance.

(* ================================================================== *)
(** ** Signs, and the absence of NaN *)

Section Signs.
Import Text Float64 Numbers Generator.

Lemma iter_pos_invariant {A : Type} (P : A -> Prop) (f : A -> A) :
  (forall x, P x -> P (f x)) ->
  forall n x, P x -> P (iter_pos f n x).
Proof.
  intros Hf. induction n as [n IH|n IH|]; intros x Hx; simpl; auto.
Qed.

Lemma shr_1_nonneg (mrs : shr_record) :
  (0 <= shr_m mrs)%Z -> (0 <= shr_m (shr_1 mrs))%Z.
Proof.
  destruct mrs as [m r s]. simpl.
  destruct m as [|[p|p|]|[p|p|]]; simpl; lia.
Qed.

Lemma shr_fexp_nonneg (m e : Z) (l : location) :
  (0 <= m)%Z -> (0 <= shr_m (fst (shr_fexp prec emax m e l)))%Z.
Proof.
  intros Hm. unfold shr_fexp, shr.
  assert (H0 : (0 <= shr_m (shr_record_of_loc m l))%Z).
  { destruct l as [|[]]; simpl; exact Hm. }
  destruct (fexp prec emax (Zdigits2 m + e) - e)%Z; simpl; auto.
  apply (iter_pos_invariant (fun x => (0 <= shr_m x)%Z)); auto using shr_1_nonneg.
Qed.

Lemma round_nearest_even_nonneg (m : Z) (l : location) :
  (0 <= m)%Z -> (0 <= round_nearest_even m l)%Z.
Proof.
  intros Hm. destruct l as [|[]]; simpl; try lia.
  destruct (Z.even m); lia.
Qed.

(** Rounding a non-negative mantissa gives a zero, a finite number or an
    infinity of the sign asked for; never a NaN. *)
Lemma binary_round_aux_sign (sx : bool) (mx ex : Z) (lx : location) :
  (0 <= mx)%Z ->
  is_nan (binary_round_aux prec emax sx mx ex lx) = false
  /\ sign_bit (binary_round_aux prec emax sx mx ex lx) = sx.
Proof.
  intros Hm. unfold binary_round_aux.
  pose proof (shr_fexp_nonneg mx ex lx Hm) as H1.
  destruct (shr_fexp prec emax mx ex lx) as [mrs' e'].
  cbn [fst] in H1.
  pose proof (shr_fexp_nonneg
                (round_nearest_even (shr_m mrs') (loc_of_shr_record mrs'))
                e' loc_Exact
                (round_nearest_even_nonneg _ _ H1)) as H2.
  destruct (shr_fexp prec emax
              (round_nearest_even (shr_m mrs') (loc_of_shr_record mrs'))
              e' loc_Exact) as [mrs'' e''].
  cbn [fst] in H2.
  destruct (shr_m mrs'') as [|p|p]; [split; reflexivity| |lia].
  destruct (e'' <=? emax - prec)%Z; split; reflexivity.
Qed.

Lemma of_decimal_sign (negative : bool) (n k : N) :
  is_nan (of_decimal negative n k) = false
  /\ sign_bit (of_decimal negative n k) = negative.
Proof.
  unfold of_decimal. destruct n as [|m]; [split; reflexivity|].
  unfold SFdiv.
  destruct (SFdiv_core_binary prec emax (Z.pos m) 0
              (Z.pos (Z.to_pos (10 ^ Z.of_N k))) 0) as [[mz ez] lz] eqn:E.
  assert (Hmz : (0 <= mz)%Z).
  { unfold SFdiv_core_binary in E.
    match type of E with
    | (let '(q, r) := Z.div_eucl ?a ?b in _) = _ =>
        pose proof (Z.div_pos a b) as Hdiv;
        unfold Z.div in Hdiv; destruct (Z.div_eucl a b) as [q r] eqn:Ed;
        assert (Ha : (0 <= a)%Z)
    end.
    { match goal with
      | |- (0 <= match ?s with _ => _ end)%Z => destruct s
      end; try lia. apply Z.shiftl_nonneg. lia. }
    inversion E; subst. apply Hdiv; [exact Ha|lia]. }
  destruct (binary_round_aux_sign (xorb negative false) mz ez lz Hmz) as [H1 H2].
  split; [exact H1|]. rewrite H2. now destruct negative.
Qed.

(** [float] never yields a NaN for a token the pattern can capture, and
    the number it yields is negative, zero included, exactly when the
    token begins with a minus sign. *)
Lemma of_string_sign (t : string) (v : float) :
  of_string t = Some v ->
  is_nan v = false /\ sign_bit v = startswith "-" t.
Proof.
  unfold of_string.
  assert (Hsign : forall negative body r,
    (let '(i, ni, r1) := read_digits body 0 0 in
     match r1 with
     | EmptyString =>
         if (ni =? 0)%N then None else Some (of_decimal negative i 0)
     | String c r2 =>
         if Ascii.eqb c "." then
           let '(n, nf, r3) := read_digits r2 i 0 in
           match r3 with
           | EmptyString =>
               if (ni + nf =? 0)%N then None
               else Some (of_decimal negative n nf)
           | String _ _ => None
           end
         else None
     end) = Some r ->
    is_nan r = false /\ sign_bit r = negative).
  { intros negative body r.
    destruct (read_digits body 0 0) as [[i ni] r1].
    destruct r1 as [|c r2].
    - destruct (ni =? 0)%N; [discriminate|].
      intros H; inversion H. apply of_decimal_sign.
    - destruct (Ascii.eqb c "."); [|discriminate].
      destruct (read_digits r2 i 0) as [[n nf] r3].
      destruct r3; [|discriminate].
      destruct (ni + nf =? 0)%N; [discriminate|].
      intros H; inversion H. apply of_decimal_sign. }
  destruct t as [|c r]; [discriminate|].
  change (startswith "-" (String c r)) with (Ascii.eqb "-" c && true).
  rewrite andb_true_r, (Ascii.eqb_sym "-" c).
  destruct (Ascii.eqb c "-") eqn:Hc; intros H; apply Hsign in H; exact H.
Qed.

(** Scaling keeps the sign bit and makes no NaN of a number. *)
Lemma scale_sign (v : float) :
  is_nan v = false ->
  is_nan (mul v SCALE_FACTOR) = false
  /\ sign_bit (mul v SCALE_FACTOR) = sign_bit v.
Proof.
  destruct v as [s|s| |s m e]; try discriminate; intros _;
    try (split; destruct s; reflexivity).
  change SCALE_FACTOR with (S754_finite false 6755399441055744 (-53)).
  unfold mul, SFmul.
  destruct (binary_round_aux_sign (xorb s false)
              (Z.pos (m * 6755399441055744)) (e + -53) loc_Exact
              ltac:(lia)) as [H1 H2].
  split; [exact H1|]. rewrite H2. now destruct s.
Qed.

(** The text of a number other than NaN begins with a minus sign exactly
    when its sign bit is set. *)
Lemma format_6f_sign (v : float) :
  is_nan v = false ->
  startswith "-" (format_6f v) = sign_bit v.
Proof.
  destruct v as [s|s| |s m e]; try discriminate; intros _;
    try (destruct s; reflexivity).
  cbn [format_6f sign_bit]. destruct s; [reflexivity|].
  cbn [sign_text append].
  destruct (dec_digits (micro_units m e / 1000000)) as [Hd Hne].
  destruct (dec (micro_units m e / 1000000)) as [|c d]; [congruence|].
  cbn in Hd |- *. apply andb_prop in Hd as [Hc _].
  destruct c as [[] [] [] [] [] [] [] []]; try discriminate Hc; reflexivity.
Qed.

End Signs.

(* ================================================================== *)
(** ** Reading back what the generator writes *)

Section ReadBack.
Import Text Float64 Numbers.

Ltac triple_eq :=
  apply f_equal2; [apply f_equal2|]; try reflexivity; try lia.

Lemma read_digits_app (d : string) :
  all_chars is_digit d = true ->
  forall s acc count,
    read_digits (d ++ s) acc count
    = let '(a, c, _) := read_digits d acc count in read_digits s a c.
Proof.
  induction d as [|x d IH]; intros Hd s acc count; [reflexivity|].
  simpl in Hd. apply andb_prop in Hd as [Hx Hd].
  cbn [append read_digits]. rewrite Hx. now apply IH.
Qed.

Lemma read_digits_uint (d : Decimal.uint) :
  forall acc count,
    read_digits (NilEmpty.string_of_uint d) acc count
    = ((acc * 10 ^ DecimalPos.Unsigned.usize d
        + DecimalPos.Unsigned.of_lu (Decimal.rev d))%N,
       (count + DecimalPos.Unsigned.usize d)%N, "").
Proof.
  induction d; intros acc count;
    [ cbn; triple_eq | .. ];
    cbn [NilEmpty.string_of_uint read_digits];
    (match goal with
     | |- context [is_digit ?c] => change (is_digit c) with true
     end);
    cbv iota; rewrite IHd;
    (match goal with
     | |- context [DecimalPos.Unsigned.of_lu (Decimal.rev (?c d))] =>
         change (Decimal.rev (c d)) with (Decimal.revapp d (c Decimal.Nil));
         rewrite (DecimalPos.Unsigned.of_lu_revapp d (c Decimal.Nil))
     end);
    cbn [DecimalPos.Unsigned.usize DecimalPos.Unsigned.of_lu];
    rewrite N.pow_succ_r';
    (match goal with
     | |- context [digit_value ?c] =>
         let v := eval vm_compute in (digit_value c) in
         change (digit_value c) with v
     end);
    triple_eq.
Qed.

Lemma read_digits_dec (n acc count : N) :
  exists len,
    (0 < len)%N
    /\ read_digits (dec n) acc count = ((acc * 10 ^ len + n)%N, (count + len)%N, "").
Proof.
  unfold dec, NilZero.string_of_uint.
  pose proof (DecimalN.Unsigned.of_to n) as Hn.
  unfold N.of_uint in Hn. rewrite DecimalPos.Unsigned.of_uint_alt in Hn.
  destruct (N.to_uint n) as [|d|d|d|d|d|d|d|d|d|d] eqn:E;
    [ destruct n; [discriminate E|];
      exfalso; simpl in E; revert E; apply DecimalPos.Unsigned.to_uint_nonnil
    | .. ];
    (eexists; split;
     [| rewrite read_digits_uint, Hn; reflexivity ];
     cbn [DecimalPos.Unsigned.usize]; lia).
Qed.

Lemma read_digits_fixed (width : nat) :
  forall r acc count,
    read_digits (fixed_digits width r) acc count
    = ((acc * 10 ^ N.of_nat width + r mod 10 ^ N.of_nat width)%N,
       (count + N.of_nat width)%N, "").
Proof.
  assert (Hdigit : forall d, (d < 10)%N ->
             is_digit (digit_char d) = true /\ digit_value (digit_char d) = d).
  { intros d Hd. destruct d as [|p]; [split; reflexivity|].
    do 4 (destruct p as [p|p|]; try (split; reflexivity); try (exfalso; lia)). }
  induction width as [|w IH]; intros r acc count.
  - cbn. rewrite N.mod_1_r. triple_eq.
  - cbn [fixed_digits].
    rewrite read_digits_app by apply fixed_digits_shape.
    rewrite IH. cbn [read_digits].
    destruct (Hdigit (r mod 10)%N) as [H1 H2]; [apply N.mod_lt; discriminate|].
    rewrite H1, H2. rewrite Nat2N.inj_succ, N.pow_succ_r'.
    rewrite (N.Div0.mod_mul_r r 10 (10 ^ N.of_nat w)).
    triple_eq.
Qed.

(** The text that the format [.6f] gives a finite number is a token
    that [float] accepts; what it reads is the number nearest to the
    six decimals written, with the sign written. *)
Theorem formatted_number_reads_back (v : float) :
  is_finite v = true ->
  of_string (format_6f v)
  = Some (of_decimal (sign_bit v) (millionths v) 6).
Proof.
  assert (Hbody : forall negative n,
    (let '(i, ni, r1) :=
       read_digits (dec (n / 1000000) ++ "." ++ fixed_digits 6 (n mod 1000000)) 0 0 in
     match r1 with
     | EmptyString =>
         if (ni =? 0)%N then None else Some (of_decimal negative i 0)
     | String c r2 =>
         if Ascii.eqb c "." then
           let '(n', nf, r3) := read_digits r2 i 0 in
           match r3 with
           | EmptyString =>
               if (ni + nf =? 0)%N then None
               else Some (of_decimal negative n' nf)
           | String _ _ => None
           end
         else None
     end) = Some (of_decimal negative n 6)).
  { intros negative n.
    rewrite read_digits_app by apply dec_digits.
    destruct (read_digits_dec (n / 1000000) 0 0) as (len & Hlen & ->).
    cbn [append read_digits]. change (is_digit ".") with false. cbv iota.
    change (Ascii.eqb "." ".") with true. cbv iota.
    rewrite (read_digits_fixed 6).
    replace (0 + len + (0 + N.of_nat 6) =? 0)%N with false
      by (symmetry; apply N.eqb_neq; lia).
    do 2 f_equal.
    change (10 ^ N.of_nat 6)%N with 1000000%N.
    rewrite N.Div0.mod_mod.
    pose proof (N.div_mod n 1000000 ltac:(discriminate)). lia. }
  destruct v as [s| | |s m e]; try discriminate; intros _.
  - destruct s; reflexivity.
  - cbn [format_6f sign_bit millionths]. unfold of_string.
    destruct s; cbn [sign_text append].
    + change (Ascii.eqb "-" "-") with true. cbv iota. apply Hbody.
    + destruct (dec_digits (micro_units m e / 1000000)) as [Hd Hne].
      destruct (dec (micro_units m e / 1000000)) as [|c d] eqn:E; [congruence|].
      cbn [append].
      assert (Hc : Ascii.eqb c "-" = false).
      { cbn in Hd. apply andb_prop in Hd as [Hc _].
        destruct c as [[] [] [] [] [] [] [] []]; try discriminate Hc; reflexivity. }
      rewrite Hc.
      pose proof (Hbody false (micro_units m e)) as Hb.
      rewrite E in Hb. exact Hb.
Qed.

Lemma formatted_number_reads_back_witness :
  of_string (format_6f (Float64.mul (Syntax.value "-128") Generator.SCALE_FACTOR))
  = Some (of_decimal
            (sign_bit (Float64.mul (Syntax.value "-128") Generator.SCALE_FACTOR))
            (millionths (Float64.mul (Syntax.value "-128") Generator.SCALE_FACTOR))
            6).
Proof.
  apply (formatted_number_reads_back
           (Float64.mul (Syntax.value "-128") Generator.SCALE_FACTOR)).
  vm_compute. reflexivity.
Defined.

End ReadBack.

(* ================================================================== *)
(** ** What every parsed plane satisfies *)

Section CleanPlanes.
Import Text Re Parser Syntax Reading Numbers Generator.

Lemma forall_concat {A : Type} (P : A -> Prop) (ls : list (list A)) :
  Forall P (List.concat ls) -> Forall (Forall P) ls.
Proof.
  induction ls as [|l ls IH]; simpl; intros H; constructor.
  - apply Forall_app in H. tauto.
  - apply IH. apply Forall_app in H. tauto.
Qed.

(** A property of the plane of every line is a property of every plane
    of every brush of the result. *)
Lemma parsed_planes_forall (P : plane_data -> Prop) :
  (forall l pd, plane_of_line l = Some pd -> P pd) ->
  forall map_filepath f,
    Forall (Forall P) (snd (parse_quake_map map_filepath f)).
Proof.
  intros HP map_filepath f. destruct f as [|msg|lines failure];
    try (cbn; constructor).
  apply forall_concat.
  destruct (result_provenance map_filepath lines failure)
    as (sub & _ & H).
  induction H; constructor; eauto.
Qed.

Lemma lower_char_idempotent (c : ascii) :
  lower_char (lower_char c) = lower_char c.
Proof. destruct c as [[] [] [] [] [] [] [] []]; reflexivity. Qed.

Lemma lower_char_non_space (c : ascii) :
  non_space c = true -> non_space (lower_char c) = true.
Proof. destruct c as [[] [] [] [] [] [] [] []]; simpl; intros H; try reflexivity; discriminate H. Qed.

Lemma lower_shape (g : string) :
  all_chars non_space g = true -> g <> "" ->
  lower g <> ""
  /\ all_chars non_space (lower g) = true
  /\ lower (lower g) = lower g.
Proof.
  intros Hg Hne. split; [destruct g; [congruence|discriminate]|].
  clear Hne. induction g as [|c g IH]; [split; reflexivity|].
  simpl in Hg. apply andb_prop in Hg as [Hc Hg]. destruct (IH Hg) as [H1 H2].
  unfold lower in *. cbn [map_chars all_chars].
  now rewrite (lower_char_non_space c Hc), lower_char_idempotent, H1, H2.
Qed.

Lemma to_float_ok (t : string) (v : Float64.float) :
  to_float t = Ok v -> Float64.of_string t = Some v.
Proof.
  unfold to_float. destruct (Float64.of_string t); [|discriminate].
  now intros H; inversion H.
Qed.

(** The plane of a line: its texture is the tenth group in lower case,
    its coordinates are what [float] makes of the first nine. *)
Lemma plane_of_line_groups (l : string) (pd : plane_data) :
  plane_of_line l = Some pd ->
  exists m,
    plane_match (strip l) = Some m
    /\ texture pd = lower (group m 10)
    /\ map Some (coordinates pd)
       = map (fun k => Float64.of_string (group m k)) [1; 2; 3; 4; 5; 6; 7; 8; 9]%nat.
Proof.
  unfold plane_of_line. destruct (plane_match (strip l)) as [m|]; [|discriminate].
  unfold plane_from_match.
  repeat match goal with
         | |- context [to_float ?t] =>
             let E := fresh "E" in
             destruct (to_float t) eqn:E; cbn [bind];
             [apply to_float_ok in E|discriminate]
         end.
  intros H; inversion H; subst. exists m. split; [reflexivity|].
  split; [reflexivity|]. cbn [coordinates plane map].
  repeat match goal with E : Float64.of_string _ = Some _ |- _ => rewrite E; clear E end.
  reflexivity.
Qed.

Lemma parsed_textures_shape (map_filepath : string) (f : file) :
  Forall (Forall (fun pd =>
            texture pd <> ""
            /\ all_chars non_space (texture pd) = true
            /\ lower (texture pd) = texture pd))
    (snd (parse_quake_map map_filepath f)).
Proof.
  apply parsed_planes_forall. intros l pd H.
  apply plane_of_line_groups in H as (m & Hm & -> & _).
  apply plane_match_groups in Hm as (_ & _ & H1 & H2).
  now apply lower_shape.
Qed.

(** Every texture name in the result is non-empty, holds no blank and
    is in lower case: putting it in lower case again changes nothing. *)
Theorem parsed_textures_are_normalised (map_filepath : string) (f : file) :
  Forall (Forall (fun pd =>
            texture pd <> ""
            /\ all_chars non_space (texture pd) = true
            /\ lower (texture pd) = texture pd))
    (snd (parse_quake_map map_filepath f)).
Proof. apply parsed_textures_shape. Qed.

(** No coordinate in the result is a NaN. *)
Theorem parsed_coordinates_are_numbers (map_filepath : string) (f : file) :
  Forall (Forall (fun pd =>
            Forall (fun v => is_nan v = false) (coordinates pd)))
    (snd (parse_quake_map map_filepath f)).
Proof.
  apply parsed_planes_forall. intros l pd H.
  apply plane_of_line_groups in H as (m & _ & _ & Hc).
  destruct pd as [[[[[x1 y1] z1] [[x2 y2] z2]] [[x3 y3] z3]] tx].
  cbn [coordinates plane map] in Hc |- *.
  inversion Hc.
  repeat constructor;
    match goal with
    | |- is_nan ?v = false =>
        match goal with
        | H : Some v = Float64.of_string _ |- _ =>
            symmetry in H; apply of_string_sign in H; tauto
        end
    end.
Qed.

(** The sign written for each coordinate of a point follows from the
    tokens read: the first and the second coordinate written carry a
    minus sign exactly when the x token and the z token do, the third
    one exactly when the y token does not; zeros are no exception. *)
Theorem emitted_signs_follow_tokens (tx ty tz : string) (x y z : Float64.float) :
  Float64.of_string tx = Some x ->
  Float64.of_string ty = Some y ->
  Float64.of_string tz = Some z ->
  startswith "-" (Float64.format_6f (Float64.mul x SCALE_FACTOR))
  = startswith "-" tx
  /\ startswith "-" (Float64.format_6f (Float64.mul z SCALE_FACTOR))
     = startswith "-" tz
  /\ startswith "-" (Float64.format_6f (Float64.mul (Float64.neg y) SCALE_FACTOR))
     = negb (startswith "-" ty).
Proof.
  intros Hx Hy Hz.
  apply of_string_sign in Hx as [Nx Sx], Hy as [Ny Sy], Hz as [Nz Sz].
  destruct (scale_sign x Nx) as [Nx' Sx'].
  destruct (scale_sign z Nz) as [Nz' Sz'].
  assert (Nny : is_nan (Float64.neg y) = false) by (destruct y; auto).
  assert (Sny : sign_bit (Float64.neg y) = negb (sign_bit y))
    by (destruct y; auto; discriminate).
  destruct (scale_sign (Float64.neg y) Nny) as [Ny' Sy'].
  rewrite !format_6f_sign by assumption.
  rewrite Sx', Sz', Sy', Sny. repeat split; congruence.
Qed.

Lemma emitted_signs_follow_tokens_witness :
  startswith "-" (Float64.format_6f (Float64.mul (value "-0") SCALE_FACTOR)) = true
  /\ startswith "-" (Float64.format_6f (Float64.mul (value "12.5") SCALE_FACTOR)) = false
  /\ startswith "-"
       (Float64.format_6f (Float64.mul (Float64.neg (value "0")) SCALE_FACTOR))
     = negb false.
Proof.
  apply (emitted_signs_follow_tokens "-0" "0" "12.5"); vm_compute; reflexivity.
Defined.

End CleanPlanes.

(* ================================================================== *)
(** ** Several blocks, nested braces, text outside the entities *)

Section Blocks.
Import Text Re Parser Syntax Reading Samples.

Lemma scan_block (b : block_text) (st : parser_state) :
  wf_block b = true -> current_brush_planes st = [] ->
  exists st',
    scan_lines (block_lines b) st = Ok st'
    /\ brushes st' = (brushes st ++ block_brush b)%list
    /\ current_brush_planes st' = [].
Proof.
  unfold wf_block, block_lines, block_brush. intros Hwf Hcur.
  apply andb_prop in Hwf as [Hwf Hafter]. apply andb_prop in Hwf as [Hwf Hc].
  apply andb_prop in Hwf as [Ho Hbody].
  apply String.eqb_eq in Ho, Hc.
  cbn [scan_lines]. rewrite (process_line_open st _ Ho). cbn [bind].
  rewrite scan_lines_app, scan_body by auto.
  cbn [bind scan_lines brushes current_brush_planes app].
  destruct (plane_texts (b_body b)) as [|p ps] eqn:Hp.
  - cbn [map]. unfold process_line at 1. rewrite Hc. cbn.
    match goal with
    | |- context [scan_lines (b_after b) ?s] =>
        destruct (scan_no_plane (b_after b) s Hafter eq_refl) as (s2 & E2 & B2 & C2)
    end.
    exists s2. rewrite E2. cbn in B2. rewrite B2, app_nil_r. auto.
  - rewrite process_line_close by (auto; discriminate).
    cbn [bind brushes current_brush_planes in_entity_block].
    match goal with
    | |- context [scan_lines (b_after b) ?s] =>
        destruct (scan_no_plane (b_after b) s Hafter eq_refl) as (s2 & E2 & B2 & C2)
    end.
    exists s2. rewrite E2. cbn in B2. rewrite B2. auto.
Qed.

Lemma scan_blocks (blocks : list block_text) :
  forall st,
    forallb wf_block blocks = true -> current_brush_planes st = [] ->
    exists st',
      scan_lines (flat_map block_lines blocks) st = Ok st'
      /\ brushes st' = (brushes st ++ flat_map block_brush blocks)%list
      /\ current_brush_planes st' = [].
Proof.
  induction blocks as [|b blocks IH]; intros st Hwf Hcur.
  - exists st. cbn. rewrite app_nil_r. auto.
  - cbn [forallb] in Hwf. apply andb_prop in Hwf as [Hb Hbs].
    destruct (scan_block b st Hb Hcur) as (s1 & E1 & B1 & C1).
    destruct (IH s1 Hbs C1) as (s2 & E2 & B2 & C2).
    exists s2. cbn [flat_map]. rewrite scan_lines_app, E1. cbn [bind].
    rewrite E2, B2, B1, <- app_assoc. auto.
Qed.

(** A file of brush blocks, each with well-formed plane lines and lines
    that are neither planes nor braces, separated by lines the pattern
    does not match: the result is the brushes of the blocks, in file
    order, the blocks without plane line left out. *)
Theorem blocks_give_brushes_in_order (map_filepath : string)
    (pre : list string) (blocks : list block_text) :
  forallb no_plane pre = true ->
  forallb wf_block blocks = true ->
  snd (parse_quake_map map_filepath
         (Readable (pre ++ flat_map block_lines blocks) None))
  = flat_map block_brush blocks.
Proof.
  intros Hpre Hblocks. unfold parse_quake_map, try_body.
  destruct (scan_no_plane pre init_state Hpre eq_refl) as (s1 & E1 & B1 & C1).
  destruct (scan_blocks blocks s1 Hblocks C1) as (s2 & E2 & B2 & C2).
  rewrite scan_lines_app, E1. cbn [bind]. rewrite E2. cbn [snd].
  unfold flush. rewrite C2, B2, B1. reflexivity.
Qed.

Lemma blocks_give_brushes_in_order_witness :
  snd (parse_quake_map "two.map"
         (Readable (["// two brushes"; "{"; classname_line]
                    ++ flat_map block_lines
                         [BlockText "{" [PlaneLine sample_plane] "}" [];
                          BlockText "{" [OtherLine ""] "}" ["// nothing"];
                          BlockText " {" [PlaneLine sample_plane_2;
                                          PlaneLine sample_plane] "} " ["}"]])
            None))
  = flat_map block_brush
      [BlockText "{" [PlaneLine sample_plane] "}" [];
       BlockText "{" [OtherLine ""] "}" ["// nothing"];
       BlockText " {" [PlaneLine sample_plane_2; PlaneLine sample_plane] "} " ["}"]].
Proof.
  apply blocks_give_brushes_in_order; vm_compute; reflexivity.
Defined.

(** An opening brace met while a block is still open throws away the
    planes accumulated for that block: the file reads as if the block had
    not been there. *)
Theorem unclosed_block_is_dropped (map_filepath : string)
    (pre rest : list string) (o o' : string) (body : list body_line)
    (failure : option string) :
  strip o = "{" ->
  forallb wf_body_line body = true ->
  strip o' = "{" ->
  parse_quake_map map_filepath
    (Readable (pre ++ o :: map line_of body ++ o' :: rest) failure)
  = parse_quake_map map_filepath (Readable (pre ++ o' :: rest) failure).
Proof.
  intros Ho Hbody Ho'. apply parse_depends_on_scan.
  rewrite !scan_lines_app.
  destruct (scan_lines pre init_state) as [s1|e]; cbn [bind]; [|reflexivity].
  cbn [scan_lines]. rewrite (process_line_open s1 o Ho). cbn [bind].
  rewrite scan_lines_app, scan_body by auto. cbn [bind scan_lines].
  now rewrite !(process_line_open _ o' Ho').
Qed.

Lemma unclosed_block_is_dropped_witness :
  parse_quake_map "nested.map"
    (Readable (["{"] ++ "{" :: map line_of [PlaneLine sample_plane]
                 ++ "{" :: [render sample_plane_2; "}"; "}"]) None)
  = parse_quake_map "nested.map"
      (Readable (["{"] ++ "{" :: [render sample_plane_2; "}"; "}"]) None).
Proof.
  apply unclosed_block_is_dropped; vm_compute; reflexivity.
Defined.

Lemma scan_outside (ls : list string) (st : parser_state) :
  in_entity_block st = false ->
  forallb (fun l => negb (is_brace l)) ls = true ->
  scan_lines ls st = Ok st.
Proof.
  intros Hin. induction ls as [|l ls IH]; intros H; [reflexivity|].
  cbn [forallb] in H. apply andb_prop in H as [Hl Hls].
  apply negb_true_iff in Hl.
  cbn [scan_lines]. rewrite (process_line_outside st l Hin Hl). cbn [bind].
  now apply IH.
Qed.

(** Outside the entities nothing is read: lines before the first brace
    of the file change neither what is printed nor what is returned, be
    they plane lines or lines on which [float] would raise. *)
Theorem text_before_first_brace_is_ignored (map_filepath : string)
    (pre rest : list string) (failure : option string) :
  forallb (fun l => negb (is_brace l)) pre = true ->
  parse_quake_map map_filepath (Readable (pre ++ rest) failure)
  = parse_quake_map map_filepath (Readable rest failure).
Proof.
  intros Hpre. apply parse_depends_on_scan.
  now rewrite scan_lines_app, (scan_outside pre init_state eq_refl Hpre).
Qed.

Lemma text_before_first_brace_is_ignored_witness :
  parse_quake_map "m.map"
    (Readable ([render sample_plane; dotted_line] ++ ["{"; "{"; wall_line; "}"; "}"]) None)
  = parse_quake_map "m.map"
      (Readable ["{"; "{"; wall_line; "}"; "}"] None).
Proof.
  apply text_before_first_brace_is_ignored; vm_compute; reflexivity.
Defined.

Lemma scan_lines_strip (ls ls' : list string) :
  Forall2 (fun a b => strip a = strip b) ls ls' ->
  forall st, scan_lines ls st = scan_lines ls' st.
Proof.
  induction 1 as [|a b ls ls' Hab _ IH]; intros st; [reflexivity|].
  cbn [scan_lines].
  assert (Hstep : process_line st a = process_line st b)
    by (unfold process_line; cbv zeta; now rewrite Hab).
  rewrite Hstep. destruct (process_line st b); cbn [bind]; [apply IH|reflexivity].
Qed.

(** What surrounds a line does not count: two files whose lines agree
    once the blanks at both ends of each line are removed, indentation
    and carriage returns among them, give the same brushes and the same
    printed lines. *)
Theorem surrounding_blanks_do_not_count (map_filepath : string)
    (ls ls' : list string) (failure : option string) :
  Forall2 (fun a b => strip a = strip b) ls ls' ->
  parse_quake_map map_filepath (Readable ls failure)
  = parse_quake_map map_filepath (Readable ls' failure).
Proof.
  intros H. unfold parse_quake_map, try_body.
  now rewrite (scan_lines_strip ls ls' H).
Qed.

Lemma surrounding_blanks_do_not_count_witness :
  parse_quake_map "a.map" (Readable ["{"; wall_line; "}"] None)
  = parse_quake_map "a.map"
      (Readable [String (ascii_of_nat 9) "{" ++ String (ascii_of_nat 13) newline;
                 "    " ++ wall_line ++ String (ascii_of_nat 13) newline;
                 "}" ++ newline] None).
Proof.
  apply (surrounding_blanks_do_not_count "a.map").
  repeat constructor.
Defined.

End Blocks.

(* ================================================================== *)
(** ** The shape of the document *)

Section Shape.
Import Text Parser Generator Layout Structure.

Lemma nesting_app (a b : list string) :
  forall d,
    nesting d (a ++ b)
    = match nesting d a with
      | Some d' => nesting d' b
      | None => None
      end.
Proof.
  induction a as [|l a IH]; intros d; [reflexivity|].
  cbn [app nesting].
  destruct (strip l =? "{"); [apply IH|].
  destruct (strip l =? "}"); [|apply IH].
  destruct d; [reflexivity|apply IH].
Qed.

Lemma rstrip_keeps_head (c : ascii) (s : string) :
  is_space c = false -> exists r, rstrip (String c s) = String c r.
Proof.
  intros Hc. simpl. destruct (rstrip s); [rewrite Hc|]; eauto.
Qed.

(** A line that carries a key is no brace. *)
Lemma key_value_no_brace (ind k v : string) :
  all_chars is_space ind = true ->
  (strip (ind ++ key_value k v) =? "{") = false
  /\ (strip (ind ++ key_value k v) =? "}") = false.
Proof.
  intros Hind. unfold strip. rewrite lstrip_blank_app by exact Hind.
  unfold key_value, quoted, dq. cbn [append].
  rewrite lstrip_head by reflexivity.
  match goal with
  | |- context [rstrip (String ?c ?x)] =>
      destruct (rstrip_keeps_head c x eq_refl) as [r Hr]; rewrite Hr
  end.
  split; reflexivity.
Qed.

Lemma nesting_key_value (ind k v : string) (rest : list string) (d : nat) :
  all_chars is_space ind = true ->
  nesting d ((ind ++ key_value k v) :: rest) = nesting d rest.
Proof.
  intros Hind. cbn [nesting].
  destruct (key_value_no_brace ind k v Hind) as [-> ->]. reflexivity.
Qed.

Lemma nesting_side (id : N) (pd : plane_data) (d : nat) :
  nesting d (side_lines id pd) = Some d.
Proof.
  destruct pd as [[[p1 p2] p3] tx]. unfold side_lines. cbn [plane texture].
  change (nesting d ("        side" :: "        {" :: ?r)) with (nesting (S d) r).
  rewrite !nesting_key_value by reflexivity.
  reflexivity.
Qed.

Lemma nesting_sides (planes : brush) :
  forall id d, nesting d (sides_from id planes) = Some d.
Proof.
  induction planes as [|pd planes IH]; intros id d; [reflexivity|].
  cbn [sides_from]. now rewrite nesting_app, nesting_side.
Qed.

Lemma nesting_solid_open (id : N) (d : nat) :
  nesting d (solid_open_lines id) = Some (S d).
Proof.
  unfold solid_open_lines.
  change (nesting d ("    solid" :: "    {" :: ?r)) with (nesting (S d) r).
  now rewrite nesting_key_value.
Qed.

Lemma nesting_solids (map_data : list brush) :
  forall id d, nesting d (solids_from id map_data) = Some d.
Proof.
  induction map_data as [|b r IH]; intros id d; [reflexivity|].
  cbn [solids_from].
  rewrite nesting_app, nesting_solid_open, nesting_app, nesting_sides.
  rewrite nesting_app. change (nesting (S d) solid_close_lines) with (Some d).
  cbv beta iota. apply IH.
Qed.

(** In every document the braces are properly nested: no brace closes
    what was not opened, and at the end everything opened is closed. *)
Theorem document_braces_are_nested (map_data : list brush) :
  nesting 0 (document_lines map_data) = Some 0%nat
  /\ (forall n, nesting 0 (firstn n (document_lines map_data)) <> None).
Proof.
  assert (Hall : nesting 0 (document_lines map_data) = Some 0%nat).
  { assert (He : nesting 0 (entity_open_lines (2 + drawn map_data)) = Some 1%nat).
    { unfold entity_open_lines.
      change (nesting 0 ("entity" :: "{" :: ?r)) with (nesting 1 r).
      now rewrite nesting_key_value. }
    rewrite document_lines_closed.
    rewrite nesting_app. change (nesting 0 header_lines) with (Some 0%nat).
    cbv beta iota.
    rewrite nesting_app. change (nesting 0 world_open_lines) with (Some 1%nat).
    cbv beta iota.
    rewrite nesting_app, nesting_solids.
    rewrite nesting_app. change (nesting 1 world_close_lines) with (Some 0%nat).
    cbv beta iota.
    rewrite nesting_app, He. reflexivity. }
  split; [exact Hall|].
  intros n Hn.
  rewrite <- (firstn_skipn n (document_lines map_data)) in Hall.
  rewrite nesting_app, Hn in Hall. discriminate.
Qed.

Lemma length_sides (planes : brush) :
  forall id, List.length (sides_from id planes) = (11 * List.length planes)%nat.
Proof.
  induction planes as [|pd planes IH]; intros id; [reflexivity|].
  cbn [sides_from]. rewrite length_app, IH.
  destruct pd as [[[p1 p2] p3] tx]. cbn [side_lines plane List.length]. lia.
Qed.

Lemma length_solids (map_data : list brush) :
  forall id,
    List.length (solids_from id map_data)
    = (11 * List.length map_data + 11 * plane_count map_data)%nat.
Proof.
  unfold plane_count.
  induction map_data as [|b r IH]; intros id; [reflexivity|].
  cbn [solids_from List.concat]. rewrite !length_app, IH, length_sides.
  cbn [solid_open_lines solid_close_lines List.length]. lia.
Qed.

Lemma drawn_count (map_data : list brush) :
  drawn map_data = N.of_nat (List.length map_data + plane_count map_data).
Proof.
  unfold plane_count. induction map_data as [|b r IH]; [reflexivity|].
  cbn [drawn List.length List.concat]. rewrite length_app, IH. lia.
Qed.

Lemma solid_marks (map_data : list brush) :
  forall id,
    filter (String.eqb "    solid") (solids_from id map_data)
    = repeat "    solid" (List.length map_data).
Proof.
  assert (Hsides : forall planes id,
             filter (String.eqb "    solid") (sides_from id planes) = []).
  { induction planes as [|pd planes IH]; intros id; [reflexivity|].
    cbn [sides_from]. rewrite filter_app, IH.
    destruct pd as [[[p1 p2] p3] tx]. reflexivity. }
  induction map_data as [|b r IH]; intros id; [reflexivity|].
  cbn [solids_from]. rewrite !filter_app, Hsides, IH. reflexivity.
Qed.

Lemma side_marks (map_data : list brush) :
  forall id,
    filter (String.eqb "        side") (solids_from id map_data)
    = repeat "        side" (plane_count map_data).
Proof.
  assert (Hsides : forall planes id,
             filter (String.eqb "        side") (sides_from id planes)
             = repeat "        side" (List.length planes)).
  { induction planes as [|pd planes IH]; intros id; [reflexivity|].
    cbn [sides_from]. rewrite filter_app, IH.
    destruct pd as [[[p1 p2] p3] tx]. reflexivity. }
  unfold plane_count.
  induction map_data as [|b r IH]; intros id; [reflexivity|].
  cbn [solids_from List.concat].
  rewrite !filter_app, Hsides, IH, length_app, repeat_app. reflexivity.
Qed.

(** Every document begins with the same thirteen lines and ends with
    the same twenty-five, up to the identifier of the entity; between
    them stand eleven lines per brush and eleven per plane, and nothing
    when there is no brush: one [solid] line per brush and one [side]
    line per plane. *)
Theorem document_scaffold (map_data : list brush) :
  exists middle,
    document_lines map_data
    = ((header_lines ++ world_open_lines) ++ middle
         ++ world_close_lines
         ++ entity_open_lines
              (2 + N.of_nat (List.length map_data + plane_count map_data))
         ++ entity_close_lines ++ hidden_lines)%list
    /\ List.length middle
       = (11 * List.length map_data + 11 * plane_count map_data)%nat
    /\ List.length (document_lines map_data)
       = (38 + 11 * List.length map_data + 11 * plane_count map_data)%nat
    /\ filter (String.eqb "    solid") (document_lines map_data)
       = repeat "    solid" (List.length map_data)
    /\ filter (String.eqb "        side") (document_lines map_data)
       = repeat "        side" (plane_count map_data).
Proof.
  exists (solids_from 2 map_data).
  rewrite !document_lines_closed, <- drawn_count.
  split; [now rewrite <- !app_assoc|].
  split; [apply length_solids|].
  split; [|split].
  - rewrite !length_app, length_solids.
    cbn [header_lines world_open_lines world_close_lines entity_open_lines
         entity_close_lines hidden_lines List.length]. lia.
  - rewrite !filter_app, solid_marks. cbn. now rewrite app_nil_r.
  - rewrite !filter_app, side_marks. cbn. now rewrite app_nil_r.
Qed.

End Shape.

(* ================================================================== *)
(** ** The document as a text *)

Section DocumentText.
Import Text Parser Generator Layout Structure Reading Syntax.

Lemma read_lines_aux_line (l : string) :
  all_chars no_break l = true ->
  forall cur s, read_lines_aux cur (l ++ s) = read_lines_aux (cur ++ l) s.
Proof.
  induction l as [|c l IH]; intros Hl cur s.
  - now rewrite append_nil_r.
  - simpl in Hl. apply andb_prop in Hl as [Hc Hl].
    unfold no_break in Hc. apply andb_prop in Hc as [H10 H13].
    apply negb_true_iff in H10, H13.
    cbn [append read_lines_aux]. rewrite H10, H13, (IH Hl).
    now rewrite append_assoc.
Qed.

Lemma read_lines_aux_newline (cur s : string) :
  read_lines_aux cur (newline ++ s) = (cur ++ newline) :: read_lines_aux "" s.
Proof. reflexivity. Qed.

(** Joining lines that hold no line break, the last one not empty, and
    reading the text line by line gives the lines back. *)
Lemma read_lines_concat (ls : list string) :
  Forall (fun l => all_chars no_break l = true) ls ->
  last ls "" <> "" ->
  read_lines (String.concat newline ls) = terminated ls.
Proof.
  unfold read_lines. induction ls as [|l ls IH]; intros Hall Hlast.
  - cbn in Hlast. congruence.
  - inversion Hall as [|? ? Hl Hls]; subst.
    destruct ls as [|l2 ls].
    + cbn [String.concat terminated]. cbn in Hlast.
      rewrite <- (append_nil_r l) at 1. rewrite read_lines_aux_line by exact Hl.
      cbn. destruct l; [congruence|reflexivity].
    + cbn [terminated].
      change (String.concat newline (l :: l2 :: ls))
        with (l ++ newline ++ String.concat newline (l2 :: ls)).
      rewrite read_lines_aux_line by exact Hl.
      rewrite read_lines_aux_newline. cbn [append]. f_equal.
      apply IH; [exact Hls|exact Hlast].
Qed.

Lemma digit_no_break (c : ascii) : is_digit c = true -> no_break c = true.
Proof. destruct c as [[] [] [] [] [] [] [] []]; simpl; intros H; try reflexivity; discriminate H. Qed.

Lemma non_space_no_break (c : ascii) : non_space c = true -> no_break c = true.
Proof. destruct c as [[] [] [] [] [] [] [] []]; simpl; intros H; try reflexivity; discriminate H. Qed.

Lemma upper_char_no_break (c : ascii) :
  all_chars no_break (upper_char c) = no_break c.
Proof. destruct c as [[] [] [] [] [] [] [] []]; reflexivity. Qed.

Lemma all_chars_weaken (p q : ascii -> bool) (s : string) :
  (forall c, p c = true -> q c = true) ->
  all_chars p s = true -> all_chars q s = true.
Proof.
  intros Hpq. induction s as [|c s IH]; [reflexivity|]. simpl.
  intros H. apply andb_prop in H as [Hc Hs]. now rewrite (Hpq c Hc), IH.
Qed.

Lemma upper_no_break (s : string) :
  all_chars no_break (upper s) = all_chars no_break s.
Proof.
  induction s as [|c s IH]; [reflexivity|].
  cbn [upper all_chars]. now rewrite all_chars_app, upper_char_no_break, IH.
Qed.

Lemma dec_no_break (n : N) : all_chars no_break (dec n) = true.
Proof.
  apply (all_chars_weaken is_digit); [exact digit_no_break|apply dec_digits].
Qed.

Lemma format_6f_no_break (v : Float64.float) :
  all_chars no_break (Float64.format_6f v) = true.
Proof.
  destruct v as [s|s| |s m e]; try (destruct s; reflexivity); [reflexivity|].
  cbn [Float64.format_6f]. rewrite !all_chars_app, dec_no_break.
  rewrite (all_chars_weaken is_digit no_break
             (Float64.fixed_digits 6 (Float64.micro_units m e mod 1000000))
             digit_no_break)
    by apply (fixed_digits_shape 6).
  destruct s; reflexivity.
Qed.

Lemma point_text_no_break (p : point3) :
  all_chars no_break (point_text p) = true.
Proof.
  destruct p as [[a b] c]. unfold point_text.
  rewrite !all_chars_app, !format_6f_no_break. reflexivity.
Qed.

Lemma side_lines_no_break (id : N) (pd : plane_data) :
  all_chars no_break (texture pd) = true ->
  Forall (fun l => all_chars no_break l = true) (side_lines id pd).
Proof.
  intros Htx. destruct pd as [[[p1 p2] p3] tx]. cbn [texture] in Htx.
  unfold side_lines. cbn [plane texture].
  repeat constructor;
    unfold key_value, quoted, dq;
    rewrite ?all_chars_app, ?dec_no_break, ?point_text_no_break,
            ?upper_no_break, ?Htx;
    reflexivity.
Qed.

Lemma document_no_break (map_data : list brush) :
  Forall (Forall (fun pd => all_chars no_break (texture pd) = true)) map_data ->
  Forall (fun l => all_chars no_break l = true) (document_lines map_data).
Proof.
  intros Hmd. rewrite document_lines_closed.
  assert (Hid : forall ind n,
             all_chars no_break ind = true ->
             all_chars no_break (ind ++ key_value "id" (dec n)) = true).
  { intros ind n Hind. unfold key_value, quoted, dq.
    now rewrite !all_chars_app, Hind, dec_no_break. }
  assert (Hsides : forall planes id,
             Forall (fun pd => all_chars no_break (texture pd) = true) planes ->
             Forall (fun l => all_chars no_break l = true) (sides_from id planes)).
  { induction planes as [|pd planes IH]; intros id H; [constructor|].
    inversion H; subst. cbn [sides_from].
    apply Forall_app; split; [now apply side_lines_no_break|now apply IH]. }
  assert (Hsolids : forall md id,
             Forall (Forall (fun pd => all_chars no_break (texture pd) = true)) md ->
             Forall (fun l => all_chars no_break l = true) (solids_from id md)).
  { induction md as [|b md IH]; intros id H; [constructor|].
    inversion H; subst. cbn [solids_from].
    repeat (apply Forall_app; split); auto.
    - repeat constructor. now apply Hid.
    - repeat constructor. }
  repeat (apply Forall_app; split); auto; repeat constructor.
  now apply Hid.
Qed.

Lemma document_last_line (map_data : list brush) :
  last (document_lines map_data) "" = "}".
Proof.
  rewrite document_lines_closed, !app_assoc.
  now rewrite last_last || (unfold hidden_lines;
    change ["hidden"; "{"; "}"] with (["hidden"; "{"] ++ ["}"])%list;
    rewrite app_assoc; apply last_last).
Qed.

(** When no texture name holds a line break, the text of the document,
    read line by line, gives back the lines of the document one by one:
    each with its line feed, the last one without. *)
Theorem document_text_reads_back (map_data : list brush) :
  Forall (Forall (fun pd => all_chars no_break (texture pd) = true)) map_data ->
  read_lines (generate_vmf_content map_data)
  = terminated (document_lines map_data).
Proof.
  intros Hmd. unfold generate_vmf_content.
  apply read_lines_concat; [now apply document_no_break|].
  rewrite document_last_line. discriminate.
Qed.

Lemma document_text_reads_back_witness :
  read_lines (generate_vmf_content [[plane_of Samples.sample_plane]])
  = terminated (document_lines [[plane_of Samples.sample_plane]]).
Proof.
  apply (document_text_reads_back [[plane_of Samples.sample_plane]]).
  repeat constructor.
Defined.

(** The document of whatever the parser returns reads back line by
    line: no texture name taken from a map file can break a line of the
    document. *)
Theorem parsed_document_reads_back (map_filepath : string) (f : file) :
  read_lines (generate_vmf_content (snd (parse_quake_map map_filepath f)))
  = terminated (document_lines (snd (parse_quake_map map_filepath f))).
Proof.
  unfold generate_vmf_content.
  apply read_lines_concat; [|rewrite document_last_line; discriminate].
  apply document_no_break.
  eapply Forall_impl; [|apply parsed_textures_shape].
  intros b Hb. eapply Forall_impl; [|exact Hb].
  intros pd (_ & Hns & _). cbv beta.
  exact (all_chars_weaken _ _ _ non_space_no_break Hns).
Qed.

End DocumentText.

(* ================================================================== *)
(** ** The batch *)

Section Batch.
Import Text Parser Generator Pipeline.

Lemma calls_fold_left {A : Type} (g : run_state -> A -> run_state) :
  (forall st a, calls (g st a) = calls st) ->
  forall l st, calls (fold_left g l st) = calls st.
Proof.
  intros Hg. induction l as [|a l IH]; intros st; [reflexivity|].
  cbn [fold_left]. now rewrite IH, Hg.
Qed.

Lemma run_resource_compiler_spec (o : os) (rc vmf : string) (st : run_state) :
  exists st' returned,
    run_resource_compiler o rc vmf st = (st', returned)
    /\ calls st' = (calls st ++ [compile_call o rc vmf])%list
    /\ (returned = None -> stuck o (calls st')).
Proof.
  unfold run_resource_compiler, compile_call, content_root, stuck.
  cbv zeta. cbn [calls insert record].
  destruct (popen o (calls st) [rc; "-f"; vmf]
              (join o (dirname o (dirname o (dirname o (dirname o rc)))) "content")
              (dirname o rc)) as [out err code|out err| |e so se|e] eqn:E.
  - destruct (negb (code =? 0)%Z); eexists _, _;
      (split; [reflexivity|]); cbn [calls insert];
      rewrite !calls_fold_left by reflexivity; (split; [reflexivity|discriminate]).
  - eexists _, _. split; [reflexivity|].
    rewrite !calls_fold_left by reflexivity. cbn [calls].
    split; [reflexivity|]. intros _.
    eexists _, _, _, _, _, _. split; [reflexivity|exact E].
  - eexists _, _. split; [reflexivity|]. split; [reflexivity|discriminate].
  - eexists _, _. split; [reflexivity|]. split; [reflexivity|discriminate].
  - eexists _, _. split; [reflexivity|]. split; [reflexivity|discriminate].
Qed.

(** One iteration of the loop adds the segment of its map file; it
    does not end only when the compiler it started is never done
    with. *)
Lemma process_map_calls (o : os) (ob rc : string)
    (acc : run_state * bool) (f : string) :
  exists seg,
    calls (fst (fst (process_map o (join o (join o ob "quakeautomatedscriptport") "maps")
                                 rc acc f)))
    = (calls (fst acc) ++ seg)%list
    /\ segment o ob rc (calls (fst acc)) f seg
    /\ (snd (process_map o (join o (join o ob "quakeautomatedscriptport") "maps")
                         rc acc f) = false ->
        stuck o (calls (fst acc) ++ seg)%list).
Proof.
  unfold process_map, segment. cbv zeta.
  cbn [calls print_to_console insert].
  destruct (parse_quake_map f (open_read o (calls (fst acc)) f))
    as [out brushes] eqn:Eparse.
  cbn [snd].
  destruct brushes as [|b bs].
  - exists [OpenRead f]. split; [reflexivity|].
    split; [left; split; reflexivity|discriminate].
  - cbn [calls print_lines record print_to_console insert].
    fold (vmf_path o ob f).
    destruct (open_write o (calls (fst acc) ++ [OpenRead f])%list
                (vmf_path o ob f) (generate_vmf_content (b :: bs))) eqn:Ew.
    + match goal with
      | |- context [run_resource_compiler ?o' ?rc' ?v ?s] =>
          destruct (run_resource_compiler_spec o' rc' v s)
            as (st' & returned & Erun & Hcalls & Hstuck);
          rewrite Erun
      end.
      exists [OpenRead f; OpenWrite (vmf_path o ob f) (generate_vmf_content (b :: bs));
              compile_call o rc (vmf_path o ob f)].
      cbn [calls print_to_console insert record print_lines] in Hcalls.
      rewrite <- !app_assoc in Hcalls. cbn [app] in Hcalls.
      split; [|split].
      * destruct returned as [[|]|]; cbn [fst calls print_to_console insert];
          exact Hcalls.
      * right. right. split; [discriminate|]. split; reflexivity.
      * destruct returned as [[|]|]; cbn [snd]; try discriminate.
        intros _. rewrite <- Hcalls. now apply Hstuck.
    + exists [OpenRead f; OpenWrite (vmf_path o ob f) (generate_vmf_content (b :: bs))].
      split; [|split].
      * cbn [fst calls print_to_console insert record print_lines]. now rewrite <- ?app_assoc.
      * right. left. split; [discriminate|]. split; [|reflexivity].
        discriminate.
      * discriminate.
    + exists [OpenRead f; OpenWrite (vmf_path o ob f) (generate_vmf_content (b :: bs))].
      split; [|split].
      * cbn [fst calls print_to_console insert record print_lines]. now rewrite <- ?app_assoc.
      * right. left. split; [discriminate|]. split; [|reflexivity].
        discriminate.
      * discriminate.
Qed.

(** The loop adds the segments of the files it comes to: all of them
    when it ends, those up to the file whose compiler is never done
    with when it does not. *)
Lemma loop_trail (o : os) (ob rc : string) (files : list string) :
  forall acc,
  exists done later t,
    files = (done ++ later)%list
    /\ calls (fst (fst (process_maps o
                          (join o (join o ob "quakeautomatedscriptport") "maps")
                          rc files acc)))
       = (calls (fst acc) ++ t)%list
    /\ trail o ob rc (calls (fst acc)) done t
    /\ (snd (process_maps o (join o (join o ob "quakeautomatedscriptport") "maps")
                          rc files acc) = true /\ later = []
        \/ snd (process_maps o (join o (join o ob "quakeautomatedscriptport") "maps")
                             rc files acc) = false
           /\ stuck o (calls (fst acc) ++ t)%list).
Proof.
  induction files as [|f files IH]; intros acc.
  - exists [], [], []. split; [reflexivity|].
    split; [now rewrite app_nil_r|]. split; [constructor|]. left. now split.
  - cbn [process_maps].
    destruct (process_map_calls o ob rc acc f) as (seg & Hseg & Hok & Hstuck).
    destruct (process_map o (join o (join o ob "quakeautomatedscriptport") "maps")
                          rc acc f) as [acc' [|]].
    + cbn [fst snd] in Hseg.
      destruct (IH acc') as (done & later & t & -> & Ht & Htrail & Hend).
      exists (f :: done), later, (seg ++ t)%list.
      split; [reflexivity|].
      split; [now rewrite Ht, Hseg, app_assoc|].
      split; [apply trail_cons; [exact Hok|]; now rewrite <- Hseg|].
      rewrite Hseg in Hend. now rewrite app_assoc.
    + cbn [fst snd] in Hseg, Hstuck |- *.
      exists [f], files, (seg ++ [])%list.
      split; [reflexivity|].
      split; [now rewrite app_nil_r|].
      split; [apply trail_cons; [exact Hok|constructor]|].
      right. split; [reflexivity|]. rewrite app_nil_r. now apply Hstuck.
Qed.



Lemma quiet_prefix (h0 t pre post : history) (x : call) :
  Forall (fun c => quiet c = true) h0 ->
  quiet x = false ->
  (h0 ++ t)%list = (pre ++ x :: post)%list ->
  exists pre2, pre = (h0 ++ pre2)%list /\ t = (pre2 ++ x :: post)%list.
Proof.
  intros Hq Hx. revert pre.
  induction Hq as [|a h0 Ha _ IH]; intros pre H.
  - now exists pre.
  - destruct pre as [|b pre]; cbn in H.
    + injection H as -> _. congruence.
    + injection H as -> H. destruct (IH pre H) as (pre2 & -> & ->).
      now exists pre2.
Qed.

Lemma app_split {A : Type} (seg rest pre post : list A) (x : A) :
  (seg ++ rest)%list = (pre ++ x :: post)%list ->
  (exists l, pre = (seg ++ l)%list /\ rest = (l ++ x :: post)%list)
  \/ (exists l, seg = (pre ++ x :: l)%list /\ post = (l ++ rest)%list).
Proof.
  intros H. apply app_eq_app in H as [l [[-> Hl]|[-> Hl]]].
  - destruct l as [|y l].
    + left. exists []. now rewrite !app_nil_r.
    + right. cbn in Hl. injection Hl as <- ->. now exists l.
  - left. now exists l.
Qed.

Lemma trail_head (o : os) (ob rc : string) (h : history)
    (files : list string) (t : history) :
  trail o ob rc h files t ->
  t = [] \/ exists f t', t = OpenRead f :: t'.
Proof.
  destruct 1 as [|h f seg files rest Hseg _]; [now left|]. right.
  destruct Hseg as [[_ ->]|[(_ & _ & ->)|(_ & _ & ->)]];
    cbn [app]; eexists _, _; reflexivity.
Qed.

(** Where a call sits in a trail: inside the segment of one file; what
    follows the segment is empty or starts with a read. *)
Lemma trail_split (o : os) (ob rc : string) (h : history)
    (files : list string) (t : history) :
  trail o ob rc h files t ->
  forall pre x post,
    t = (pre ++ x :: post)%list ->
    exists before f pre1 post1 after,
      pre = (before ++ pre1)%list
      /\ post = (post1 ++ after)%list
      /\ segment o ob rc (h ++ before)%list f (pre1 ++ x :: post1)%list
      /\ (after = [] \/ exists f' after', after = OpenRead f' :: after').
Proof.
  induction 1 as [|h f seg files rest Hseg Htrail IH]; intros pre x post Ht.
  - destruct pre; discriminate Ht.
  - apply app_split in Ht as [(l & -> & Hl)|(l & -> & ->)].
    + destruct (IH l x post Hl)
        as (before & f' & pre1 & post1 & after & -> & -> & Hs & Hafter).
      exists (seg ++ before)%list, f', pre1, post1, after.
      rewrite <- !app_assoc. repeat split; auto.
      now rewrite app_assoc.
    + exists [], f, pre, l, rest.
      rewrite app_nil_r. repeat split; auto.
      exact (trail_head _ _ _ _ _ _ Htrail).
Qed.

(** A write in a segment follows the read, carries the document of a
    map with a brush, and is followed by the compiler when it went
    well. *)
Lemma segment_write (o : os) (ob rc : string) (h : history) (f : string)
    (pre1 post1 : history) (p c : string) :
  segment o ob rc h f (pre1 ++ OpenWrite p c :: post1)%list ->
  pre1 = [OpenRead f]
  /\ p = vmf_path o ob f
  /\ snd (parse_quake_map f (open_read o h f)) <> []
  /\ c = generate_vmf_content (snd (parse_quake_map f (open_read o h f)))
  /\ (open_write o (h ++ [OpenRead f])%list p c = Written ->
      post1 = [compile_call o rc p])
  /\ (open_write o (h ++ [OpenRead f])%list p c <> Written -> post1 = []).
Proof.
  unfold segment. cbv zeta.
  intros [[_ H]|[(Hb & Hw & H)|(Hb & Hw & H)]];
    destruct pre1 as [|x1 [|x2 [|x3 pre1]]]; cbn [app] in H;
    try discriminate H;
    try (injection H as _ H; destruct pre1; discriminate H);
    try (injection H as _ _ H; destruct pre1; discriminate H);
    try (injection H as _ _ _ H; destruct pre1; discriminate H).
  - injection H as E1 E2 E3 E4. subst. repeat split; auto; intros; congruence.
  - injection H as E1 E2 E3 E4. subst. repeat split; auto; intros; congruence.
Qed.

(** A start of the compiler in a segment follows a write that went
    well, and names the document written. *)
Lemma segment_popen (o : os) (ob rc : string) (h : history) (f : string)
    (pre1 post1 : history) (command : list string) (vp cwd : string) :
  segment o ob rc h f (pre1 ++ Popen command vp cwd :: post1)%list ->
  exists p c,
    pre1 = [OpenRead f; OpenWrite p c]
    /\ open_write o (h ++ [OpenRead f])%list p c = Written
    /\ Popen command vp cwd = compile_call o rc p
    /\ post1 = [].
Proof.
  unfold segment. cbv zeta.
  intros [[_ H]|[(Hb & Hw & H)|(Hb & Hw & H)]];
    destruct pre1 as [|x1 [|x2 [|x3 pre1]]]; cbn [app] in H;
    try discriminate H;
    try (injection H as _ H; destruct pre1; discriminate H);
    try (injection H as _ _ H; destruct pre1; discriminate H);
    try (injection H as _ _ _ H; destruct pre1; discriminate H).
  injection H as E1 E2 E3 E4. subst. eexists _, _. repeat split; eauto.
Qed.

(** The calls of a run: calls that write nothing and start nothing,
    then the trail of the map files found. *)
Lemma convert_folder_calls (o : os) (i ob rc : string) :
  exists setup files t,
    calls (fst (convert_folder o i ob rc)) = (setup ++ t)%list
    /\ Forall (fun c => quiet c = true) setup
    /\ opened setup = []
    /\ trail o ob rc setup files t
    /\ (In (Walk i) (calls (fst (convert_folder o i ob rc))) ->
        exists h later,
          setup = (h ++ [Walk i])%list
          /\ map_files_to_process o (walk o h i) = (files ++ later)%list
          /\ (snd (convert_folder o i ob rc) = Returns /\ later = []
              \/ snd (convert_folder o i ob rc) = Hangs
                 /\ stuck o (calls (fst (convert_folder o i ob rc))))).
Proof.
  assert (Hquiet : forall setup,
             calls (fst (convert_folder o i ob rc)) = setup ->
             forallb quiet setup = true ->
             opened setup = [] ->
             forallb (fun c => match c with Walk _ => false | _ => true end) setup = true ->
             exists setup files t,
               calls (fst (convert_folder o i ob rc)) = (setup ++ t)%list
               /\ Forall (fun c => quiet c = true) setup
               /\ opened setup = []
               /\ trail o ob rc setup files t
               /\ (In (Walk i) (calls (fst (convert_folder o i ob rc))) ->
                   exists h later,
                     setup = (h ++ [Walk i])%list
                     /\ map_files_to_process o (walk o h i) = (files ++ later)%list
                     /\ (snd (convert_folder o i ob rc) = Returns /\ later = []
                         \/ snd (convert_folder o i ob rc) = Hangs
                            /\ stuck o (calls (fst (convert_folder o i ob rc)))))).
  { intros setup Hc Hq Ho Hw. exists setup, [], [].
    rewrite app_nil_r. split; [exact Hc|].
    split; [apply Forall_forall; now apply forallb_forall|].
    split; [exact Ho|]. split; [constructor|].
    rewrite Hc. intros Hin.
    rewrite forallb_forall in Hw. apply Hw in Hin. discriminate Hin. }
  unfold convert_folder in *. cbv zeta in *. cbn [calls record app] in *.
  destruct (path_exists o [] i); cbn [negb] in *;
    [|apply (Hquiet _ eq_refl); reflexivity].
  destruct (path_exists o [PathExists i] rc); cbn [negb] in *;
    [|apply (Hquiet _ eq_refl); reflexivity].
  unfold make in *. cbn [calls record app] in *.
  destruct (makedirs o _ _); [apply (Hquiet _ eq_refl); reflexivity|].
  destruct (makedirs o _ _); [apply (Hquiet _ eq_refl); reflexivity|].
  destruct (makedirs o _ _); [apply (Hquiet _ eq_refl); reflexivity|].
  clear Hquiet.
  unfold convert_maps. cbv zeta.
  cbn [calls record app print_to_console insert].
  set (h := [PathExists i; PathExists rc; MakeDirs (join o ob "quakeautomatedscriptport");
             MakeDirs (join o (join o ob "quakeautomatedscriptport") "maps");
             MakeDirs (join o (join o ob "quakeautomatedscriptport") "materials")]).
  destruct (map_files_to_process o (walk o h i)) as [|f files] eqn:Efiles.
  - exists (h ++ [Walk i])%list, [], []. cbn [fst snd calls print_to_console insert].
    rewrite app_nil_r. split; [reflexivity|].
    split; [repeat constructor|]. split; [reflexivity|]. split; [constructor|].
    intros _. exists h, []. rewrite Efiles. split; [reflexivity|].
    split; [reflexivity|]. left. now split.
  - match goal with
    | |- context [process_maps _ _ _ ?l ?acc] =>
        destruct (loop_trail o ob rc l acc)
          as (done & later & t & Hfiles & Ht & Htrail & Hend);
        destruct (process_maps o
                    (join o (join o ob "quakeautomatedscriptport") "maps")
                    rc l acc) as [[st found] ended]
    end.
    cbn [fst snd calls print_to_console insert] in Ht, Htrail, Hend.
    exists (h ++ [Walk i])%list, done, t.
    assert (Hcalls : forall st',
               calls st' = calls st -> calls st' = ((h ++ [Walk i]) ++ t)%list)
      by (intros st' ->; exact Ht).
    destruct ended.
    + destruct Hend as [[_ ->]|[Hf _]]; [|discriminate Hf].
      split.
      { destruct found; cbn [negb fst calls print_to_console insert];
          apply Hcalls; rewrite ?calls_fold_left by reflexivity; reflexivity. }
      split; [repeat constructor|]. split; [reflexivity|].
      split; [exact Htrail|].
      intros _. exists h, []. split; [reflexivity|].
      split; [now rewrite Efiles|]. left.
      split; [destruct found; reflexivity|reflexivity].
    + destruct Hend as [[Hf _]|[_ Hstuck]]; [discriminate Hf|].
      cbn [fst snd].
      split; [exact Ht|].
      split; [repeat constructor|]. split; [reflexivity|].
      split; [exact Htrail|].
      intros _. exists h, later. split; [reflexivity|].
      split; [now rewrite Efiles|]. right.
      split; [reflexivity|]. now rewrite Ht.
Qed.



(** In the world whose second compiler is never done with, the run
    does not return, and the third map file is never opened. *)
Lemma stuck_compiler_stops_the_run :
  snd (convert_folder SampleWorld.stuck_os "in" "out" SampleWorld.sample_compiler)
  = Hangs
  /\ opened (calls (fst (convert_folder SampleWorld.stuck_os "in" "out"
                           SampleWorld.sample_compiler)))
     = ["in/e1m1.map"; "in/E1M2.MAP"]
  /\ map_files_to_process SampleWorld.stuck_os
       (walk SampleWorld.stuck_os [] "in")
     = ["in/e1m1.map"; "in/E1M2.MAP"; "in/empty.map"].
Proof. vm_compute. repeat split. Qed.

(** Every document that a run writes follows the reading of a map
    file: it is the document of the brushes parsed from that file, of
    which there is at least one, and it goes to the file named after
    the map in the maps directory of the addon. *)
Theorem written_documents_come_from_maps (o : os) (i ob rc : string)
    (pre post : history) (p c : string) :
  calls (fst (convert_folder o i ob rc)) = (pre ++ OpenWrite p c :: post)%list ->
  exists pre' f,
    pre = (pre' ++ [OpenRead f])%list
    /\ p = vmf_path o ob f
    /\ snd (parse_quake_map f (open_read o pre' f)) <> []
    /\ c = generate_vmf_content (snd (parse_quake_map f (open_read o pre' f))).
Proof.
  intros H.
  destruct (convert_folder_calls o i ob rc)
    as (setup & files & t & Hcalls & Hquiet & _ & Htrail & _).
  rewrite Hcalls in H.
  destruct (quiet_prefix setup t pre post (OpenWrite p c) Hquiet eq_refl H)
    as (pre2 & -> & Ht).
  destruct (trail_split _ _ _ _ _ _ Htrail _ _ _ Ht)
    as (before & f & pre1 & post1 & after & -> & -> & Hseg & Hafter).
  destruct (segment_write _ _ _ _ _ _ _ _ _ Hseg) as (-> & -> & Hb & -> & _).
  exists (setup ++ before)%list, f.
  rewrite <- app_assoc. repeat split; auto.
Qed.

Lemma written_documents_come_from_maps_witness :
  exists pre' f,
    firstn 7 (calls SampleWorld.sample_run) = (pre' ++ [OpenRead f])%list
    /\ "out/quakeautomatedscriptport/maps/e1m1.vmf"
       = vmf_path SampleWorld.sample_os "out" f
    /\ snd (parse_quake_map f (open_read SampleWorld.sample_os pre' f)) <> []
    /\ SampleWorld.sample_document
       = generate_vmf_content
           (snd (parse_quake_map f (open_read SampleWorld.sample_os pre' f))).
Proof.
  apply (written_documents_come_from_maps SampleWorld.sample_os "in" "out"
           SampleWorld.sample_compiler
           (firstn 7 (calls SampleWorld.sample_run))
           (skipn 8 (calls SampleWorld.sample_run))).
  vm_compute. reflexivity.
Defined.

(** The compiler is started only right after a document has been
    written without error, and then on that document: with the
    arguments [-f] and the path written, in the directory of the
    compiler, with [VPROJECT] set to the content directory four levels
    above the compiler. *)
Theorem compiler_starts_on_written_documents (o : os) (i ob rc : string)
    (pre post : history) (command : list string) (vp cwd : string) :
  calls (fst (convert_folder o i ob rc))
  = (pre ++ Popen command vp cwd :: post)%list ->
  exists pre' p c,
    pre = (pre' ++ [OpenWrite p c])%list
    /\ open_write o pre' p c = Written
    /\ command = [rc; "-f"; p]
    /\ vp = content_root o rc
    /\ cwd = dirname o rc.
Proof.
  intros H.
  destruct (convert_folder_calls o i ob rc)
    as (setup & files & t & Hcalls & Hquiet & _ & Htrail & _).
  rewrite Hcalls in H.
  destruct (quiet_prefix setup t pre post (Popen command vp cwd) Hquiet eq_refl H)
    as (pre2 & -> & Ht).
  destruct (trail_split _ _ _ _ _ _ Htrail _ _ _ Ht)
    as (before & f & pre1 & post1 & after & -> & -> & Hseg & Hafter).
  destruct (segment_popen _ _ _ _ _ _ _ _ _ _ Hseg)
    as (p & c & -> & Hw & Hcall & _).
  exists ((setup ++ before) ++ [OpenRead f])%list, p, c.
  unfold compile_call in Hcall. injection Hcall as -> -> ->.
  rewrite <- !app_assoc. repeat split; auto.
  now rewrite <- app_assoc in Hw.
Qed.

Lemma compiler_starts_on_written_documents_witness :
  exists pre' p c,
    firstn 8 (calls SampleWorld.sample_run) = (pre' ++ [OpenWrite p c])%list
    /\ open_write SampleWorld.sample_os pre' p c = Written
    /\ [SampleWorld.sample_compiler; "-f";
        "out/quakeautomatedscriptport/maps/e1m1.vmf"]
       = [SampleWorld.sample_compiler; "-f"; p]
    /\ "hla/content" = content_root SampleWorld.sample_os SampleWorld.sample_compiler
    /\ "hla/game/bin/win64" = dirname SampleWorld.sample_os SampleWorld.sample_compiler.
Proof.
  apply (compiler_starts_on_written_documents SampleWorld.sample_os "in" "out"
           SampleWorld.sample_compiler
           (firstn 8 (calls SampleWorld.sample_run))
           (skipn 9 (calls SampleWorld.sample_run))).
  vm_compute. reflexivity.
Defined.

(** A document written without error is handed to the compiler at
    once: the next call starts the compiler on it.  After a write that
    failed the compiler is not started on that document. *)
Theorem written_document_is_compiled_next (o : os) (i ob rc : string)
    (pre post : history) (p c : string) :
  calls (fst (convert_folder o i ob rc)) = (pre ++ OpenWrite p c :: post)%list ->
  (open_write o pre p c = Written ->
   exists post', post = compile_call o rc p :: post')
  /\ (open_write o pre p c <> Written ->
      forall post', post <> compile_call o rc p :: post').
Proof.
  intros H.
  destruct (convert_folder_calls o i ob rc)
    as (setup & files & t & Hcalls & Hquiet & _ & Htrail & _).
  rewrite Hcalls in H.
  destruct (quiet_prefix setup t pre post (OpenWrite p c) Hquiet eq_refl H)
    as (pre2 & -> & Ht).
  destruct (trail_split _ _ _ _ _ _ Htrail _ _ _ Ht)
    as (before & f & pre1 & post1 & after & -> & -> & Hseg & Hafter).
  destruct (segment_write _ _ _ _ _ _ _ _ _ Hseg)
    as (-> & Hp & Hb & Hc & Hok & Hbad).
  rewrite <- !app_assoc in Hok, Hbad.
  split.
  - intros Hw. rewrite (Hok Hw). now exists after.
  - intros Hw post' Hpost. rewrite (Hbad Hw) in Hpost. cbn [app] in Hpost.
    destruct Hafter as [->|(f' & after' & ->)]; discriminate Hpost.
Qed.

Lemma written_document_is_compiled_next_witness :
  exists post',
    skipn 8 (calls SampleWorld.sample_run)
    = compile_call SampleWorld.sample_os SampleWorld.sample_compiler
        "out/quakeautomatedscriptport/maps/e1m1.vmf" :: post'.
Proof.
  apply (proj1 (written_document_is_compiled_next SampleWorld.sample_os
                  "in" "out" SampleWorld.sample_compiler
                  (firstn 7 (calls SampleWorld.sample_run))
                  (skipn 8 (calls SampleWorld.sample_run))
                  "out/quakeautomatedscriptport/maps/e1m1.vmf"
                  SampleWorld.sample_document
                  ltac:(vm_compute; reflexivity))).
  vm_compute. reflexivity.
Defined.





End Batch.
